(** * Marzban-Manager: provisioning and deprovisioning core

    A shallow embedding of the Python backend's orchestration core
    (backend/app/clients and backend/app/services) and the properties
    its specification states about it.

    Conventions of the embedding:
    - a Python [str] is the list of its code points ([pystr]);
    - a Python [int] is a [Z];
    - a [datetime] is its number of microseconds since [datetime.min];
    - [None] is [None], an [Optional[T]] field is an [option T];
    - code that talks to a remote shell, the panel or the database is
      a function of an explicit world state; what the outside answers
      is read from an oracle, and what the code did is kept as a trace
      of events. *)

From Stdlib Require Import String Ascii DecimalString.
From Stdlib Require Import ZArith NArith List Bool Lia.
Import ListNotations.

Set Warnings "-register-all".

Set Implicit Arguments.

(** ** Python strings *)

Module PyStr.

Definition pystr := list N.

(** A literal of the source, as code points. *)
Definition lit (s : string) : pystr :=
  List.map N_of_ascii (list_ascii_of_string s).

Definition eqb (a b : pystr) : bool :=
  if list_eq_dec N.eq_dec a b then true else false.

Definition in_range (lo hi c : N) : bool := ((lo <=? c) && (c <=? hi))%N.

(** [str.isspace] on one character, which is also what [\s] matches
    in a [str] pattern. *)
Definition is_space (c : N) : bool :=
  in_range 9 13 c || in_range 28 32 c || (c =? 133)%N || (c =? 160)%N
  || (c =? 5760)%N || in_range 8192 8202 c || (c =? 8232)%N
  || (c =? 8233)%N || (c =? 8239)%N || (c =? 8287)%N || (c =? 12288)%N.

Fixpoint drop_while (p : N -> bool) (s : pystr) : pystr :=
  match s with
  | c :: s' => if p c then drop_while p s' else s
  | [] => []
  end.

Fixpoint take_while (p : N -> bool) (s : pystr) : pystr :=
  match s with
  | c :: s' => if p c then c :: take_while p s' else []
  | [] => []
  end.

(** [s.lstrip()], [s.rstrip()] *)
Definition lstrip (s : pystr) : pystr := drop_while is_space s.

Definition rstrip (s : pystr) : pystr := rev (lstrip (rev s)).

(** [s.strip()] *)
Definition strip (s : pystr) : pystr := rstrip (lstrip s).

(** Truth value of a string: non-empty. *)
Definition truthy (s : pystr) : bool :=
  match s with [] => false | _ => true end.

(** Truth value of an optional string: present and non-empty. *)
Definition given (s : option pystr) : bool :=
  match s with Some x => truthy x | None => false end.

(** [s] without its prefix [pre], when it starts with it. *)
Fixpoint strip_prefix (pre s : pystr) : option pystr :=
  match pre, s with
  | [], _ => Some s
  | a :: pre', b :: s' => if (a =? b)%N then strip_prefix pre' s' else None
  | _ :: _, [] => None
  end.

(** [str(n)] / [f"{n}"] for an [int]. *)
Definition str_of_Z (n : Z) : pystr := lit (NilZero.string_of_int (Z.to_int n)).

(** [sep.join(parts)] *)
Fixpoint join (sep : pystr) (parts : list pystr) : pystr :=
  match parts with
  | [] => []
  | [x] => x
  | x :: rest => x ++ sep ++ join sep rest
  end.

End PyStr.
Import PyStr.

(** ** Exceptions and effects

    An exception is its class and [str(e)].  Effectful code is a
    function of a state [S] that either returns a value or raises. *)

Inductive ExnClass :=
| SSHClientError | SSHConnectionError | SSHCommandError
| MarzbanClientError | MarzbanConnectionError | MarzbanAuthError
| MarzbanServerError | MarzbanNotFoundError
| ValueError
| ParamikoSSHException | ParamikoAuthenticationException
| LibraryError.   (* any other [Exception] raised by a library *)

Record Exn := Exc { exn_class : ExnClass; exn_msg : pystr }.

Inductive outcome (A : Type) :=
| Ret (a : A)
| Raise (e : Exn).
Arguments Ret {A} a.
Arguments Raise {A} e.

Definition M (S A : Type) : Type := S -> outcome A * S.

Definition ret {S A} (a : A) : M S A := fun s => (Ret a, s).
Definition raise {S A} (e : Exn) : M S A := fun s => (Raise e, s).
Definition bind {S A B} (c : M S A) (f : A -> M S B) : M S B :=
  fun s => match c s with
           | (Ret a, s') => f a s'
           | (Raise e, s') => (Raise e, s')
           end.
(** [try: c  except Exception as e: h e] *)
Definition try_except {S A} (c : M S A) (h : Exn -> M S A) : M S A :=
  fun s => match c s with
           | (Ret a, s') => (Ret a, s')
           | (Raise e, s') => h e s'
           end.
(** [try: c  finally: f] *)
Definition try_finally {S A} (c : M S A) (f : M S unit) : M S A :=
  fun s => match c s with
           | (Ret a, s') =>
               match f s' with
               | (Ret _, s'') => (Ret a, s'')
               | (Raise e, s'') => (Raise e, s'')
               end
           | (Raise e, s') =>
               match f s' with
               | (Ret _, s'') => (Raise e, s'')
               | (Raise e', s'') => (Raise e', s'')
               end
           end.
Definition get {S} : M S S := fun s => (Ret s, s).
Definition modify {S} (f : S -> S) : M S unit := fun s => (Ret tt, f s).

Declare Scope monad_scope.
Delimit Scope monad_scope with monad.
Notation "x <- c1 ;; c2" := (bind c1 (fun x => c2))
  (at level 61, c1 at next level, right associativity) : monad_scope.
Notation "c1 ;; c2" := (bind c1 (fun _ => c2))
  (at level 61, right associativity) : monad_scope.

(** ** The fragment of Python's [re] the clients use

  A backtracking matcher over character classes with a quantifier,
  non-capturing alternation and capturing groups.  A pattern is the
  list of its items, in order. *)

Module Re.

Inductive quant := One | Opt | Star | Plus | LazyStar.

Inductive re :=
| Cls (p : N -> bool) (q : quant)
| Alt (a b : list re)
| Group (body : list re).

(** What is left to match: receives the groups closed so far (most
    recent first) and the rest of the text. *)
Definition cont := list pystr -> pystr -> option (list pystr * pystr).

Definition one (p : N -> bool) (k : cont) : cont :=
  fun gs s =>
    match s with
    | c :: s' => if p c then k gs s' else None
    | [] => None
    end.

(** Greedy [p?]: with the character first, then without. *)
Definition opt (p : N -> bool) (k : cont) : cont :=
  fun gs s =>
    match s with
    | c :: s' =>
        if p c then
          match k gs s' with
          | Some r => Some r
          | None => k gs s
          end
        else k gs s
    | [] => k gs s
    end.

(** Greedy [p*]: take as many as possible, give back one at a time. *)
Fixpoint star (p : N -> bool) (k : cont) (gs : list pystr) (s : pystr)
  : option (list pystr * pystr) :=
  match s with
  | c :: s' =>
      if p c then
        match star p k gs s' with
        | Some r => Some r
        | None => k gs s
        end
      else k gs s
  | [] => k gs s
  end.

(** Lazy [p*?]: take as few as possible. *)
Fixpoint lazy_star (p : N -> bool) (k : cont) (gs : list pystr) (s : pystr)
  : option (list pystr * pystr) :=
  match k gs s with
  | Some r => Some r
  | None =>
      match s with
      | c :: s' => if p c then lazy_star p k gs s' else None
      | [] => None
      end
  end.

Definition close_group (s : pystr) (k : cont) : cont :=
  fun gs s' => k (firstn (length s - length s') s :: gs) s'.

Fixpoint m (r : re) (k : cont) {struct r} : cont :=
  match r with
  | Cls p One => one p k
  | Cls p Opt => opt p k
  | Cls p Star => star p k
  | Cls p Plus => one p (star p k)
  | Cls p LazyStar => lazy_star p k
  | Alt a b =>
      fun gs s =>
        match (fix seq (l : list re) : cont :=
                 match l with [] => k | r' :: l' => m r' (seq l') end) a gs s
        with
        | Some r => Some r
        | None =>
            (fix seq (l : list re) : cont :=
               match l with [] => k | r' :: l' => m r' (seq l') end) b gs s
        end
  | Group body =>
      fun gs s =>
        (fix seq (l : list re) (k' : cont) : cont :=
           match l with [] => k' | r' :: l' => m r' (seq l' k') end)
          body (close_group s k) gs s
  end.

Definition m_seq (rs : list re) (k : cont) : cont :=
  fold_right m k rs.

Definition accept : cont := fun gs s => Some (gs, s).

(** [pattern.match(s)]: the groups (most recent first) and the text
    after the match. *)
Definition match_at (pat : list re) (s : pystr) : option (list pystr * pystr) :=
  m_seq pat accept [] s.

(** [re.search(pattern, s)]: the leftmost position with a match. *)
Fixpoint search (pat : list re) (s : pystr) : option (list pystr * pystr) :=
  match match_at pat s with
  | Some r => Some r
  | None =>
      match s with
      | [] => None
      | _ :: s' => search pat s'
      end
  end.

(** [group(1)] of a pattern with one group. *)
Definition group1 (r : list pystr * pystr) : pystr := hd [] (fst r).

(** [pattern.sub('', s)]: scanning from the left, the characters of a
    match at the current position are dropped ([skip] counts the ones
    still to drop), any other character is kept. *)
Fixpoint sub_from (pat : list re) (skip : nat) (s : pystr) : pystr :=
  match s with
  | [] => []
  | c :: s' =>
      match skip with
      | S n => sub_from pat n s'
      | O =>
          match match_at pat s with
          | Some (_, rest) =>
              match length s - length rest with
              | S n => sub_from pat n s'
              | O => c :: sub_from pat 0 s'
              end
          | None => c :: sub_from pat 0 s'
          end
      end
  end.

Definition sub_empty (pat : list re) (s : pystr) : pystr := sub_from pat 0 s.

(** Items of a pattern. *)
Definition chr (c : N) : re := Cls (N.eqb c) One.
Definition chars (cs : pystr) : list re := List.map chr cs.
Definition text (s : string) : list re := chars (lit s).

End Re.

(** ** What the code does to the outside: events *)

Inductive KeyAlgo := RSAKey | Ed25519Key | ECDSAKey.

(** The keyword arguments of [paramiko.SSHClient.connect]. *)
Record ConnectKwargs := {
  kw_hostname : pystr;
  kw_port : Z;
  kw_username : pystr;
  kw_timeout : Z;
  kw_banner_timeout : Z;
  kw_auth_timeout : Z;
  kw_pkey : option pystr;
  kw_password : option pystr
}.

(** The row handed to [node_repo.insert]. *)
Record NodeData := {
  MarzbanPanelID : Z;
  NodeName : pystr;
  Address : pystr;
  ServicePort : Z;
  APIPort : Z;
  NodeStatusID : Z;
  SSHProfileID : option Z
}.

(** The keyword arguments of [ssh_profile_repo.create_profile]. *)
Record ProfileData := {
  profile_name : pystr;
  profile_host : pystr;
  profile_port : Z;
  profile_username : pystr;
  profile_password : option pystr;
  profile_private_key : option pystr;
  use_key_auth : bool;
  default_service_port : Z;
  default_api_port : Z;
  profile_install_docker : bool;
  auto_start_node : bool
}.

Inductive Event :=
| EvNewParamikoClient
| EvSetMissingHostKeyPolicy
| EvParseKey (algo : KeyAlgo)
| EvConnect (kwargs : ConnectKwargs)
| EvClose
| EvExecute (command : pystr) (timeout : Z)
| EvUploadContent (content remote_path : pystr) (mode : Z)
| EvInsertNode (row : NodeData)
| EvUpdateNodeStatus (node_id status : Z)
| EvPanelCreateNode (name address : pystr) (port api_port : Z)
| EvAudit (entity_id : Z) (action_type detail : pystr)
| EvPanelDelete (panel_id : Z) (name : pystr)
| EvServerUninstall (ssh_profile_id : Z) (name : pystr)
| EvLocalDelete (node_id : Z)
| EvFindProfileByName (profile_name : pystr)
| EvCreateProfile (profile : ProfileData)
| EvGetCertificate (panel_id : Z).

Definition trace := list Event.

Definition emit (e : Event) : M trace unit := modify (fun t => t ++ [e]).

(** ** SSHClient *)

Module SSHClient.

(** [ssh_client.CommandResult] *)
Record CommandResult := {
  stdout : pystr;
  stderr : pystr;
  exit_code : Z
}.

Record t := {
  host : pystr;
  port : Z;
  username : pystr;
  password : option pystr;
  private_key : option pystr;
  timeout : Z
}.

(** What paramiko answers: the outcome of each [from_private_key]
    and of [connect]. *)
Record Paramiko := {
  from_private_key : KeyAlgo -> pystr -> outcome pystr;
  connect_outcome : ConnectKwargs -> option Exn
}.

Definition is_class (c : ExnClass) (e : Exn) : bool :=
  match c, exn_class e with
  | ParamikoSSHException, ParamikoSSHException => true
  | ParamikoAuthenticationException, ParamikoAuthenticationException => true
  | _, _ => false
  end.

Definition parse_key (pk : Paramiko) (algo : KeyAlgo) (key : pystr) : M trace pystr :=
  (emit (EvParseKey algo) ;;
   match from_private_key pk algo key with
   | Ret k => ret k
   | Raise e => raise e
   end)%monad.

(** [except paramiko.SSHException: h] *)
Definition except_ssh {A} (c : M trace A) (h : M trace A) : M trace A :=
  try_except c (fun e => if is_class ParamikoSSHException e
                            || is_class ParamikoAuthenticationException e
                         then h else raise e).

Definition _connect_sync (pk : Paramiko) (self : t) : M trace unit :=
  (emit EvNewParamikoClient ;;
   emit EvSetMissingHostKeyPolicy ;;
   let connect_kwargs :=
     {| kw_hostname := host self; kw_port := port self;
        kw_username := username self; kw_timeout := timeout self;
        kw_banner_timeout := timeout self; kw_auth_timeout := timeout self;
        kw_pkey := None; kw_password := None |} in
   kwargs <-
     (if given (private_key self) then
        let key := match private_key self with Some k => k | None => [] end in
        pkey <- except_ssh (parse_key pk RSAKey key)
                  (except_ssh (parse_key pk Ed25519Key key)
                     (parse_key pk ECDSAKey key)) ;;
        ret {| kw_hostname := host self; kw_port := port self;
               kw_username := username self; kw_timeout := timeout self;
               kw_banner_timeout := timeout self; kw_auth_timeout := timeout self;
               kw_pkey := Some pkey; kw_password := None |}
      else if given (password self) then
        ret {| kw_hostname := host self; kw_port := port self;
               kw_username := username self; kw_timeout := timeout self;
               kw_banner_timeout := timeout self; kw_auth_timeout := timeout self;
               kw_pkey := None; kw_password := password self |}
      else
        raise (Exc SSHConnectionError (lit "No authentication method provided"))) ;;
   emit (EvConnect kwargs) ;;
   match connect_outcome pk kwargs with
   | None => ret tt
   | Some e =>
       if is_class ParamikoAuthenticationException e then
         raise (Exc SSHConnectionError (lit "Authentication failed: " ++ exn_msg e))
       else if is_class ParamikoSSHException e then
         raise (Exc SSHConnectionError (lit "SSH error: " ++ exn_msg e))
       else
         raise (Exc SSHConnectionError (lit "Connection failed: " ++ exn_msg e))
   end)%monad.

(** [connect] runs [_connect_sync] on the worker pool and hands back
    its result or its exception. *)
Definition connect (pk : Paramiko) (self : t) : M trace unit :=
  _connect_sync pk self.

(** What the remote host answers to a connected client, given what
    has been done so far: the outcome of [execute] and of
    [upload_content]. *)
Record Remote := {
  execute_outcome : trace -> pystr -> Z -> outcome CommandResult;
  upload_outcome : trace -> pystr -> pystr -> Z -> option Exn
}.

Definition execute (rm : Remote) (command : pystr) (timeout : Z)
  : M trace CommandResult :=
  fun tr => (execute_outcome rm tr command timeout,
             tr ++ [EvExecute command timeout]).

Definition upload_content (rm : Remote) (content remote_path : pystr) (mode : Z)
  : M trace unit :=
  fun tr => (match upload_outcome rm tr content remote_path mode with
             | None => Ret tt
             | Some e => Raise e
             end,
             tr ++ [EvUploadContent content remote_path mode]).

End SSHClient.

(** ** NodeManagerClient *)

Module NodeManagerClient.
Import Re.
Import SSHClient.

(** [node_manager_client.InstallResult] *)
Record InstallResult := {
  success : bool;
  node_name : pystr;
  service_port : Z;
  api_port : Z;
  install_dir : option pystr;
  data_dir : option pystr;
  public_ip : option pystr;
  error : option pystr
}.


Definition ESC : N := 27.

(** [[@-Z\\-_]] *)
Definition c1_final (c : N) : bool := in_range 64 90 c || in_range 92 95 c.
(** [[0-?]], [[ -/]], [[@-~]] *)
Definition csi_param (c : N) : bool := in_range 48 63 c.
Definition csi_inter (c : N) : bool := in_range 32 47 c.
Definition csi_final (c : N) : bool := in_range 64 126 c.

(** [r'\x1B(?:[@-Z\\-_]|\[[0-?]*[ -/]*[@-~])'] *)
Definition ansi_escape : list re :=
  [ chr ESC;
    Alt [ Cls c1_final One ]
        [ chr 91; Cls csi_param Star; Cls csi_inter Star; Cls csi_final One ] ].

Definition _strip_ansi (text : pystr) : pystr := sub_empty ansi_escape text.


Section WithDecimalTable.

(** The decimal value of a character of Unicode category Nd
    ([Py_UNICODE_TODECIMAL]).  [\d] and [int()] read it from the
    Python runtime's character database, which is taken as a
    parameter here. *)
Variable todecimal : N -> option N.

Definition is_digit (c : N) : bool :=
  match todecimal c with Some _ => true | None => false end.

Definition digit_val (c : N) : Z :=
  match todecimal c with Some v => Z.of_N v | None => 0 end.

(** [int(s)] on a string of decimal digits. *)
Definition int_of_digits (s : pystr) : Z :=
  fold_left (fun acc c => 10 * acc + digit_val c)%Z s 0%Z.

Definition not_space (c : N) : bool := negb (is_space c).
Definition not_newline (c : N) : bool := negb (c =? 10)%N.

(** [r"SERVICE_PORT:\s+(\d+)"] *)
Definition service_port_re : list re :=
  text "SERVICE_PORT:" ++ [Cls is_space Plus; Group [Cls is_digit Plus]].

(** [r"XRAY_API_PORT:\s+(\d+)"] *)
Definition api_port_re : list re :=
  text "XRAY_API_PORT:" ++ [Cls is_space Plus; Group [Cls is_digit Plus]].

(** [r"Install Dir:\s+(\S+)"] *)
Definition install_dir_re : list re :=
  text "Install Dir:" ++ [Cls is_space Plus; Group [Cls not_space Plus]].

(** [r"Data Dir:\s+(\S+)"] *)
Definition data_dir_re : list re :=
  text "Data Dir:" ++ [Cls is_space Plus; Group [Cls not_space Plus]].

(** [r"Use this IP.*?:\s*(\d+\.\d+\.\d+\.\d+)"] *)
Definition public_ip_re : list re :=
  text "Use this IP"
  ++ [Cls not_newline LazyStar; chr 58; Cls is_space Star;
      Group [Cls is_digit Plus; chr 46; Cls is_digit Plus; chr 46;
             Cls is_digit Plus; chr 46; Cls is_digit Plus]].

Definition _parse_install_output
    (result : CommandResult) (name : pystr) (service_port api_port : Z)
  : InstallResult :=
  let output := stdout result ++ stderr result in
  let clean_output := _strip_ansi output in
  let actual_service_port :=
    match search service_port_re clean_output with
    | Some service_match => int_of_digits (group1 service_match)
    | None => service_port
    end in
  let actual_api_port :=
    match search api_port_re clean_output with
    | Some api_match => int_of_digits (group1 api_match)
    | None => api_port
    end in
  if negb (exit_code result =? 0)%Z then
    let error :=
      if truthy (strip clean_output) then strip clean_output
      else lit "Installation failed" in
    {| success := false;
       node_name := name;
       service_port := actual_service_port;
       api_port := actual_api_port;
       install_dir := None;
       data_dir := None;
       public_ip := None;
       error := Some error |}
  else
    let install_dir := option_map group1 (search install_dir_re clean_output) in
    let data_dir := option_map group1 (search data_dir_re clean_output) in
    let public_ip := option_map group1 (search public_ip_re clean_output) in
    {| success := true;
       node_name := name;
       service_port := actual_service_port;
       api_port := actual_api_port;
       install_dir := install_dir;
       data_dir := data_dir;
       public_ip := public_ip;
       error := None |}.

Definition INSTALL_CLI_URL : pystr :=
  lit "https://raw.githubusercontent.com/DrSaeedHub/Marzban-node-manager/main/install-cli.sh".

Variable rm : Remote.

Definition is_cli_installed : M trace bool :=
  (result <- execute rm (lit "which marzban-node-manager") 10 ;;
   ret (exit_code result =? 0)%Z)%monad.

Definition install_cli : M trace bool :=
  (result <- execute rm (lit "curl -sSL " ++ INSTALL_CLI_URL ++ lit " | bash") 120 ;;
   if negb (exit_code result =? 0)%Z then ret false
   else is_cli_installed)%monad.

(** [r"v?(\d+\.\d+\.\d+)"] *)
Definition version_re : list re :=
  [Cls (N.eqb 118) Opt;
   Group [Cls is_digit Plus; chr 46; Cls is_digit Plus; chr 46; Cls is_digit Plus]].

Definition get_cli_version : M trace (option pystr) :=
  (result <- execute rm (lit "marzban-node-manager --version") 10 ;;
   if (exit_code result =? 0)%Z then
     match search version_re (stdout result) with
     | Some mt => ret (Some (group1 mt))
     | None => ret (Some (strip (stdout result)))
     end
   else ret None)%monad.

(** [0o600] *)
Definition mode_0o600 : Z := 384.

Definition cert_path_of (name : pystr) : pystr :=
  lit "/tmp/ssl_cert_" ++ name ++ lit ".pem".

Definition install_command (name cert_path method : pystr)
    (service_port api_port : Z) (inbounds : option (list pystr))
    (auto_ports : bool) : pystr :=
  let cmd := lit "marzban-node-manager install -n " ++ name ++ lit " -c "
             ++ cert_path ++ lit " -m " ++ method ++ lit " -y" in
  let cmd := if negb auto_ports
             then cmd ++ lit " -s " ++ str_of_Z service_port
                      ++ lit " -x " ++ str_of_Z api_port
             else cmd in
  match inbounds with
  | Some (i :: l) => cmd ++ lit " -i '" ++ join (lit ",") (i :: l) ++ lit "'"
  | _ => cmd
  end.

Definition install_node (name certificate : pystr) (service_port api_port : Z)
    (method : pystr) (inbounds : option (list pystr)) (auto_ports : bool)
  : M trace InstallResult :=
  (installed <- is_cli_installed ;;
   cli_ok <- (if negb installed then install_cli else ret true) ;;
   if negb cli_ok then
     ret {| success := false; node_name := name;
            service_port := service_port; api_port := api_port;
            install_dir := None; data_dir := None; public_ip := None;
            error := Some (lit "Failed to install CLI") |}
   else
     let cert_path := cert_path_of name in
     upload_content rm certificate cert_path mode_0o600 ;;
     let cmd := install_command name cert_path method service_port api_port
                  inbounds auto_ports in
     result <- execute rm cmd 300 ;;
     execute rm (lit "rm -f " ++ cert_path) 10 ;;
     ret (_parse_install_output result name service_port api_port))%monad.

(** [uninstall_node(name)] *)
Definition uninstall_node (name : pystr) : M trace bool :=
  (result <- execute rm (lit "marzban-node-manager uninstall -n " ++ name ++ lit " -y") 120 ;;
   ret (exit_code result =? 0)%Z)%monad.

End WithDecimalTable.

End NodeManagerClient.


(** The ASCII part of the decimal-digit table. *)
Definition ascii_decimal (c : N) : option N :=
if in_range 48 57 c then Some (c - 48)%N else None.


(** ** MarzbanClient *)

Module MarzbanClient.

(** A [datetime] (naive UTC) as microseconds; a [timedelta] likewise.
    Arithmetic on them is exact: the range limits of the Python types
    (years 1 to 9999) are not modelled. *)
Definition datetime := Z.
Definition timedelta_minutes (n : Z) : Z := n * 60 * 1000000.
Definition timedelta_hours (n : Z) : Z := n * 3600 * 1000000.
Definition timedelta_seconds (n : Z) : Z := n * 1000000.

Record TokenInfo := {
  access_token : pystr;
  expires_at : option datetime
}.

(** [TokenInfo.is_expired], with [now] the value of
    [datetime.utcnow()]. *)
Definition is_expired (now : datetime) (self : TokenInfo) : bool :=
  match expires_at self with
  | None => false
  | Some e => (now >=? e - timedelta_minutes 5)%Z
  end.

(** An [httpx.Response], by what the client asks of it:
    [status_code], [text], whether [content] is non-empty, what
    [json()] gives ([None]: it raises) and what [raise_for_status()]
    does ([Some m]: it raises [HTTPStatusError] with text [m]). *)
Record Response := {
  status_code : Z;
  text : pystr;
  has_content : bool;
  json : option pystr;
  status_error : option pystr
}.

(** The outcome of one [client.request] or [client.post]. *)
Inductive HttpReply :=
| HTimeout (msg : pystr)          (* httpx.TimeoutException *)
| HNetworkError (msg : pystr)     (* httpx.NetworkError *)
| HOtherHTTPError (msg : pystr)   (* any other httpx.HTTPError *)
| HResponse (r : Response).

(** The panel: its reply to the n-th API request and to the n-th
    token request of a client. *)
Record Panel := {
  api : nat -> HttpReply;
  token_api : nat -> HttpReply
}.

Inductive HEvent :=
| HRequest (method endpoint : pystr) (bearer : option pystr)
| HTokenPost
| HSleep (seconds : Z).

Record World := {
  now : datetime;
  _token : option TokenInfo;
  requests : nat;
  token_posts : nat;
  log : list HEvent
}.

Record t := {
  base_url : pystr;
  username : option pystr;
  password : option pystr;
  _max_retries : Z
}.

Section Client.
Variable panel : Panel.
Variable self : t.

Definition authenticate : M World TokenInfo :=
  if negb (given (username self)) || negb (given (password self)) then
    raise (Exc MarzbanAuthError (lit "Username and password required for authentication"))
  else
    fun w =>
      let w1 := {| now := now w; _token := _token w; requests := requests w;
                   token_posts := S (token_posts w);
                   log := log w ++ [HTokenPost] |} in
      let conn m := Exc MarzbanConnectionError (lit "Connection error during auth: " ++ m) in
      match token_api panel (token_posts w) with
      | HTimeout m | HNetworkError m | HOtherHTTPError m => (Raise (conn m), w1)
      | HResponse r =>
          if (status_code r =? 401)%Z then
            (Raise (Exc MarzbanAuthError (lit "Invalid credentials")), w1)
          else
            match status_error r with
            | Some m => (Raise (conn m), w1)
            | None =>
                match json r with
                | None => (Raise (Exc LibraryError (lit "access_token")), w1)
                | Some tok =>
                    let ti := {| access_token := tok;
                                 expires_at := Some (now w + timedelta_hours 24)%Z |} in
                    (Ret ti,
                     {| now := now w1; _token := Some ti; requests := requests w1;
                        token_posts := token_posts w1; log := log w1 |})
                end
            end
      end.

Definition _ensure_authenticated : M World unit :=
  (w <- get ;;
   match _token w with
   | None => authenticate ;; ret tt
   | Some tk => if is_expired (now w) tk then authenticate ;; ret tt else ret tt
   end)%monad.

(** [asyncio.sleep(delay)] *)
Definition slept (delay : Z) (w : World) : World :=
  {| now := (now w + timedelta_seconds delay)%Z; _token := _token w;
     requests := requests w; token_posts := token_posts w;
     log := log w ++ [HSleep delay] |}.

Definition sleep (delay : Z) : M World unit := modify (slept delay).

(** [client.request(method, url, ..., headers=self._get_headers())] *)
Definition sent (method endpoint : pystr) (w : World) : World :=
  {| now := now w; _token := _token w; requests := S (requests w);
     token_posts := token_posts w;
     log := log w ++ [HRequest method endpoint
                        (option_map access_token (_token w))] |}.

Definition send (method endpoint : pystr) : M World HttpReply :=
  fun w => (Ret (api panel (requests w)), sent method endpoint w).

(** The end of one turn of the loop. *)
Definition backoff (attempt : Z) : M World unit :=
  if (attempt <? _max_retries self - 1)%Z then sleep (2 ^ attempt)%Z else ret tt.

(** [range(n)] *)
Definition range (n : Z) : list Z := List.map Z.of_nat (seq 0 (Z.to_nat n)).

(** The [for attempt in range(self._max_retries)] loop of [_request]
    and the final [raise]; [on_401] is what a 401 response leads to. *)
Fixpoint attempts (on_401 : M World (option pystr)) (method endpoint : pystr)
    (todo : list Z) (last_error : option Exn) : M World (option pystr) :=
  match todo with
  | [] =>
      raise (match last_error with
             | Some e => e
             | None => Exc MarzbanConnectionError (lit "Max retries exceeded")
             end)
  | attempt :: rest =>
      (reply <- send method endpoint ;;
       match reply with
       | HTimeout m =>
           backoff attempt ;;
           attempts on_401 method endpoint rest
             (Some (Exc MarzbanConnectionError (lit "Request timeout: " ++ m)))
       | HNetworkError m =>
           backoff attempt ;;
           attempts on_401 method endpoint rest
             (Some (Exc MarzbanConnectionError (lit "Network error: " ++ m)))
       | HOtherHTTPError m => raise (Exc LibraryError m)
       | HResponse r =>
           if (status_code r =? 401)%Z then on_401
           else if (status_code r =? 404)%Z then
             raise (Exc MarzbanNotFoundError (lit "Resource not found: " ++ endpoint))
           else if (status_code r >=? 500)%Z then
             raise (Exc MarzbanServerError
                      (lit "Server error " ++ str_of_Z (status_code r)
                       ++ lit ": " ++ text r))
           else
             match status_error r with
             | Some m =>
                 backoff attempt ;;
                 attempts on_401 method endpoint rest
                   (Some (Exc MarzbanClientError (lit "HTTP error: " ++ m)))
             | None =>
                 if has_content r then
                   match json r with
                   | Some v => ret (Some v)
                   | None => raise (Exc LibraryError (lit "JSONDecodeError"))
                   end
                 else ret None
             end
       end)%monad
  end.

(** [_request(method, endpoint, ..., retry_auth)].  With [retry_auth]
    a 401 leads to [authenticate()] and to
    [_request(..., retry_auth=False)], whose result or exception is
    the result of the call. *)
Definition _request (method endpoint : pystr) (retry_auth : bool)
  : M World (option pystr) :=
  let no_retry :=
    (_ensure_authenticated ;;
     attempts (raise (Exc MarzbanAuthError (lit "Authentication failed")))
       method endpoint (range (_max_retries self)) None)%monad in
  if retry_auth then
    (_ensure_authenticated ;;
     attempts (authenticate ;; no_retry)
       method endpoint (range (_max_retries self)) None)%monad
  else no_retry.

End Client.

End MarzbanClient.

(** ** Job and JobManager *)

Module JobManager.

Inductive JobStatus := PENDING | RUNNING | COMPLETED | FAILED | CANCELLED.

(** The values kept in the [Dict[str, Any]] fields. *)
Inductive pyval :=
| VInt (n : Z)
| VStr (s : pystr)
| VBool (b : bool)
| VNone.

Definition pydict := list (pystr * pyval).

Definition datetime := Z.

(** A line of [logs] is [f"[{timestamp}] {message}"]; it is kept as
    its two parts. *)
Definition log_entry := (datetime * pystr)%type.

Record Job := {
  job_id : pystr;
  job_type : pystr;
  status : JobStatus;
  progress : Z;
  current_step : pystr;
  logs : list log_entry;
  metadata : pydict;
  created_at : datetime;
  started_at : option datetime;
  completed_at : option datetime;
  error : option pystr;
  result : option pydict
}.

(** [Job(job_id=..., job_type=..., metadata=...)] *)
Definition new_job (id type : pystr) (meta : pydict) (now : datetime) : Job :=
  {| job_id := id; job_type := type; status := PENDING; progress := 0;
     current_step := []; logs := []; metadata := meta; created_at := now;
     started_at := None; completed_at := None; error := None; result := None |}.

Definition set_status (v : JobStatus) (j : Job) : Job :=
  {| job_id := job_id j; job_type := job_type j; status := v;
     progress := progress j; current_step := current_step j; logs := logs j;
     metadata := metadata j; created_at := created_at j;
     started_at := started_at j; completed_at := completed_at j;
     error := error j; result := result j |}.

Definition set_progress (v : Z) (j : Job) : Job :=
  {| job_id := job_id j; job_type := job_type j; status := status j;
     progress := v; current_step := current_step j; logs := logs j;
     metadata := metadata j; created_at := created_at j;
     started_at := started_at j; completed_at := completed_at j;
     error := error j; result := result j |}.

Definition set_current_step (v : pystr) (j : Job) : Job :=
  {| job_id := job_id j; job_type := job_type j; status := status j;
     progress := progress j; current_step := v; logs := logs j;
     metadata := metadata j; created_at := created_at j;
     started_at := started_at j; completed_at := completed_at j;
     error := error j; result := result j |}.

Definition set_logs (v : list log_entry) (j : Job) : Job :=
  {| job_id := job_id j; job_type := job_type j; status := status j;
     progress := progress j; current_step := current_step j; logs := v;
     metadata := metadata j; created_at := created_at j;
     started_at := started_at j; completed_at := completed_at j;
     error := error j; result := result j |}.

Definition set_started_at (v : option datetime) (j : Job) : Job :=
  {| job_id := job_id j; job_type := job_type j; status := status j;
     progress := progress j; current_step := current_step j; logs := logs j;
     metadata := metadata j; created_at := created_at j;
     started_at := v; completed_at := completed_at j;
     error := error j; result := result j |}.

Definition set_completed_at (v : option datetime) (j : Job) : Job :=
  {| job_id := job_id j; job_type := job_type j; status := status j;
     progress := progress j; current_step := current_step j; logs := logs j;
     metadata := metadata j; created_at := created_at j;
     started_at := started_at j; completed_at := v;
     error := error j; result := result j |}.

Definition set_error (v : option pystr) (j : Job) : Job :=
  {| job_id := job_id j; job_type := job_type j; status := status j;
     progress := progress j; current_step := current_step j; logs := logs j;
     metadata := metadata j; created_at := created_at j;
     started_at := started_at j; completed_at := completed_at j;
     error := v; result := result j |}.

Definition set_result (v : option pydict) (j : Job) : Job :=
  {| job_id := job_id j; job_type := job_type j; status := status j;
     progress := progress j; current_step := current_step j; logs := logs j;
     metadata := metadata j; created_at := created_at j;
     started_at := started_at j; completed_at := completed_at j;
     error := error j; result := v |}.

(** In the methods below [now] is the value [datetime.utcnow()] has in
    the method and [log_now] the one it has in [add_log]. *)

Definition add_log (log_now : datetime) (message : pystr) (self : Job) : Job :=
  set_logs (logs self ++ [(log_now, message)]) self.

Definition update_progress (progress : Z) (step : option pystr) (self : Job) : Job :=
  let self := set_progress (Z.min (Z.max progress 0) 100) self in
  match step with
  | Some st => if truthy st then set_current_step st self else self
  | None => self
  end.

Definition start (now log_now : datetime) (self : Job) : Job :=
  let self := set_status RUNNING self in
  let self := set_started_at (Some now) self in
  add_log log_now (lit "Job started") self.

Definition complete (now log_now : datetime) (result : option pydict) (self : Job) : Job :=
  let self := set_status COMPLETED self in
  let self := set_completed_at (Some now) self in
  let self := set_progress 100 self in
  let self := set_result result self in
  add_log log_now (lit "Job completed successfully") self.

Definition fail (now log_now : datetime) (error : pystr) (self : Job) : Job :=
  let self := set_status FAILED self in
  let self := set_completed_at (Some now) self in
  let self := set_error (Some error) self in
  add_log log_now (lit "Job failed: " ++ error) self.

Definition cancel (now log_now : datetime) (self : Job) : Job :=
  let self := set_status CANCELLED self in
  let self := set_completed_at (Some now) self in
  add_log log_now (lit "Job cancelled") self.

Definition status_eqb (a b : JobStatus) : bool :=
  match a, b with
  | PENDING, PENDING | RUNNING, RUNNING | COMPLETED, COMPLETED
  | FAILED, FAILED | CANCELLED, CANCELLED => true
  | _, _ => false
  end.

(** *** The task of a job

    What [task_fn(job)] does with the job it is given: a sequence of
    calls on it, and the way it ends.  A task can be suspended between
    any two of its calls. *)

Inductive TaskAction :=
| CallUpdateProgress (progress : Z) (step : option pystr)
| CallAddLog (log_now : datetime) (message : pystr)
| CallComplete (now log_now : datetime) (result : option pydict)
| CallFail (now log_now : datetime) (error : pystr).

Inductive TaskEnd :=
| Returns
| Raises (e : Exn)      (* an [Exception] *)
| Propagates.           (* [asyncio.CancelledError], not an [Exception] *)

Record Script := {
  todo : list TaskAction;
  ending : TaskEnd;
  on_cancel : TaskEnd     (* how it ends when cancelled while suspended *)
}.

Definition do_action (a : TaskAction) (j : Job) : Job :=
  match a with
  | CallUpdateProgress p st => update_progress p st j
  | CallAddLog tl m => add_log tl m j
  | CallComplete t tl r => complete t tl r j
  | CallFail t tl e => fail t tl e j
  end.

(** The part of [_wrapped_task] after [await task_fn(job)]:
    [if job.status == JobStatus.RUNNING: job.complete()] when the task
    returns, [job.fail(str(e))] when it raises an [Exception]. *)
Definition after_task (now log_now : datetime) (e : TaskEnd) (job : Job) : Job :=
  match e with
  | Returns => if status_eqb (status job) RUNNING
               then complete now log_now None job else job
  | Raises exn => fail now log_now (exn_msg exn) job
  | Propagates => job
  end.

(** [_wrapped_task] of [run_job], run from its first line to its last
    without being cancelled. *)
Definition _wrapped_task (now log_now now' log_now' : datetime)
    (task_fn : Script) (job : Job) : Job :=
  let job := start now log_now job in
  let job := fold_left (fun j a => do_action a j) (todo task_fn) job in
  after_task now' log_now' (ending task_fn) job.

(** *** One job under the manager *)

Inductive TaskState :=
| NoTask                      (* no entry in [_tasks] *)
| NotStarted (s : Script)     (* created by [run_job], not yet run *)
| Suspended (s : Script)      (* inside [task_fn], [s] is what is left *)
| Done.

Record Managed := {
  job : Job;
  task : TaskState
}.

(** [create_job] *)
Definition create_job (id type : pystr) (meta : pydict) (now : datetime) : Managed :=
  {| job := new_job id type meta now; task := NoTask |}.

(** [run_job(job, task_fn)]: the task is created and registered. *)
Definition run_job (task_fn : Script) (m : Managed) : Managed :=
  {| job := job m; task := NotStarted task_fn |}.

(** The event loop runs the task of the job up to its next
    suspension point. *)
Definition resume (now log_now : datetime) (m : Managed) : Managed :=
  match task m with
  | NotStarted s => {| job := start now log_now (job m); task := Suspended s |}
  | Suspended s =>
      match todo s with
      | a :: rest =>
          {| job := do_action a (job m);
             task := Suspended {| todo := rest; ending := ending s;
                                  on_cancel := on_cancel s |} |}
      | [] => {| job := after_task now log_now (ending s) (job m); task := Done |}
      end
  | NoTask | Done => m
  end.

(** [cancel_job(job_id)] for a job of the registry. *)
Definition cancel_job (now log_now : datetime) (m : Managed) : bool * Managed :=
  match status (job m) with
  | PENDING | RUNNING =>
      let m1 :=
        match task m with
        | NotStarted _ => {| job := job m; task := Done |}
        | Suspended s =>
            {| job := after_task now log_now (on_cancel s) (job m); task := Done |}
        | NoTask | Done => m
        end in
      (true, {| job := cancel now log_now (job m1); task := task m1 |})
  | _ => (false, m)
  end.

Inductive MgrEvent :=
| Resume (now log_now : datetime)
| CancelJob (now log_now : datetime).

Definition step (ev : MgrEvent) (m : Managed) : Managed :=
  match ev with
  | Resume t tl => resume t tl m
  | CancelJob t tl => snd (cancel_job t tl m)
  end.

(** The successive values of the job while the events happen. *)
Fixpoint history (evs : list MgrEvent) (m : Managed) : list Job :=
  match evs with
  | [] => [job m]
  | ev :: evs' => job m :: history evs' (step ev m)
  end.

End JobManager.

(** ** SSHInstallService *)

Module SSHInstallService.
Import JobManager.
Local Open Scope Z_scope.

(** [ssh_install_service.InstallJob] *)
Record InstallJob := {
  ij_job_id : pystr;
  ij_panel_id : Z;
  ij_node_name : pystr;
  ij_status : pystr;
  ij_progress : Z;
  ij_current_step : pystr;
  ij_logs : list pystr;
  ij_started_at : option datetime;
  ij_completed_at : option datetime;
  ij_error : option pystr;
  ij_result : option pydict
}.

(** [schemas.ssh_install.SSHInstallRequest].  [ssh_host] is required
    by the validator when no profile is referenced and is not read
    otherwise; it is kept as a string. *)
Record SSHInstallRequest := {
  ssh_profile_id : option Z;
  ssh_host : pystr;
  ssh_port : Z;
  ssh_username : pystr;
  ssh_password : option pystr;
  ssh_private_key : option pystr;
  node_name : pystr;
  service_port : Z;
  api_port : Z;
  install_docker : bool;
  auto_start : bool;
  auto_ports : bool;
  inbounds : option (list pystr)
}.

(** The credentials dictionary. *)
Record Creds := {
  c_host : pystr;
  c_port : Z;
  c_username : pystr;
  c_password : option pystr;
  c_private_key : option pystr
}.

(** The collaborators of the service: repositories, panel, paramiko
    and the remote host, by what they answer. *)
Record Env := {
  get_decrypted_credentials : Z -> option Creds;
  find_by_name : pystr -> bool;
  uuid4 : pystr;
  create_profile : ProfileData -> outcome Z;
  _get_certificate : Z -> outcome (option pystr);
  paramiko : SSHClient.Paramiko;
  remote : SSHClient.Remote;
  close_outcome : option Exn;
  ssh_timeout : Z;
  insert_node : NodeData -> outcome Z;
  panel_access_token : outcome (option pystr);
  create_node_outcome : option Exn;
  update_status_outcome : option Exn;
  log_audit_outcome : option Exn
}.

Record World := {
  the_job : InstallJob;
  events : trace
}.

Definition on_job (f : InstallJob -> InstallJob) : M World unit :=
  modify (fun w => {| the_job := f (the_job w); events := events w |}).

Definition on_events {A} (c : M trace A) : M World A :=
  fun w => match c (events w) with
           | (r, tr) => (r, {| the_job := the_job w; events := tr |})
           end.

Definition set_ij_status (v : pystr) (j : InstallJob) : InstallJob :=
  {| ij_job_id := ij_job_id j; ij_panel_id := ij_panel_id j;
     ij_node_name := ij_node_name j; ij_status := v;
     ij_progress := ij_progress j; ij_current_step := ij_current_step j;
     ij_logs := ij_logs j; ij_started_at := ij_started_at j;
     ij_completed_at := ij_completed_at j; ij_error := ij_error j;
     ij_result := ij_result j |}.

Definition set_ij_progress (v : Z) (j : InstallJob) : InstallJob :=
  {| ij_job_id := ij_job_id j; ij_panel_id := ij_panel_id j;
     ij_node_name := ij_node_name j; ij_status := ij_status j;
     ij_progress := v; ij_current_step := ij_current_step j;
     ij_logs := ij_logs j; ij_started_at := ij_started_at j;
     ij_completed_at := ij_completed_at j; ij_error := ij_error j;
     ij_result := ij_result j |}.

Definition set_ij_current_step (v : pystr) (j : InstallJob) : InstallJob :=
  {| ij_job_id := ij_job_id j; ij_panel_id := ij_panel_id j;
     ij_node_name := ij_node_name j; ij_status := ij_status j;
     ij_progress := ij_progress j; ij_current_step := v;
     ij_logs := ij_logs j; ij_started_at := ij_started_at j;
     ij_completed_at := ij_completed_at j; ij_error := ij_error j;
     ij_result := ij_result j |}.

Definition set_ij_times (st co : option datetime) (j : InstallJob) : InstallJob :=
  {| ij_job_id := ij_job_id j; ij_panel_id := ij_panel_id j;
     ij_node_name := ij_node_name j; ij_status := ij_status j;
     ij_progress := ij_progress j; ij_current_step := ij_current_step j;
     ij_logs := ij_logs j; ij_started_at := st;
     ij_completed_at := co; ij_error := ij_error j;
     ij_result := ij_result j |}.

Definition set_ij_error (v : option pystr) (j : InstallJob) : InstallJob :=
  {| ij_job_id := ij_job_id j; ij_panel_id := ij_panel_id j;
     ij_node_name := ij_node_name j; ij_status := ij_status j;
     ij_progress := ij_progress j; ij_current_step := ij_current_step j;
     ij_logs := ij_logs j; ij_started_at := ij_started_at j;
     ij_completed_at := ij_completed_at j; ij_error := v;
     ij_result := ij_result j |}.

Definition set_ij_result (v : option pydict) (j : InstallJob) : InstallJob :=
  {| ij_job_id := ij_job_id j; ij_panel_id := ij_panel_id j;
     ij_node_name := ij_node_name j; ij_status := ij_status j;
     ij_progress := ij_progress j; ij_current_step := ij_current_step j;
     ij_logs := ij_logs j; ij_started_at := ij_started_at j;
     ij_completed_at := ij_completed_at j; ij_error := ij_error j;
     ij_result := v |}.

(** [InstallJob.add_log] *)
Definition ij_add_log (message : pystr) (j : InstallJob) : InstallJob :=
  {| ij_job_id := ij_job_id j; ij_panel_id := ij_panel_id j;
     ij_node_name := ij_node_name j; ij_status := ij_status j;
     ij_progress := ij_progress j; ij_current_step := ij_current_step j;
     ij_logs := ij_logs j ++ [message]; ij_started_at := ij_started_at j;
     ij_completed_at := ij_completed_at j; ij_error := ij_error j;
     ij_result := ij_result j |}.

Definition add_log (message : pystr) : M World unit := on_job (ij_add_log message).
Definition current_step_is (v : pystr) : M World unit := on_job (set_ij_current_step v).
Definition progress_is (v : Z) : M World unit := on_job (set_ij_progress v).

(** Truth value of an optional integer. *)
Definition nonzero (z : option Z) : bool :=
  match z with Some v => negb (v =? 0)%Z | None => false end.

(** [f"{x}"] for an optional string. *)
Definition str_of_opt (s : option pystr) : pystr :=
  match s with Some x => x | None => lit "None" end.

(** [a or b] for an optional string and a string. *)
Definition or_else (a : option pystr) (b : pystr) : pystr :=
  if given a then str_of_opt a else b.

Definition of_outcome {S A} (o : outcome A) : M S A :=
  match o with Ret a => ret a | Raise e => raise e end.

Definition of_failure {S} (o : option Exn) : M S unit :=
  match o with None => ret tt | Some e => raise e end.

(** [StatusEnum.CONNECTED], [StatusEnum.CONNECTING] *)
Definition CONNECTED : Z := 10.
Definition CONNECTING : Z := 20.

Section Service.
Variable todecimal : N -> option N.
Variable env : Env.

Definition _get_ssh_credentials (request : SSHInstallRequest) : M World Creds :=
  if nonzero (ssh_profile_id request) then
    match get_decrypted_credentials env
            (match ssh_profile_id request with Some i => i | None => 0 end) with
    | Some creds => ret creds
    | None => raise (Exc ValueError (lit "SSH profile not found"))
    end
  else
    ret {| c_host := ssh_host request; c_port := ssh_port request;
           c_username := ssh_username request;
           c_password := ssh_password request;
           c_private_key := ssh_private_key request |}.

Definition _get_or_create_ssh_profile (request : SSHInstallRequest) : M World Z :=
  if nonzero (ssh_profile_id request) then
    let i := match ssh_profile_id request with Some i => i | None => 0 end in
    (add_log (lit "Using existing SSH profile (ID: " ++ str_of_Z i ++ lit ")") ;;
     ret i)%monad
  else
    let profile_name := lit "SSH-" ++ node_name request in
    (on_events (emit (EvFindProfileByName profile_name)) ;;
     let profile_name :=
       if find_by_name env profile_name
       then lit "SSH-" ++ node_name request ++ lit "-" ++ firstn 8 (uuid4 env)
       else profile_name in
     add_log (lit "Creating SSH profile: " ++ profile_name) ;;
     let profile :=
       {| profile_name := profile_name;
          profile_host := ssh_host request;
          profile_port := ssh_port request;
          profile_username := ssh_username request;
          profile_password := ssh_password request;
          profile_private_key := ssh_private_key request;
          use_key_auth := given (ssh_private_key request);
          default_service_port := service_port request;
          default_api_port := api_port request;
          profile_install_docker := install_docker request;
          auto_start_node := auto_start request |} in
     on_events (emit (EvCreateProfile profile)) ;;
     ssh_profile_id <- of_outcome (create_profile env profile) ;;
     add_log (lit "SSH profile created (ID: " ++ str_of_Z ssh_profile_id ++ lit ")") ;;
     ret ssh_profile_id)%monad.

Definition _register_node (panel_id : Z) (node_name address : pystr)
    (service_port api_port : Z) (ssh_profile_id : option Z)
    (client_ip : option pystr) : M World Z :=
  let node_data :=
    {| MarzbanPanelID := panel_id; NodeName := node_name; Address := address;
       ServicePort := service_port; APIPort := api_port;
       NodeStatusID := CONNECTING;
       SSHProfileID := if nonzero ssh_profile_id then ssh_profile_id else None |} in
  (on_events (emit (EvInsertNode node_data)) ;;
   node_id <- of_outcome (insert_node env node_data) ;;
   try_except
     (token <- of_outcome (panel_access_token env) ;;
      if given token then
        on_events (emit (EvPanelCreateNode node_name address service_port api_port)) ;;
        of_failure (create_node_outcome env) ;;
        on_events (emit (EvUpdateNodeStatus node_id CONNECTED)) ;;
        of_failure (update_status_outcome env)
      else ret tt)
     (fun _ => ret tt) ;;
   on_events (emit (EvAudit node_id (lit "SSH_INSTALL")
                      (str_of_Z service_port ++ lit "/" ++ str_of_Z api_port))) ;;
   of_failure (log_audit_outcome env) ;;
   ret node_id)%monad.

(** The statements of [_run_installation] that follow the check of
    [install_result.success]: step 6 and the completion of the job. *)
Definition after_install (request : SSHInstallRequest) (client_ip : option pystr)
    (ssh_creds : Creds) (ssh_profile_id : Z)
    (install_result : NodeManagerClient.InstallResult)
    (completed_now : datetime) : M World unit :=
  (add_log (lit "Node installed successfully") ;;
   progress_is 80 ;;
   current_step_is (lit "Registering node in Marzban") ;;
   add_log (lit "Registering node in Marzban panel...") ;;
   w <- get ;;
   let address := or_else (NodeManagerClient.public_ip install_result)
                    (c_host ssh_creds) in
   node_id <- _register_node (ij_panel_id (the_job w)) (node_name request) address
                (NodeManagerClient.service_port install_result)
                (NodeManagerClient.api_port install_result)
                (Some ssh_profile_id) client_ip ;;
   add_log (lit "Node registered with ID: " ++ str_of_Z node_id) ;;
   progress_is 100 ;;
   on_job (set_ij_status (lit "completed")) ;;
   on_job (fun j => set_ij_times (ij_started_at j) (Some completed_now) j) ;;
   on_job (set_ij_result
             (Some [ (lit "node_id", VInt node_id);
                     (lit "node_name", VStr (node_name request));
                     (lit "address", VStr address);
                     (lit "service_port",
                       VInt (NodeManagerClient.service_port install_result));
                     (lit "api_port",
                       VInt (NodeManagerClient.api_port install_result));
                     (lit "ssh_profile_id", VInt ssh_profile_id) ])) ;;
   add_log (lit "Installation complete!"))%monad.

(** The statements of [_run_installation] inside [async with
    SSHClient(...) as ssh]. *)
Definition with_ssh (request : SSHInstallRequest) (client_ip : option pystr)
    (ssh_creds : Creds) (ssh_profile_id : Z) (certificate : pystr)
    (completed_now : datetime) : M World unit :=
  (add_log (lit "Connected to " ++ c_host ssh_creds) ;;
   current_step_is (lit "Checking node-manager CLI") ;;
   progress_is 30 ;;
   installed <- on_events (NodeManagerClient.is_cli_installed (remote env)) ;;
   (if negb installed then
      add_log (lit "Installing node-manager CLI...") ;;
      current_step_is (lit "Installing CLI") ;;
      progress_is 40 ;;
      ok <- on_events (NodeManagerClient.install_cli (remote env)) ;;
      (if negb ok then raise (Exc ValueError (lit "Failed to install node-manager CLI"))
       else ret tt) ;;
      add_log (lit "CLI installed successfully")
    else
      version <- on_events (NodeManagerClient.get_cli_version todecimal (remote env)) ;;
      add_log (lit "CLI already installed (v" ++ str_of_opt version ++ lit ")")) ;;
   current_step_is (lit "Installing node") ;;
   progress_is 60 ;;
   add_log (lit "Installing node '" ++ node_name request ++ lit "'...") ;;
   install_result <-
     on_events (NodeManagerClient.install_node todecimal (remote env)
                  (node_name request) certificate
                  (service_port request) (api_port request)
                  (lit "docker") (inbounds request) false) ;;
   (if negb (NodeManagerClient.success install_result) then
      raise (Exc ValueError (lit "Installation failed: "
                             ++ str_of_opt (NodeManagerClient.error install_result)))
    else ret tt) ;;
   after_install request client_ip ssh_creds ssh_profile_id install_result
     completed_now)%monad.

(** [_run_installation(job, request, client_ip)]; [started_now] and
    [completed_now] are the values of [datetime.utcnow()] at its
    start and at its end. *)
Definition _run_installation (request : SSHInstallRequest)
    (client_ip : option pystr) (started_now completed_now : datetime)
  : M World unit :=
  (on_job (set_ij_status (lit "running")) ;;
   on_job (fun j => set_ij_times (Some started_now) (ij_completed_at j) j) ;;
   try_except
     (current_step_is (lit "Preparing SSH credentials") ;;
      progress_is 5 ;;
      add_log (lit "Preparing SSH credentials...") ;;
      ssh_creds <- _get_ssh_credentials request ;;
      ssh_profile_id <- _get_or_create_ssh_profile request ;;
      current_step_is (lit "Fetching certificate") ;;
      progress_is 10 ;;
      add_log (lit "Fetching certificate from panel...") ;;
      w <- get ;;
      certificate <-
        (on_events (emit (EvGetCertificate (ij_panel_id (the_job w)))) ;;
         of_outcome (_get_certificate env (ij_panel_id (the_job w)))) ;;
      (if negb (given certificate) then
         raise (Exc ValueError (lit "Failed to fetch certificate from panel"))
       else ret tt) ;;
      add_log (lit "Certificate fetched successfully") ;;
      current_step_is (lit "Connecting to server") ;;
      progress_is 20 ;;
      add_log (lit "Connecting to " ++ c_host ssh_creds ++ lit ":"
               ++ str_of_Z (c_port ssh_creds) ++ lit "...") ;;
      on_events (SSHClient.connect (paramiko env)
                   {| SSHClient.host := c_host ssh_creds;
                      SSHClient.port := c_port ssh_creds;
                      SSHClient.username := c_username ssh_creds;
                      SSHClient.password := c_password ssh_creds;
                      SSHClient.private_key := c_private_key ssh_creds;
                      SSHClient.timeout := ssh_timeout env |}) ;;
      try_finally
        (with_ssh request client_ip ssh_creds ssh_profile_id
           (str_of_opt certificate) completed_now)
        (on_events (emit EvClose ;; of_failure (close_outcome env))))
     (fun e =>
        on_job (set_ij_status (lit "failed")) ;;
        on_job (fun j => set_ij_times (ij_started_at j) (Some completed_now) j) ;;
        on_job (set_ij_error (Some (exn_msg e))) ;;
        add_log (lit "Error: " ++ exn_msg e)))%monad.

End Service.

End SSHInstallService.

(** ** NodeService.delete_node *)

Module NodeService.
Local Open Scope Z_scope.

(** [schemas.node.NodeDeleteResponse] *)
Record NodeDeleteResponse := {
  success : bool;
  local : bool;
  marzban : option bool;
  server : option bool;
  errors : list pystr
}.

(** The columns of the node row which [delete_node] reads. *)
Record NodeRow := {
  row_NodeName : pystr;
  row_MarzbanPanelID : Z;
  row_SSHProfileID : option Z
}.

(** The collaborators, by what they answer: the repository's
    [find_by_id_with_details] and [delete], the audit log, and the two
    helper coroutines [_delete_from_marzban] and
    [_uninstall_from_server] (their outcome when awaited). *)
Record Env := {
  find_by_id_with_details : Z -> option NodeRow;
  _delete_from_marzban : Z -> pystr -> outcome bool;
  _uninstall_from_server : Z -> pystr -> outcome bool;
  node_repo_delete : Z -> outcome bool;
  log_audit : option Exn
}.

Definition nonzero (z : option Z) : bool :=
  match z with Some v => negb (v =? 0) | None => false end.

(** The local variables [result] and [errors] of [delete_node]. *)
Record Locals := {
  result : NodeDeleteResponse;
  errs : list pystr
}.

Definition set_marzban (v : option bool) (l : Locals) : Locals :=
  {| result := {| success := success (result l); local := local (result l);
                  marzban := v; server := server (result l);
                  errors := errors (result l) |};
     errs := errs l |}.

Definition set_server (v : option bool) (l : Locals) : Locals :=
  {| result := {| success := success (result l); local := local (result l);
                  marzban := marzban (result l); server := v;
                  errors := errors (result l) |};
     errs := errs l |}.

Definition set_local (v : bool) (l : Locals) : Locals :=
  {| result := {| success := success (result l); local := v;
                  marzban := marzban (result l); server := server (result l);
                  errors := errors (result l) |};
     errs := errs l |}.

Definition append_error (msg : pystr) (l : Locals) : Locals :=
  {| result := result l; errs := errs l ++ [msg] |}.

Section Service.
Variable env : Env.

(** Step 1 of [delete_node]. *)
Definition delete_panel_layer (panel_id : Z) (node_name : pystr) (l : Locals)
  : M trace Locals :=
  let l := set_marzban (Some false) l in
  (emit (EvPanelDelete panel_id node_name) ;;
   match _delete_from_marzban env panel_id node_name with
   | Ret marzban_deleted =>
       let l := set_marzban (Some marzban_deleted) l in
       if marzban_deleted then ret l
       else ret (append_error (lit "Node '" ++ node_name
                               ++ lit "' not found in Marzban panel") l)
   | Raise e =>
       ret (append_error (lit "Failed to delete from Marzban: " ++ exn_msg e) l)
   end)%monad.

(** Step 2 of [delete_node]. *)
Definition delete_server_layer (ssh_profile_id : option Z) (node_name : pystr)
    (l : Locals) : M trace Locals :=
  let l := set_server (Some false) l in
  if negb (nonzero ssh_profile_id) then
    ret (append_error
           (lit "Cannot uninstall from server: No SSH profile associated with this node") l)
  else
    let profile := match ssh_profile_id with Some i => i | None => 0 end in
    (emit (EvServerUninstall profile node_name) ;;
     match _uninstall_from_server env profile node_name with
     | Ret server_deleted =>
         let l := set_server (Some server_deleted) l in
         if server_deleted then ret l
         else ret (append_error (lit "Failed to uninstall node '" ++ node_name
                                 ++ lit "' from server") l)
     | Raise e =>
         ret (append_error (lit "Failed to uninstall from server: " ++ exn_msg e) l)
     end)%monad.

(** Step 3 of [delete_node]. *)
Definition delete_local_layer (node_id : Z) (node_name : pystr) (l : Locals)
  : M trace Locals :=
  (emit (EvLocalDelete node_id) ;;
   match node_repo_delete env node_id with
   | Ret local_deleted =>
       let l := set_local local_deleted l in
       if local_deleted then
         emit (EvAudit node_id (lit "DELETE") node_name) ;;
         match log_audit env with
         | None => ret l
         | Some e =>
             ret (append_error (lit "Failed to delete from local database: "
                                ++ exn_msg e) l)
         end
       else ret l
   | Raise e =>
       ret (append_error (lit "Failed to delete from local database: "
                          ++ exn_msg e) l)
   end)%monad.

Definition delete_node (node_id : Z) (delete_from_marzban delete_from_server : bool)
  : M trace NodeDeleteResponse :=
  let l := {| result := {| success := false; local := false; marzban := None;
                           server := None; errors := [] |};
              errs := [] |} in
  match find_by_id_with_details env node_id with
  | None =>
      ret {| success := false; local := false; marzban := None; server := None;
             errors := [lit "Node not found"] |}
  | Some existing =>
      let node_name := row_NodeName existing in
      let panel_id := row_MarzbanPanelID existing in
      let ssh_profile_id := row_SSHProfileID existing in
      (l <- (if delete_from_marzban
             then delete_panel_layer panel_id node_name l else ret l) ;;
       l <- (if delete_from_server
             then delete_server_layer ssh_profile_id node_name l else ret l) ;;
       l <- delete_local_layer node_id node_name l ;;
       ret {| success := local (result l); local := local (result l);
              marzban := marzban (result l); server := server (result l);
              errors := errs l |})%monad
  end.

End Service.

End NodeService.

(** ** Vocabulary: the connection of the SSH client *)

Module ConnectSpec.
Import SSHClient.

Definition is_connect (e : Event) : bool :=
  match e with EvConnect _ => true | _ => false end.

End ConnectSpec.

(** ** Vocabulary: the outcome of a cascading deletion *)

Module DeletionSpec.
Import NodeService.
Local Open Scope Z_scope.

(** Whether a requested layer failed: it answered false or raised. *)
Definition layer_failed (o : outcome bool) : bool :=
  match o with Ret true => false | _ => true end.

Definition flag_of (o : outcome bool) : bool :=
  match o with Ret b => b | Raise _ => false end.

Definition count (b : bool) : nat := if b then 1%nat else 0%nat.

Definition is_local_delete (e : Event) : bool :=
  match e with EvLocalDelete _ => true | _ => false end.

(** The error strings of each step, from what the layer answered. *)
Definition panel_errors (name : pystr) (o : outcome bool) : list pystr :=
  match o with
  | Ret true => []
  | Ret false => [lit "Node '" ++ name ++ lit "' not found in Marzban panel"]
  | Raise e => [lit "Failed to delete from Marzban: " ++ exn_msg e]
  end.

Definition server_errors (name : pystr) (profile : option Z) (o : outcome bool)
  : list pystr :=
  if nonzero profile then
    match o with
    | Ret true => []
    | Ret false => [lit "Failed to uninstall node '" ++ name ++ lit "' from server"]
    | Raise e => [lit "Failed to uninstall from server: " ++ exn_msg e]
    end
  else [lit "Cannot uninstall from server: No SSH profile associated with this node"].

Definition local_errors (o : outcome bool) (audit : option Exn) : list pystr :=
  match o, audit with
  | Ret true, Some e | Raise e, _ =>
      [lit "Failed to delete from local database: " ++ exn_msg e]
  | _, _ => []
  end.

End DeletionSpec.

(** ** Vocabulary: remote hosts *)

Module InstallHosts.
Import SSHClient NodeManagerClient.
Local Open Scope Z_scope.

Definition ok_result (out : pystr) : CommandResult :=
  {| stdout := out; stderr := []; exit_code := 0 |}.

(** A host on which the CLI is present and the installation command
    (the one run with the 300 s timeout) does not come back: paramiko
    raises [socket.timeout]. *)
Definition host_install_times_out : Remote :=
  {| execute_outcome := fun _ _ timeout =>
       if timeout =? 300 then Raise (Exc LibraryError (lit "timed out"))
       else Ret (ok_result []);
     upload_outcome := fun _ _ _ _ => None |}.

End InstallHosts.

(** ** Vocabulary: the provisioning run *)

Module InstallRunSpec.
Import SSHInstallService.
Local Open Scope Z_scope.

(** An event of registration or persistence carries the ports [sp]
    and [ap]. *)
Definition carries_ports (sp ap : Z) (e : Event) : Prop :=
  match e with
  | EvInsertNode row => ServicePort row = sp /\ APIPort row = ap
  | EvPanelCreateNode _ _ port api_port => port = sp /\ api_port = ap
  | EvAudit _ _ detail => detail = str_of_Z sp ++ lit "/" ++ str_of_Z ap
  | _ => True
  end.

(** The ports recorded in the result of a job. *)
Definition result_ports (r : option JobManager.pydict)
  : option (JobManager.pyval * JobManager.pyval) :=
  match r with
  | Some [ _; _; _; (_, sp); (_, ap); _ ] => Some (sp, ap)
  | _ => None
  end.

Definition with_auto_ports (b : bool) (r : SSHInstallRequest) : SSHInstallRequest :=
  {| ssh_profile_id := ssh_profile_id r; ssh_host := ssh_host r;
     ssh_port := ssh_port r; ssh_username := ssh_username r;
     ssh_password := ssh_password r; ssh_private_key := ssh_private_key r;
     node_name := node_name r; service_port := service_port r;
     api_port := api_port r; install_docker := install_docker r;
     auto_start := auto_start r; auto_ports := b; inbounds := inbounds r |}.

(** Scenario C: the request asks for ports 62050/62051 with
    [auto_ports] set; the CLI reports 62060/62061. *)
Definition scenario_request : SSHInstallRequest :=
  {| ssh_profile_id := None; ssh_host := lit "10.0.0.5"; ssh_port := 22;
     ssh_username := lit "root"; ssh_password := Some (lit "pw");
     ssh_private_key := None; node_name := lit "n1";
     service_port := 62050; api_port := 62051;
     install_docker := true; auto_start := true; auto_ports := true;
     inbounds := None |}.

Definition scenario_env : Env :=
  {| get_decrypted_credentials := fun _ => None;
     find_by_name := fun _ => false;
     uuid4 := lit "123e4567-e89b-12d3-a456-426614174000";
     create_profile := fun _ => Ret 7;
     _get_certificate := fun _ => Ret (Some (lit "CERT"));
     paramiko := {| SSHClient.from_private_key := fun _ k => Ret k;
                    SSHClient.connect_outcome := fun _ => None |};
     remote :=
       {| SSHClient.execute_outcome := fun _ _ timeout =>
            if timeout =? 300 then
              Ret {| SSHClient.stdout :=
                       lit "  SERVICE_PORT:        62060" ++ [10%N]
                       ++ lit "  XRAY_API_PORT:       62061" ++ [10%N];
                     SSHClient.stderr := [];
                     SSHClient.exit_code := 0 |}
            else Ret {| SSHClient.stdout := []; SSHClient.stderr := [];
                        SSHClient.exit_code := 0 |};
          SSHClient.upload_outcome := fun _ _ _ _ => None |};
     close_outcome := None;
     ssh_timeout := 60;
     insert_node := fun _ => Ret 101;
     panel_access_token := Ret (Some (lit "token"));
     create_node_outcome := None;
     update_status_outcome := None;
     log_audit_outcome := None |}.

Definition scenario_world : World :=
  {| the_job := {| ij_job_id := lit "job-1"; ij_panel_id := 1;
                   ij_node_name := lit "n1"; ij_status := lit "pending";
                   ij_progress := 0; ij_current_step := []; ij_logs := [];
                   ij_started_at := None; ij_completed_at := None;
                   ij_error := None; ij_result := None |};
     events := [] |}.

Definition scenario_run : World :=
  snd (_run_installation ascii_decimal scenario_env scenario_request None 1000 2000
         scenario_world).

End InstallRunSpec.

(** ** Vocabulary: the status protocol of a job *)

Module JobProtocol.
Import JobManager.
Local Open Scope Z_scope.

Definition terminal (s : JobStatus) : bool :=
  match s with COMPLETED | FAILED | CANCELLED => true | _ => false end.

(** Pending -> Running -> Completed | Failed | Cancelled *)
Definition claimed_transition (a b : JobStatus) : bool :=
  match a, b with
  | PENDING, RUNNING
  | RUNNING, COMPLETED | RUNNING, FAILED | RUNNING, CANCELLED => true
  | _, _ => false
  end.

(** The same, and Pending -> Cancelled. *)
Definition allowed_transition (a b : JobStatus) : bool :=
  match a, b with
  | PENDING, CANCELLED => true
  | _, _ => claimed_transition a b
  end.

Definition keeps_outcome (j j' : Job) : Prop :=
  status j' = status j /\ result j' = result j /\ error j' = error j.

(** One change of the job respects the transitions [tr] and leaves a
    terminal job's status, result and error as they are. *)
Definition step_ok (tr : JobStatus -> JobStatus -> bool) (j j' : Job) : Prop :=
  (status j' = status j \/ tr (status j) (status j') = true)
  /\ (terminal (status j) = true -> keeps_outcome j j').

Fixpoint chain (P : Job -> Job -> Prop) (l : list Job) : Prop :=
  match l with
  | a :: l' =>
      match l' with
      | b :: _ => P a b /\ chain P l'
      | [] => True
      end
  | [] => True
  end.

(** A task that leaves the status to the manager, or sets it once as
    the last thing it does: [job.complete(...)] and then returns, or
    [job.fail(msg)] and then returns or raises an exception whose text
    is [msg]; and that lets a cancellation through. *)
Definition neutral (a : TaskAction) : bool :=
  match a with
  | CallUpdateProgress _ _ | CallAddLog _ _ => true
  | _ => false
  end.

Definition final_ok (a : TaskAction) (e : TaskEnd) : bool :=
  match a, e with
  | CallComplete _ _ _, (Returns | Propagates) => true
  | CallFail _ _ _, (Returns | Propagates) => true
  | CallFail _ _ err, Raises exn => PyStr.eqb err (exn_msg exn)
  | _, _ => false
  end.

Fixpoint disciplined_actions (l : list TaskAction) (e : TaskEnd) : bool :=
  match l with
  | [] => true
  | a :: l' =>
      match l' with
      | [] => neutral a || final_ok a e
      | _ :: _ => neutral a && disciplined_actions l' e
      end
  end.

Definition disciplined (s : Script) : Prop :=
  disciplined_actions (todo s) (ending s) = true /\ on_cancel s = Propagates.

Definition settled (j : Job) (e : TaskEnd) : Prop :=
  match e with
  | Returns | Propagates => terminal (status j) = true
  | Raises exn => status j = FAILED /\ error j = Some (exn_msg exn)
  end.

Definition inv (m : Managed) : Prop :=
  match task m with
  | NoTask | Done => True
  | NotStarted s => status (job m) = PENDING /\ disciplined s
  | Suspended s =>
      on_cancel s = Propagates
      /\ ((status (job m) = RUNNING
           /\ disciplined_actions (todo s) (ending s) = true)
          \/ (todo s = [] /\ settled (job m) (ending s)))
  end.

(** The job and its task after the events. *)
Definition run_events (evs : list MgrEvent) (m : Managed) : Managed :=
  fold_left (fun m ev => step ev m) evs m.

Definition install_task : Script :=
  {| todo := [ CallUpdateProgress 5 (Some (lit "Preparing SSH credentials"));
               CallAddLog 11 (lit "SSH credentials ready");
               CallComplete 12 13 (Some [(lit "node_id", VInt 101)]) ];
     ending := Returns;
     on_cancel := Propagates |}.

End JobProtocol.

(** ** Vocabulary: the retry policy of the panel client *)

Module RetryPolicy.
Import MarzbanClient.
Local Open Scope Z_scope.

(** The error the loop records for a reply after which it goes on:
    a timeout, a network error, or a response that is not 401, 404 or
    5xx and for which [raise_for_status()] raises. *)
Definition retry_error (reply : HttpReply) : option Exn :=
  match reply with
  | HTimeout m => Some (Exc MarzbanConnectionError (lit "Request timeout: " ++ m))
  | HNetworkError m => Some (Exc MarzbanConnectionError (lit "Network error: " ++ m))
  | HOtherHTTPError _ => None
  | HResponse r =>
      if (status_code r =? 401) || (status_code r =? 404) || (status_code r >=? 500)
      then None
      else match status_error r with
           | Some m => Some (Exc MarzbanClientError (lit "HTTP error: " ++ m))
           | None => None
           end
  end.

(** The world after the wait that follows a failed attempt: [2 **
    attempt] seconds later, unless the attempt was the last one. *)
Definition after_backoff (self : t) (attempt : Z) (w : World) : World :=
  if attempt <? _max_retries self - 1 then slept (2 ^ attempt) w else w.

Definition made (w w' : World) : nat := (requests w' - requests w)%nat.
Definition posted (w w' : World) : nat := (token_posts w' - token_posts w)%nat.

Definition raise_auth_failed : M World (option pystr) :=
  raise (Exc MarzbanAuthError (lit "Authentication failed")).

Definition GET : pystr := lit "GET".
Definition nodes_endpoint : pystr := lit "/api/nodes".

Definition admin (max_retries : Z) : t :=
  {| base_url := lit "https://panel.example"; username := Some (lit "admin");
     password := Some (lit "secret"); _max_retries := max_retries |}.

Definition token_reply : HttpReply :=
  HResponse {| status_code := 200; text := []; has_content := true;
               json := Some (lit "tok2"); status_error := None |}.

Definition status_reply (code : Z) : HttpReply :=
  HResponse {| status_code := code; text := lit "body"; has_content := true;
               json := None; status_error := Some (lit "status error") |}.

(** A world in which the client holds a token without known expiry. *)
Definition world0 : World :=
  {| now := 0; _token := Some {| access_token := lit "tok1"; expires_at := None |};
     requests := 0; token_posts := 0; log := [] |}.

Definition flaky_panel : Panel :=
  {| api := fun n => match n with
                     | 0%nat => HTimeout (lit "a")
                     | 1%nat => HNetworkError (lit "b")
                     | _ => HTimeout (lit "c")
                     end;
     token_api := fun _ => token_reply |}.

(** A panel that answers the second request with 401 and every other
    one with a timeout. *)
Definition reauth_panel : Panel :=
  {| api := fun n => match n with
                     | 1%nat => status_reply 401
                     | _ => HTimeout (lit "t")
                     end;
     token_api := fun _ => token_reply |}.

End RetryPolicy.

(** ** Vocabulary: labelled values in the output of the CLI *)

Module PortLabels.
Import Re SSHClient NodeManagerClient.
Local Open Scope Z_scope.

Section WithDecimalTable.
Variable todecimal : N -> option N.

(** A labelled value at the start of [t]: the label, at least one
    whitespace character, then digits; the value is the run of
    digits. *)
Definition labelled_value_here (label t : pystr) : option pystr :=
  match strip_prefix label t with
  | Some (c :: u) =>
      if is_space c then
        match drop_while is_space u with
        | d :: v =>
            if is_digit todecimal d
            then Some (d :: take_while (is_digit todecimal) v)
            else None
        | [] => None
        end
      else None
  | _ => None
  end.

(** The value of the first labelled value of the text, if there is
    one. *)
Fixpoint first_labelled_value (label s : pystr) : option pystr :=
  match labelled_value_here label s with
  | Some ds => Some ds
  | None =>
      match s with
      | [] => None
      | _ :: s' => first_labelled_value label s'
      end
  end.

(** [label\s+(\d+)] *)
Definition port_re (label : pystr) : list re :=
  chars label ++ [Cls is_space Plus; Group [Cls (is_digit todecimal) Plus]].

End WithDecimalTable.

(** The output of the specification's example. *)
Definition example_output : pystr :=
  [ESC] ++ lit "[0;32m  SERVICE_PORT:" ++ [ESC] ++ lit "[0m        62060" ++ [10%N]
  ++ lit "  XRAY_API_PORT:       62061" ++ [10%N].

End PortLabels.

(** ** Vocabulary: what a job keeps *)

Module JobInvariants.
Import JobManager.
Local Open Scope Z_scope.

Definition within_bounds (j : Job) : Prop := 0 <= progress j <= 100.

(** The logs of [j'] are those of [j], possibly followed by more. *)
Definition extends (j j' : Job) : Prop :=
  exists more, logs j' = logs j ++ more.

(** The fields that go with a status are filled in. *)
Definition stamped (j : Job) : Prop :=
  match status j with
  | PENDING => True
  | RUNNING => started_at j <> None
  | COMPLETED => started_at j <> None /\ completed_at j <> None
  | FAILED => started_at j <> None /\ completed_at j <> None /\ error j <> None
  | CANCELLED => completed_at j <> None
  end.

Definition is_suspended (t : TaskState) : bool :=
  match t with Suspended _ => true | _ => false end.

(** What the manager keeps between two steps of a job. *)
Definition keeps_stamps (m : Managed) : Prop :=
  stamped (job m)
  /\ (is_suspended (task m) = true -> started_at (job m) <> None)
  /\ (match task m with NotStarted _ => status (job m) = PENDING | _ => True end).

End JobInvariants.

(** ** SSHClient: closing and probing a session *)

Module SSHSession.
Import SSHClient.

(** [needle in hay] *)
Fixpoint contains (needle hay : pystr) : bool :=
  match strip_prefix needle hay with
  | Some _ => true
  | None =>
      match hay with
      | [] => false
      | _ :: hay' => contains needle hay'
      end
  end.

(** [close()] on a client whose [_connect_sync] has been entered:
    [_close_sync] finds the paramiko client and closes it; [closing]
    is what that does ([Some e]: it raises [e]). *)
Definition close (closing : option Exn) : M trace unit :=
  (emit EvClose ;;
   match closing with None => ret tt | Some e => raise e end)%monad.

(** [except SSHClientError]: the class and its subclasses. *)
Definition is_ssh_client_error (e : Exn) : bool :=
  match exn_class e with
  | SSHClientError | SSHConnectionError | SSHCommandError => true
  | _ => false
  end.

(** [test_connection()]: the pair [(success, error)]. *)
Definition test_connection (pk : Paramiko) (rm : Remote) (closing : option Exn)
    (self : t) : M trace (bool * option pystr) :=
  try_except
    (connect pk self ;;
     result <- execute rm (lit "echo 'connection_test'") 10 ;;
     let success := contains (lit "connection_test") (stdout result) in
     close closing ;;
     ret (success, None))%monad
    (fun e =>
       if is_ssh_client_error e then ret (false, Some (exn_msg e))
       else ret (false, Some (lit "Unexpected error: " ++ exn_msg e))).

End SSHSession.

(** ** NodeService: the server layer of a deletion *)

Module ServerUninstall.
Import SSHClient SSHSession.

(** The collaborators of [_uninstall_from_server]: the profile
    repository, the settings, paramiko and the remote host. *)
Record Env := {
  get_decrypted_credentials : Z -> option SSHInstallService.Creds;
  ssh_timeout : Z;
  paramiko : Paramiko;
  remote : Remote;
  closing : option Exn
}.

Definition _uninstall_from_server (env : Env) (ssh_profile_id : Z)
    (node_name : pystr) : M trace bool :=
  match get_decrypted_credentials env ssh_profile_id with
  | None =>
      raise (Exc ValueError (lit "SSH profile not found or has no credentials"))
  | Some creds =>
      let ssh_client :=
        {| host := SSHInstallService.c_host creds;
           port := SSHInstallService.c_port creds;
           username := SSHInstallService.c_username creds;
           password := SSHInstallService.c_password creds;
           private_key := SSHInstallService.c_private_key creds;
           timeout := ssh_timeout env |} in
      try_finally
        (connect (paramiko env) ssh_client ;;
         success <- NodeManagerClient.uninstall_node (remote env) node_name ;;
         ret success)%monad
        (close (closing env))
  end.

End ServerUninstall.

(** ** Vocabulary: sessions *)

Module SessionSpec.
Import SSHClient.

Definition is_close (e : Event) : bool :=
  match e with EvClose => true | _ => false end.

Definition is_execute (e : Event) : bool :=
  match e with EvExecute _ _ => true | _ => false end.

(** Neither a connection nor the closing of one. *)
Definition quiet (e : Event) : Prop :=
  ConnectSpec.is_connect e = false /\ is_close e = false /\ is_execute e = false.

(** How [_connect_sync] words a failure of paramiko's [connect]. *)
Definition connect_error (e : Exn) : Exn :=
  Exc SSHConnectionError
    ((if is_class ParamikoAuthenticationException e then lit "Authentication failed: "
      else if is_class ParamikoSSHException e then lit "SSH error: "
      else lit "Connection failed: ") ++ exn_msg e).

(** The credentials a connection attempt carries, for a client. *)
Definition credentials_of (self : t) (kw : ConnectKwargs) : Prop :=
  if given (private_key self)
  then kw_password kw = None /\ kw_pkey kw <> None
  else kw_password kw = password self /\ kw_pkey kw = None.

(** The two halves of [_connect_sync]: the choice of the keyword
    arguments, and the call of paramiko's [connect] with them. *)
Definition chosen_kwargs (pk : Paramiko) (self : t) : M trace ConnectKwargs :=
  (if given (private_key self) then
     let key := match private_key self with Some k => k | None => [] end in
     pkey <- except_ssh (parse_key pk RSAKey key)
               (except_ssh (parse_key pk Ed25519Key key)
                  (parse_key pk ECDSAKey key)) ;;
     ret {| kw_hostname := host self; kw_port := port self;
            kw_username := username self; kw_timeout := timeout self;
            kw_banner_timeout := timeout self; kw_auth_timeout := timeout self;
            kw_pkey := Some pkey; kw_password := None |}
   else if given (password self) then
     ret {| kw_hostname := host self; kw_port := port self;
            kw_username := username self; kw_timeout := timeout self;
            kw_banner_timeout := timeout self; kw_auth_timeout := timeout self;
            kw_pkey := None; kw_password := password self |}
   else
     raise (Exc SSHConnectionError (lit "No authentication method provided")))%monad.

Definition attempt (pk : Paramiko) (kwargs : ConnectKwargs) : M trace unit :=
  (emit (EvConnect kwargs) ;;
   match connect_outcome pk kwargs with
   | None => ret tt
   | Some e =>
       if is_class ParamikoAuthenticationException e then
         raise (Exc SSHConnectionError (lit "Authentication failed: " ++ exn_msg e))
       else if is_class ParamikoSSHException e then
         raise (Exc SSHConnectionError (lit "SSH error: " ++ exn_msg e))
       else
         raise (Exc SSHConnectionError (lit "Connection failed: " ++ exn_msg e))
   end)%monad.

Definition ends_with_close (tr : trace) : Prop :=
  exists before, tr = before ++ [EvClose].

(** A host on which every command fails to start. *)
Definition dead_remote : Remote :=
  {| execute_outcome := fun _ _ _ =>
       Raise (Exc SSHCommandError (lit "Command execution failed: channel closed"));
     upload_outcome := fun _ _ _ _ => None |}.

Definition open_paramiko : Paramiko :=
  {| from_private_key := fun _ k => Ret k;
     connect_outcome := fun _ => None |}.

(** A paramiko whose [connect] is refused by the server. *)
Definition refusing_paramiko : Paramiko :=
  {| from_private_key := fun _ k => Ret k;
     connect_outcome := fun _ =>
       Some (Exc ParamikoAuthenticationException (lit "Authentication failed.")) |}.

Definition root_with_key_and_password : t :=
  {| host := lit "10.0.0.5"; port := 22; username := lit "root";
     password := Some (lit "secret"); private_key := Some (lit "PEM");
     timeout := 60 |}.

Definition key_kwargs : ConnectKwargs :=
  {| kw_hostname := lit "10.0.0.5"; kw_port := 22; kw_username := lit "root";
     kw_timeout := 60; kw_banner_timeout := 60; kw_auth_timeout := 60;
     kw_pkey := Some (lit "PEM"); kw_password := None |}.

Definition root_with_password : t :=
  {| host := lit "10.0.0.5"; port := 22; username := lit "root";
     password := Some (lit "secret"); private_key := None; timeout := 60 |}.

End SessionSpec.

(** ** Vocabulary: what a computation adds to the trace *)

Module Effects.
Import SSHClient SSHInstallService ConnectSpec SessionSpec.

(** Every event [c] adds, from any trace, satisfies [P]. *)
Definition adds {A} (P : Event -> Prop) (c : M trace A) : Prop :=
  forall tr, exists added, snd (c tr) = tr ++ added /\ Forall P added.

Definition adds_w {A} (P : Event -> Prop) (c : M World A) : Prop :=
  forall w, exists added,
    events (snd (c w)) = events w ++ added /\ Forall P added.

(** [c] leaves the trace as it is. *)
Definition silent {A} (c : M World A) : Prop :=
  forall w, events (snd (c w)) = events w.

(** An event inside a session: neither a connection nor a closing. *)
Definition inside (e : Event) : Prop :=
  is_connect e = false /\ is_close e = false.

(** A call of paramiko's [connect] that succeeded. *)
Definition connected (pk : Paramiko) (e : Event) : bool :=
  match e with
  | EvConnect kw =>
      match connect_outcome pk kw with None => true | Some _ => false end
  | _ => false
  end.

(** As many closings as sessions opened, and the closing comes last. *)
Definition balanced (pk : Paramiko) (added : trace) : Prop :=
  length (filter is_close added) = length (filter (connected pk) added)
  /\ (existsb (connected pk) added = true -> ends_with_close added).

Definition session_safe {A} (pk : Paramiko) (c : M World A) : Prop :=
  forall w, exists added,
    events (snd (c w)) = events w ++ added /\ balanced pk added.

(** The collaborators of scenario C with the panel unreachable. *)
Definition panel_down_env : Env :=
  {| get_decrypted_credentials := get_decrypted_credentials InstallRunSpec.scenario_env;
     find_by_name := find_by_name InstallRunSpec.scenario_env;
     uuid4 := uuid4 InstallRunSpec.scenario_env;
     create_profile := create_profile InstallRunSpec.scenario_env;
     _get_certificate := _get_certificate InstallRunSpec.scenario_env;
     paramiko := paramiko InstallRunSpec.scenario_env;
     remote := remote InstallRunSpec.scenario_env;
     close_outcome := None;
     ssh_timeout := 60;
     insert_node := fun _ => Ret 101%Z;
     panel_access_token :=
       Raise (Exc MarzbanConnectionError (lit "Network error: unreachable"));
     create_node_outcome := None;
     update_status_outcome := None;
     log_audit_outcome := None |}.

(** The [except Exception as e] clause of [_run_installation]. *)
Definition on_exception (completed_now : JobManager.datetime) (e : Exn)
  : M World unit :=
  (on_job (set_ij_status (lit "failed")) ;;
   on_job (fun j => set_ij_times (ij_started_at j) (Some completed_now) j) ;;
   on_job (set_ij_error (Some (exn_msg e))) ;;
   add_log (lit "Error: " ++ exn_msg e))%monad.

(** A command, or the upload of [content] to [path] with [mode]. *)
Definition command_or_upload (content path : pystr) (mode : Z) (e : Event) : Prop :=
  match e with
  | EvExecute _ _ => True
  | EvUploadContent c p m => c = content /\ p = path /\ m = mode
  | _ => False
  end.

(** What [_run_installation] does before it asks for the SSH
    connection: the look-up and the creation of the SSH profile, and
    the fetching of the certificate. *)
Definition preparation (e : Event) : Prop :=
  match e with
  | EvFindProfileByName _ | EvCreateProfile _ | EvGetCertificate _ => True
  | _ => False
  end.

(** [c] raises, and every event it adds satisfies [P]. *)
Definition fails_adding {A} (P : Event -> Prop) (c : M World A) : Prop :=
  adds_w P c /\ forall w, exists e, fst (c w) = Raise e.

(** The collaborators of scenario C with a panel that has no
    certificate. *)
Definition no_certificate_env : Env :=
  {| get_decrypted_credentials := get_decrypted_credentials InstallRunSpec.scenario_env;
     find_by_name := find_by_name InstallRunSpec.scenario_env;
     uuid4 := uuid4 InstallRunSpec.scenario_env;
     create_profile := create_profile InstallRunSpec.scenario_env;
     _get_certificate := fun _ => Ret None;
     paramiko := paramiko InstallRunSpec.scenario_env;
     remote := remote InstallRunSpec.scenario_env;
     close_outcome := None;
     ssh_timeout := 60;
     insert_node := fun _ => Ret 101%Z;
     panel_access_token := Ret None;
     create_node_outcome := None;
     update_status_outcome := None;
     log_audit_outcome := None |}.

(** The row [_register_node] inserts. *)
Definition registered_row (panel_id : Z) (node_name address : pystr)
    (service_port api_port : Z) (ssh_profile_id : option Z) : NodeData :=
  {| MarzbanPanelID := panel_id; NodeName := node_name; Address := address;
     ServicePort := service_port; APIPort := api_port;
     NodeStatusID := CONNECTING;
     SSHProfileID := if nonzero ssh_profile_id then ssh_profile_id else None |}.

End Effects.

(** ** MarzbanClient: the admin API *)

Module MarzbanAdmin.
Import MarzbanClient.

(** What [response.json()] decoded, as far as [test_connection]
    looks at it: a JSON object, with what [admin.get("username")] and
    [admin.get("is_sudo", False)] give, or a value of another type (a
    list, a string, a number, a boolean, [null]), which has no [get];
    [type_name] is the name of its Python type. *)
Inductive Decoded :=
| Object (username is_sudo : pystr)
| Other (type_name : pystr).

(** What [test_connection] returns: one of its two dictionaries,
    [{"connected": True, "admin_username": ..., "is_sudo": ...}] or
    [{"connected": False, "error": ...}]. *)
Inductive ConnectionReport :=
| Connected (admin_username is_sudo : pystr)
| NotConnected (error : pystr).

(** [AttributeError] of [value.get] on a value that is no dict. *)
Definition no_get (type_name : pystr) : Exn :=
  Exc LibraryError
    (lit "'" ++ type_name ++ lit "' object has no attribute 'get'").

Section Client.
Variable panel : Panel.

(** The decoding of a body of [/api/admin]. *)
Variable decoded : pystr -> Decoded.

Variable self : t.

Definition get_current_admin : M World (option pystr) :=
  _request panel self (lit "GET") (lit "/api/admin") true.

(** [test_connection()].  [admin.get] raises [AttributeError] when
    [admin] is [None] (an empty body) or any value that is not a
    dict; no clause of the [try] catches it. *)
Definition test_connection : M World ConnectionReport :=
  try_except
    (admin <- get_current_admin ;;
     match admin with
     | Some a =>
         match decoded a with
         | Object username is_sudo => ret (Connected username is_sudo)
         | Other type_name => raise (no_get type_name)
         end
     | None => raise (no_get (lit "NoneType"))
     end)%monad
    (fun e =>
       match exn_class e with
       | MarzbanAuthError => ret (NotConnected (lit "Invalid credentials"))
       | MarzbanConnectionError => ret (NotConnected (exn_msg e))
       | _ => raise e
       end).

End Client.

End MarzbanAdmin.

(** ** Vocabulary: requests *)

Module RequestSpec.
Import MarzbanClient.
Local Open Scope Z_scope.

(** A request that carries a bearer token. *)
Definition authorized (e : HEvent) : Prop :=
  match e with
  | HRequest _ _ bearer => bearer <> None
  | _ => True
  end.

(** Every event [c] logs satisfies [P]. *)
Definition logs_only {A} (P : HEvent -> Prop) (c : M World A) : Prop :=
  forall w, exists added, log (snd (c w)) = log w ++ added /\ Forall P added.

(** The client holds a token that has not expired. *)
Definition has_valid_token (w : World) : Prop :=
  exists tk, _token w = Some tk /\ is_expired (now w) tk = false.

(** A client that was given a token and no credentials. *)
Definition token_only (max_retries : Z) : t :=
  {| base_url := lit "https://panel.example"; username := None;
     password := None; _max_retries := max_retries |}.

(** A good reply with the given body. *)
Definition body_reply (body : pystr) : HttpReply :=
  HResponse {| status_code := 200; text := body; has_content := true;
               json := Some body; status_error := None |}.

(** A panel that always answers with the same reply. *)
Definition panel_saying (reply : HttpReply) : Panel :=
  {| api := fun _ => reply; token_api := fun _ => reply |}.

(** A decoding under which the body [admin] is the object of the
    administrator and every other body is a list. *)
Definition decoding : pystr -> MarzbanAdmin.Decoded :=
  fun body =>
    if eqb body (lit "admin")
    then MarzbanAdmin.Object (lit "root") (lit "True")
    else MarzbanAdmin.Other (lit "list").

End RequestSpec.

(** ** NodeManagerClient: listing the nodes *)

Module NodeManagerQueries.
Import SSHClient.

(** [s.split(sep)] for a separator of one character. *)
Fixpoint split_on (sep : N) (s : pystr) : list pystr :=
  match s with
  | [] => [[]]
  | c :: s' =>
      if (c =? sep)%N then [] :: split_on sep s'
      else
        match split_on sep s' with
        | line :: lines => (c :: line) :: lines
        | [] => [[c]]
        end
  end.

(** [list_nodes()] *)
Definition list_nodes (rm : Remote) : M trace (list pystr) :=
  (result <- execute rm (lit "marzban-node-manager list") 30 ;;
   if negb (exit_code result =? 0)%Z then ret []
   else
     ret (List.map strip
            (filter (fun line => truthy (strip line))
               (split_on 10 (strip (stdout result))))))%monad.

End NodeManagerQueries.

(** ** Vocabulary: texts *)

Module TextSpec.
Import NodeManagerClient.

(** [a] is [b] with some characters left out. *)
Fixpoint subsequence (a b : pystr) : bool :=
  match a, b with
  | [], _ => true
  | _ :: _, [] => false
  | x :: a', y :: b' =>
      if (x =? y)%N then subsequence a' b' else subsequence a b'
  end.

(** A control sequence [ESC [ params intermediates final]. *)
Definition csi (params inters : pystr) (final : N) : pystr :=
  ESC :: 91%N :: params ++ inters ++ [final].

(** A usable node name: not empty, on one line, nothing to trim. *)
Definition clean_name (n : pystr) : Prop :=
  n <> [] /\ ~ In 10%N n /\ strip n = n.

(** A host that answers every command with the same output. *)
Definition host_saying (out : pystr) (code : Z) : SSHClient.Remote :=
  {| SSHClient.execute_outcome := fun _ _ _ =>
       Ret {| SSHClient.stdout := out; SSHClient.stderr := [];
              SSHClient.exit_code := code |};
     SSHClient.upload_outcome := fun _ _ _ _ => None |}.

End TextSpec.

(** ** JobManager: the registry of jobs *)

Module JobRegistry.
Import JobManager.
Local Open Scope Z_scope.

(** [_jobs]: a dict from job id to job, in insertion order. *)
Definition registry := list (pystr * Job).

(** [self._jobs.get(job_id)] *)
Fixpoint get_job (job_id : pystr) (jobs : registry) : option Job :=
  match jobs with
  | [] => None
  | (k, j) :: rest => if eqb k job_id then Some j else get_job job_id rest
  end.

(** [self._jobs[job_id] = job] *)
Fixpoint store (job_id : pystr) (job : Job) (jobs : registry) : registry :=
  match jobs with
  | [] => [(job_id, job)]
  | (k, j) :: rest =>
      if eqb k job_id then (k, job) :: rest
      else (k, j) :: store job_id job rest
  end.

(** [del self._jobs[job_id]], for an id that is in the dict. *)
Fixpoint remove (job_id : pystr) (jobs : registry) : registry :=
  match jobs with
  | [] => []
  | (k, j) :: rest =>
      if eqb k job_id then rest else (k, j) :: remove job_id rest
  end.

Definition is_finished (s : JobStatus) : bool :=
  match s with
  | COMPLETED | FAILED | CANCELLED => true
  | PENDING | RUNNING => false
  end.

Section Manager.

Variable _max_jobs : Z.

(** [(now - job.completed_at).total_seconds() / 3600 >
    self._job_ttl_hours]: a comparison of floats, taken as it
    comes. *)
Variable older_than_ttl : datetime -> datetime -> bool.

(** The test of [_cleanup_old_jobs] on one job. *)
Definition expired (now : datetime) (job : Job) : bool :=
  is_finished (status job)
  && match completed_at job with
     | Some t => older_than_ttl now t
     | None => false
     end.

Definition _cleanup_old_jobs (now : datetime) (jobs : registry) : registry :=
  let to_remove :=
    List.map fst (filter (fun entry => expired now (snd entry)) jobs) in
  fold_left (fun js job_id => remove job_id js) to_remove jobs.

(** [create_job(job_type, metadata, job_id)]: the job and the
    registry after it.  [uuid4] is [str(uuid.uuid4())], [cleanup_now]
    and [created_now] are the values of [datetime.utcnow()] in
    [_cleanup_old_jobs] and in the making of the job. *)
Definition create_job (job_type : pystr) (metadata : option pydict)
    (job_id : option pystr) (uuid4 : pystr)
    (cleanup_now created_now : datetime) (jobs : registry) : Job * registry :=
  let jobs :=
    if Z.of_nat (length jobs) >=? _max_jobs
    then _cleanup_old_jobs cleanup_now jobs else jobs in
  let job :=
    new_job (if given job_id
             then match job_id with Some i => i | None => [] end
             else uuid4)
      job_type
      (match metadata with Some m => m | None => [] end)
      created_now in
  (job, store (JobManager.job_id job) job jobs).

End Manager.

(** [jobs.sort(key=lambda j: j.created_at, reverse=True)]: a stable
    sort, the later job first; [insert_desc] puts a job before the
    first job that is not later than it. *)
Fixpoint insert_desc (j : Job) (sorted : list Job) : list Job :=
  match sorted with
  | [] => [j]
  | h :: t =>
      if created_at h >? created_at j then h :: insert_desc j t
      else j :: h :: t
  end.

Definition sort_desc (jobs : list Job) : list Job :=
  fold_right insert_desc [] jobs.

(** [jobs[:limit]] *)
Definition up_to (limit : Z) (jobs : list Job) : list Job :=
  if limit >=? 0 then firstn (Z.to_nat limit) jobs
  else firstn (length jobs - Z.to_nat (- limit)) jobs.

(** [list_jobs(job_type, status, limit)]: the jobs whose dictionaries
    are returned, in order. *)
Definition list_jobs (job_type : option pystr) (status : option JobStatus)
    (limit : Z) (jobs : registry) : list Job :=
  let js := List.map snd jobs in
  let js :=
    if given job_type
    then filter (fun j => eqb (JobManager.job_type j)
                            (match job_type with Some t => t | None => [] end)) js
    else js in
  let js :=
    match status with
    | Some s => filter (fun j => status_eqb (JobManager.status j) s) js
    | None => js
    end in
  up_to limit (sort_desc js).

End JobRegistry.

(** ** Vocabulary: registries *)

Module RegistrySpec.
Import JobManager JobRegistry.
Local Open Scope Z_scope.

Definition keys (jobs : registry) : list pystr := List.map fst jobs.

(** Later jobs first. *)
Fixpoint descending (jobs : list Job) : Prop :=
  match jobs with
  | [] => True
  | j :: rest =>
      Forall (fun other => created_at other <= created_at j) rest
      /\ descending rest
  end.

(** A job finished at time 0 and a job still running. *)
Definition old_job : Job :=
  complete 0 0 None (start 0 0 (new_job (lit "old") (lit "ssh_install") [] 0)).

Definition busy_job : Job :=
  start 5 5 (new_job (lit "busy") (lit "ssh_install") [] 5).

Definition two_jobs : registry :=
  [(lit "old", old_job); (lit "busy", busy_job)].

(** Older than a day, in microseconds. *)
Definition a_day_old (now t : datetime) : bool := now - t >? 86400000000.

End RegistrySpec.

(** * Properties *)

(** ** Control-sequence stripping *)

Section StripAnsi.
Import Re NodeManagerClient.

Lemma match_at_ansi_escape_head c s :
  c <> ESC -> match_at ansi_escape (c :: s) = None.
Proof.
  intros Hc. unfold match_at, ansi_escape, m_seq, chr.
  cbn [fold_right m]. unfold one at 1.
  destruct (N.eqb_spec ESC c) as [E | E]; [ congruence | reflexivity ].
Qed.

(** A text without ESC is left as it is. *)
Lemma _strip_ansi_without_escape s :
  ~ In ESC s -> _strip_ansi s = s.
Proof.
  unfold _strip_ansi, sub_empty.
  induction s as [| c s IH]; intros Hin; [ reflexivity | ].
  cbn [sub_from].
  rewrite match_at_ansi_escape_head by (intros ->; apply Hin; now left).
  f_equal. apply IH. intros H; apply Hin; now right.
Qed.

(** C6, as amended: stripping is idempotent on every text whose
    stripped form holds no ESC character, that is, whenever no ESC of
    the text is left over because it did not begin a complete
    sequence. *)
Theorem C6_strip_ansi_idempotent_when_no_escape_is_left x :
  ~ In ESC (_strip_ansi x) ->
  _strip_ansi (_strip_ansi x) = _strip_ansi x.
Proof.
  intros H. now apply _strip_ansi_without_escape.
Qed.

(** C6 at a coloured line of the CLI. *)
Lemma C6_strip_ansi_idempotent_witness :
  let x := lit "ok" ++ [ESC] ++ lit "[0;32mSERVICE_PORT:" ++ [ESC] ++ lit "[0m 62060" in
  ~ In ESC (_strip_ansi x) /\ _strip_ansi (_strip_ansi x) = _strip_ansi x.
Proof.
  intros x.
  assert (H : ~ In ESC (_strip_ansi x)).
  { vm_compute. intros H.
    repeat (destruct H as [H | H]; [ discriminate H | ]). exact H. }
  split; [ exact H | ].
  exact (C6_strip_ansi_idempotent_when_no_escape_is_left x H).
Defined.

(** C6, as stated, fails: an ESC that begins no sequence is kept, and
    what is removed after it can leave a sequence behind it. *)
Lemma C6_strip_ansi_not_idempotent :
  let x := [ESC; ESC] ++ lit "AA" in
  _strip_ansi x = [ESC] ++ lit "A"
  /\ _strip_ansi (_strip_ansi x) = []
  /\ _strip_ansi (_strip_ansi x) <> _strip_ansi x.
Proof.
  vm_compute. repeat split. discriminate.
Qed.

End StripAnsi.

(** ** Token expiry *)

Section TokenExpiry.
Import MarzbanClient.
Local Open Scope Z_scope.

(** C8: [is_expired] is true exactly when [now >= expires_at - 5
    minutes], and false when [expires_at] is absent; a token expiring
    in 4 minutes is expired, one expiring in 10 minutes is not. *)
Theorem C8_is_expired_five_minute_buffer :
  (forall now a e,
     is_expired now {| access_token := a; expires_at := Some e |} = true
     <-> now >= e - timedelta_minutes 5)
  /\ (forall now a,
        is_expired now {| access_token := a; expires_at := None |} = false)
  /\ (forall now a,
        is_expired now {| access_token := a;
                          expires_at := Some (now + timedelta_minutes 4) |} = true)
  /\ (forall now a,
        is_expired now {| access_token := a;
                          expires_at := Some (now + timedelta_minutes 10) |} = false).
Proof.
  unfold is_expired, timedelta_minutes. cbn [expires_at].
  split; [ | split; [ | split ] ]; intros now a.
  - intros e. split; intros E.
    + apply Z.geb_le in E. lia.
    + apply Z.geb_le. lia.
  - reflexivity.
  - apply Z.geb_le. lia.
  - rewrite Z.geb_leb. apply Z.leb_gt. lia.
Qed.

End TokenExpiry.

(** ** Job.update_progress *)

Section UpdateProgress.
Import JobManager.
Local Open Scope Z_scope.

(** C10: [update_progress(p, step)] stores [p] clamped into [0, 100]
    as the progress, stores [step] as the current step when it is a
    non-empty string and leaves the current step alone otherwise, and
    changes no other field. *)
Theorem C10_update_progress_frame (j : Job) (p : Z) (step : option pystr) :
  let j' := update_progress p step j in
  progress j' = Z.min (Z.max p 0) 100
  /\ 0 <= progress j' <= 100
  /\ current_step j' = (match step with
                        | Some (c :: st) => c :: st
                        | _ => current_step j
                        end)
  /\ job_id j' = job_id j /\ job_type j' = job_type j
  /\ status j' = status j /\ logs j' = logs j /\ metadata j' = metadata j
  /\ created_at j' = created_at j /\ started_at j' = started_at j
  /\ completed_at j' = completed_at j /\ error j' = error j
  /\ result j' = result j.
Proof.
  unfold update_progress.
  destruct step as [[| c st] |]; cbn; repeat split; lia.
Qed.

End UpdateProgress.

(** ** SSHClient.connect without credentials *)

Section ConnectWithoutCredentials.
Import SSHClient ConnectSpec.

(** C9: a client built without a password and without a private key
    raises [SSHConnectionError("No authentication method provided")]
    from [connect], and paramiko's [connect] is not called: the trace
    grows by the creation of the paramiko client and the setting of
    its host-key policy only. *)
Theorem C9_connect_without_credentials_raises
    (pk : Paramiko) (self : t) (tr : trace) :
  password self = None -> private_key self = None ->
  connect pk self tr =
    (Raise (Exc SSHConnectionError (lit "No authentication method provided")),
     tr ++ [EvNewParamikoClient; EvSetMissingHostKeyPolicy])
  /\ existsb is_connect (snd (connect pk self tr)) = existsb is_connect tr.
Proof.
  intros Hp Hk.
  assert (E : connect pk self tr =
    (Raise (Exc SSHConnectionError (lit "No authentication method provided")),
     tr ++ [EvNewParamikoClient; EvSetMissingHostKeyPolicy])).
  { unfold connect, _connect_sync, bind, emit, modify, raise.
    rewrite Hp, Hk. cbn. now rewrite <- app_assoc. }
  split; [ exact E | ].
  rewrite E. cbn [snd]. rewrite existsb_app. cbn. apply orb_false_r.
Qed.

(** C9 at a client for root@10.0.0.5 with no credentials. *)
Lemma C9_connect_without_credentials_witness :
  let pk := {| from_private_key := fun _ k => Ret k;
               connect_outcome := fun _ => None |} in
  let self := {| host := lit "10.0.0.5"; port := 22; username := lit "root";
                 password := None; private_key := None; timeout := 60 |} in
  connect pk self [] =
    (Raise (Exc SSHConnectionError (lit "No authentication method provided")),
     [EvNewParamikoClient; EvSetMissingHostKeyPolicy])
  /\ existsb is_connect (snd (connect pk self [])) = false.
Proof.
  intros pk self.
  exact (C9_connect_without_credentials_raises pk self [] eq_refl eq_refl).
Defined.

End ConnectWithoutCredentials.

(** ** Cascading deletion *)

Section DeleteNode.
Import NodeService DeletionSpec.
Local Open Scope Z_scope.

Lemma delete_panel_layer_eq env pid name l tr :
  delete_panel_layer env pid name l tr
  = (Ret {| result := {| success := success (result l);
                         local := local (result l);
                         marzban := Some (flag_of (_delete_from_marzban env pid name));
                         server := server (result l);
                         errors := errors (result l) |};
            errs := errs l ++ panel_errors name (_delete_from_marzban env pid name) |},
     tr ++ [EvPanelDelete pid name]).
Proof.
  unfold delete_panel_layer, bind, emit, modify, ret, panel_errors, flag_of.
  destruct (_delete_from_marzban env pid name) as [[|] | e];
    destruct l as [[a b c d e'] f]; cbn -[lit]; try rewrite app_nil_r; reflexivity.
Qed.

Lemma delete_server_layer_eq env profile name l tr :
  delete_server_layer env profile name l tr
  = (let o := _uninstall_from_server env
                (match profile with Some i => i | None => 0 end) name in
     (Ret {| result := {| success := success (result l);
                          local := local (result l);
                          marzban := marzban (result l);
                          server := Some (if nonzero profile then flag_of o else false);
                          errors := errors (result l) |};
             errs := errs l ++ server_errors name profile o |},
      tr ++ (if nonzero profile
             then [EvServerUninstall (match profile with Some i => i | None => 0 end) name]
             else []))).
Proof.
  unfold delete_server_layer, bind, emit, modify, ret, server_errors, flag_of.
  destruct (nonzero profile); cbn -[lit].
  - destruct (_uninstall_from_server env _ name) as [[|] | e];
      destruct l as [[a b c d e'] f]; cbn -[lit]; try rewrite app_nil_r; reflexivity.
  - destruct l as [[a b c d e'] f]; cbn -[lit]. now rewrite app_nil_r.
Qed.

Lemma delete_local_layer_eq env node_id name l tr :
  delete_local_layer env node_id name l tr
  = (let o := node_repo_delete env node_id in
     (Ret {| result := {| success := success (result l);
                          local := match o with
                                   | Ret b => b
                                   | Raise _ => local (result l)
                                   end;
                          marzban := marzban (result l);
                          server := server (result l);
                          errors := errors (result l) |};
             errs := errs l ++ local_errors o (log_audit env) |},
      tr ++ [EvLocalDelete node_id]
         ++ (match o with
             | Ret true => [EvAudit node_id (lit "DELETE") name]
             | _ => []
             end))).
Proof.
  unfold delete_local_layer, bind, emit, modify, ret, local_errors, flag_of.
  destruct (node_repo_delete env node_id) as [[|] | e];
    destruct l as [[a b c d e'] f]; cbn -[lit].
  - destruct (log_audit env); cbn -[lit]; rewrite <- ?app_assoc, ?app_nil_r; reflexivity.
  - destruct (log_audit env); now rewrite ?app_nil_r.
  - unfold append_error. reflexivity.
Qed.

(** C3: for an existing node, [delete_node] returns (it does not
    raise); the local deletion is attempted exactly once and after the
    requested panel and server deletions, whatever they did: what
    comes before it in the trace is the panel deletion, if requested,
    then the server uninstall, if requested and the node has an SSH
    profile, and what comes after it is only its own audit record;
    [marzban]
    and [server] are null exactly when the layer was not requested and
    the layer's boolean otherwise; a requested layer that fails adds
    one error string and the others still run; [success] is the local
    outcome; and in the scenario with both layers requested, the panel
    deletion raising and the other two succeeding, the result is
    success, marzban false, server true and the one panel error. *)
Theorem C3_delete_node_best_effort
    (env : Env) (node_id : Z) (dm ds : bool) (tr : trace) (row : NodeRow) :
  find_by_id_with_details env node_id = Some row ->
  let name := row_NodeName row in
  let panel := _delete_from_marzban env (row_MarzbanPanelID row) name in
  let profile := row_SSHProfileID row in
  let uninst := _uninstall_from_server env
                  (match profile with Some i => i | None => 0 end) name in
  let loc := node_repo_delete env node_id in
  exists resp cascade audit,
    delete_node env node_id dm ds tr
      = (Ret resp, tr ++ cascade ++ [EvLocalDelete node_id] ++ audit)
    /\ existsb is_local_delete cascade = false
    /\ existsb is_local_delete audit = false
    /\ cascade
       = (if dm then [EvPanelDelete (row_MarzbanPanelID row) name] else [])
         ++ (if ds && nonzero profile
             then [EvServerUninstall
                     (match profile with Some i => i | None => 0 end) name]
             else [])
    /\ audit
       = match loc with
         | Ret true => [EvAudit node_id (lit "DELETE") name]
         | _ => []
         end
    /\ (marzban resp = None <-> dm = false)
    /\ (dm = true -> marzban resp = Some (flag_of panel))
    /\ (server resp = None <-> ds = false)
    /\ (ds = true ->
        server resp = Some (if nonzero profile then flag_of uninst else false))
    /\ success resp = local resp
    /\ local resp = flag_of loc
    /\ length (errors resp)
       = (count (dm && layer_failed panel)
          + count (ds && (negb (nonzero profile) || layer_failed uninst))
          + count (match loc with
                   | Ret true => match log_audit env with Some _ => true | None => false end
                   | Ret false => false
                   | Raise _ => true
                   end))%nat
    /\ (forall e, dm = true -> ds = true -> panel = Raise e ->
        nonzero profile = true -> uninst = Ret true -> loc = Ret true ->
        log_audit env = None ->
        resp = {| success := true; local := true; marzban := Some false;
                  server := Some true;
                  errors := [lit "Failed to delete from Marzban: " ++ exn_msg e] |}).
Proof.
  intros Hrow name panel profile uninst loc.
  assert (E : delete_node env node_id dm ds tr
    = (Ret {| success := flag_of loc; local := flag_of loc;
              marzban := if dm then Some (flag_of panel) else None;
              server := if ds then Some (if nonzero profile then flag_of uninst else false)
                        else None;
              errors := (if dm then panel_errors name panel else [])
                        ++ (if ds then server_errors name profile uninst else [])
                        ++ local_errors loc (log_audit env) |},
       tr ++ ((if dm then [EvPanelDelete (row_MarzbanPanelID row) name] else [])
              ++ (if ds && nonzero profile
                  then [EvServerUninstall (match profile with Some i => i | None => 0 end) name]
                  else []))
          ++ [EvLocalDelete node_id]
          ++ (match loc with
              | Ret true => [EvAudit node_id (lit "DELETE") name]
              | _ => []
              end))).
  { unfold delete_node. rewrite Hrow. fold name. fold profile.
    unfold bind at 1.
    destruct dm.
    - rewrite delete_panel_layer_eq. fold panel. unfold bind at 1.
      destruct ds.
      + rewrite delete_server_layer_eq. fold uninst. cbv zeta. unfold bind at 1.
        rewrite delete_local_layer_eq. fold loc. cbv zeta. unfold ret.
        cbn -[lit panel_errors server_errors local_errors flag_of nonzero].
        rewrite <- ?app_assoc. reflexivity.
      + unfold ret at 1. unfold bind at 1.
        rewrite delete_local_layer_eq. fold loc. cbv zeta. unfold ret.
        cbn -[lit panel_errors server_errors local_errors flag_of nonzero].
        rewrite <- ?app_assoc. reflexivity.
    - unfold ret at 1. unfold bind at 1.
      destruct ds.
      + rewrite delete_server_layer_eq. fold uninst. cbv zeta. unfold bind at 1.
        rewrite delete_local_layer_eq. fold loc. cbv zeta. unfold ret.
        cbn -[lit panel_errors server_errors local_errors flag_of nonzero].
        rewrite <- ?app_assoc. reflexivity.
      + unfold ret at 1. unfold bind at 1.
        rewrite delete_local_layer_eq. fold loc. cbv zeta. unfold ret.
        cbn -[lit panel_errors server_errors local_errors flag_of nonzero].
        rewrite <- ?app_assoc. reflexivity. }
  eexists. eexists. eexists. split; [ exact E | ].
  cbn [success local marzban server errors].
  split; [ destruct dm, ds, (nonzero profile); reflexivity | ].
  split; [ destruct loc as [[|] | ?]; reflexivity | ].
  split; [ reflexivity | ].
  split; [ reflexivity | ].
  split; [ destruct dm; split; congruence | ].
  split; [ intros ->; reflexivity | ].
  split; [ destruct ds; split; congruence | ].
  split; [ intros ->; reflexivity | ].
  split; [ reflexivity | ].
  split; [ reflexivity | ].
  split.
  - rewrite !length_app.
    unfold panel_errors, server_errors, local_errors, layer_failed, count.
    destruct dm, ds, panel as [[|] | ?], (nonzero profile), uninst as [[|] | ?],
      loc as [[|] | ?], (log_audit env); reflexivity.
  - intros e -> -> Hp Hnz Hu Hl Ha.
    rewrite Hp, Hu, Hl, Ha, Hnz. unfold server_errors. rewrite Hnz. reflexivity.
Qed.

(** C3 at scenario E: the panel is unreachable, the server and the
    local deletion succeed; the panel and the server are tried first,
    the local deletion comes after them. *)
Lemma C3_delete_node_witness :
  let env := {| find_by_id_with_details :=
                  fun _ => Some {| row_NodeName := lit "edge-1";
                                   row_MarzbanPanelID := 1;
                                   row_SSHProfileID := Some 7 |};
                _delete_from_marzban :=
                  fun _ _ => Raise (Exc MarzbanConnectionError (lit "Network error: refused"));
                _uninstall_from_server := fun _ _ => Ret true;
                node_repo_delete := fun _ => Ret true;
                log_audit := None |} in
  exists resp,
    delete_node env 42 true true []
    = (Ret resp,
       [ EvPanelDelete 1 (lit "edge-1"); EvServerUninstall 7 (lit "edge-1");
         EvLocalDelete 42; EvAudit 42 (lit "DELETE") (lit "edge-1") ])
    /\ resp = {| success := true; local := true; marzban := Some false;
                 server := Some true;
                 errors := [lit "Failed to delete from Marzban: Network error: refused"] |}.
Proof.
  intros env.
  destruct (C3_delete_node_best_effort env 42 true true []
              (row := {| row_NodeName := lit "edge-1"; row_MarzbanPanelID := 1;
                         row_SSHProfileID := Some 7 |}) eq_refl)
    as (resp & cascade & audit & E & _ & _ & Hc & Ha & _ & _ & _ & _ & _ & _ & _
        & Hscen).
  exists resp. rewrite Hc, Ha in E.
  split; [ exact E | ].
  exact (Hscen _ eq_refl eq_refl eq_refl eq_refl eq_refl eq_refl eq_refl).
Defined.

End DeleteNode.

(** ** Installing a node over SSH *)

Section InstallNode.
Import SSHClient NodeManagerClient InstallHosts.
Local Open Scope Z_scope.

(** What [install_node] does before the installation command, when the
    CLI is present and the upload succeeds. *)
Lemma install_node_until_install
    (todecimal : N -> option N) (rm : Remote)
    (name cert method : pystr) (sp ap : Z) (inb : option (list pystr))
    (auto : bool) (tr : trace) (r0 : CommandResult) :
  let tr1 := tr ++ [EvExecute (lit "which marzban-node-manager") 10] in
  let tr2 := tr1 ++ [EvUploadContent cert (cert_path_of name) mode_0o600] in
  let cmd := install_command name (cert_path_of name) method sp ap inb auto in
  execute_outcome rm tr (lit "which marzban-node-manager") 10 = Ret r0 ->
  exit_code r0 = 0 ->
  upload_outcome rm tr1 cert (cert_path_of name) mode_0o600 = None ->
  install_node todecimal rm name cert sp ap method inb auto tr
  = match execute_outcome rm tr2 cmd 300 with
    | Raise e => (Raise e, tr2 ++ [EvExecute cmd 300])
    | Ret result =>
        let tr3 := tr2 ++ [EvExecute cmd 300] in
        let tr4 := tr3 ++ [EvExecute (lit "rm -f " ++ cert_path_of name) 10] in
        match execute_outcome rm tr3 (lit "rm -f " ++ cert_path_of name) 10 with
        | Raise e => (Raise e, tr4)
        | Ret _ => (Ret (_parse_install_output todecimal result name sp ap), tr4)
        end
    end.
Proof.
  intros tr1 tr2 cmd Hwhich Hexit Hup.
  unfold install_node, is_cli_installed, bind, execute, upload_content, ret.
  rewrite Hwhich, Hexit. cbn [Z.eqb negb].
  fold tr1. rewrite Hup. fold tr2. fold cmd.
  destruct (execute_outcome rm tr2 cmd 300) as [result | e]; [ | reflexivity ].
  cbv zeta.
  destruct (execute_outcome rm _ (lit "rm -f " ++ cert_path_of name) 10);
    reflexivity.
Qed.

(** C7, the second half fails on the code: when the execution of the
    installation command raises, [install_node] raises with it and the
    temporary certificate, uploaded with mode [0o600], is not removed:
    no [rm -f] is run. *)
Theorem C7_certificate_left_behind_when_install_raises :
  install_node ascii_decimal host_install_times_out
    (lit "n1") (lit "CERT") 62050 62051 (lit "docker") None false []
  = (Raise (Exc LibraryError (lit "timed out")),
     [ EvExecute (lit "which marzban-node-manager") 10;
       EvUploadContent (lit "CERT") (lit "/tmp/ssl_cert_n1.pem") 384;
       EvExecute (lit "marzban-node-manager install -n n1 -c /tmp/ssl_cert_n1.pem -m docker -y -s 62050 -x 62051") 300 ]).
Proof.
  vm_compute. reflexivity.
Qed.

(** The first half of C7 and the part of the second that the code
    does: the certificate goes to [/tmp/ssl_cert_<name>.pem] with mode
    [0o600], and whenever the installation command comes back with a
    result, whatever its exit code, [rm -f] of that file is the next
    command run. *)
Lemma install_node_removes_certificate_when_install_returns
    (todecimal : N -> option N) (rm : Remote)
    (name cert method : pystr) (sp ap : Z) (inb : option (list pystr))
    (auto : bool) (tr : trace) (r0 result : CommandResult) :
  let tr1 := tr ++ [EvExecute (lit "which marzban-node-manager") 10] in
  let tr2 := tr1 ++ [EvUploadContent cert (cert_path_of name) mode_0o600] in
  let cmd := install_command name (cert_path_of name) method sp ap inb auto in
  execute_outcome rm tr (lit "which marzban-node-manager") 10 = Ret r0 ->
  exit_code r0 = 0 ->
  upload_outcome rm tr1 cert (cert_path_of name) mode_0o600 = None ->
  execute_outcome rm tr2 cmd 300 = Ret result ->
  snd (install_node todecimal rm name cert sp ap method inb auto tr)
  = tr ++ [ EvExecute (lit "which marzban-node-manager") 10;
            EvUploadContent cert (lit "/tmp/ssl_cert_" ++ name ++ lit ".pem") 384;
            EvExecute cmd 300;
            EvExecute (lit "rm -f " ++ lit "/tmp/ssl_cert_" ++ name ++ lit ".pem") 10 ].
Proof.
  intros tr1 tr2 cmd Hwhich Hexit Hup Hinst.
  rewrite (install_node_until_install todecimal rm name cert method sp ap inb auto tr
             Hwhich Hexit Hup).
  fold tr1 tr2 cmd. rewrite Hinst. cbv zeta.
  destruct (execute_outcome rm (tr2 ++ _) _ 10); cbn [snd];
    unfold tr2, tr1, cert_path_of, mode_0o600; rewrite <- !app_assoc; reflexivity.
Qed.

End InstallNode.

(** ** The provisioning run of SSHInstallService *)

Section RunInstallation.
Import SSHInstallService InstallRunSpec.
Local Open Scope Z_scope.

(** [_run_installation] never reads [request.auto_ports]: the run is
    the same whatever the flag. *)
Lemma _run_installation_ignores_auto_ports
    (todecimal : N -> option N) (env : Env) (request : SSHInstallRequest)
    (b : bool) (ip : option pystr) (t0 t1 : JobManager.datetime) (w : World) :
  _run_installation todecimal env (with_auto_ports b request) ip t0 t1 w
  = _run_installation todecimal env request ip t0 t1 w.
Proof.
  destruct request. reflexivity.
Qed.

(** Everything after the installation step works with the ports of
    the [InstallResult]: the row inserted locally, the node created
    in the panel and the audit record carry them, and so does the
    result of the job when the step succeeds. *)
Lemma after_install_uses_returned_ports
    (env : Env) (request : SSHInstallRequest) (ip : option pystr)
    (creds : Creds) (profile : Z) (ir : NodeManagerClient.InstallResult)
    (t1 : JobManager.datetime) (w : World) :
  let sp := NodeManagerClient.service_port ir in
  let ap := NodeManagerClient.api_port ir in
  let r := after_install env request ip creds profile ir t1 w in
  exists new,
    events (snd r) = events w ++ new
    /\ Forall (carries_ports sp ap) new
    /\ (fst r = Ret tt ->
        result_ports (ij_result (the_job (snd r)))
        = Some (JobManager.VInt sp, JobManager.VInt ap)).
Proof.
  cbv zeta.
  unfold after_install, _register_node, add_log, progress_is, current_step_is,
    on_job, on_events, emit, modify, bind, ret, get, try_except, of_outcome,
    of_failure, raise.
  cbn -[lit str_of_Z app or_else given nonzero].
  destruct (insert_node env _) as [node_id | e0];
    cbn -[lit str_of_Z app or_else given nonzero].
  2:{ eexists. split; [ reflexivity | ].
      split; [ repeat constructor | discriminate ]. }
  destruct (panel_access_token env) as [token | e1];
    cbn -[lit str_of_Z app or_else given nonzero].
  - destruct (given token); cbn -[lit str_of_Z app or_else given nonzero].
    + destruct (create_node_outcome env) as [e2 |];
        cbn -[lit str_of_Z app or_else given nonzero].
      * destruct (log_audit_outcome env);
          cbn -[lit str_of_Z app or_else given nonzero];
          rewrite <- !app_assoc; eexists; (split; [ reflexivity | ]);
          (split; [ repeat constructor | try discriminate; reflexivity ]).
      * destruct (update_status_outcome env);
          cbn -[lit str_of_Z app or_else given nonzero];
          destruct (log_audit_outcome env);
          cbn -[lit str_of_Z app or_else given nonzero];
          rewrite <- !app_assoc; eexists; (split; [ reflexivity | ]);
          (split; [ repeat constructor | try discriminate; reflexivity ]).
    + destruct (log_audit_outcome env);
        cbn -[lit str_of_Z app or_else given nonzero];
        rewrite <- !app_assoc; eexists; (split; [ reflexivity | ]);
        (split; [ repeat constructor | try discriminate; reflexivity ]).
  - destruct (log_audit_outcome env);
      cbn -[lit str_of_Z app or_else given nonzero];
      rewrite <- !app_assoc; eexists; (split; [ reflexivity | ]);
      (split; [ repeat constructor | try discriminate; reflexivity ]).
Qed.

(** C1 on the code: the registration, the local row, the audit record
    and the job's result carry the ports 62060/62061 returned by the
    installation step; but the installation step itself is run with
    the requested ports on its command line although the request set
    [auto_ports]: [install_node] is called without the flag. *)
Theorem C1_run_installation_scenario :
  events scenario_run =
    [ EvFindProfileByName (lit "SSH-n1");
      EvCreateProfile {| profile_name := lit "SSH-n1";
                         profile_host := lit "10.0.0.5"; profile_port := 22;
                         profile_username := lit "root";
                         profile_password := Some (lit "pw");
                         profile_private_key := None; use_key_auth := false;
                         default_service_port := 62050;
                         default_api_port := 62051;
                         profile_install_docker := true;
                         auto_start_node := true |};
      EvGetCertificate 1;
      EvNewParamikoClient; EvSetMissingHostKeyPolicy;
      EvConnect {| kw_hostname := lit "10.0.0.5"; kw_port := 22;
                   kw_username := lit "root"; kw_timeout := 60;
                   kw_banner_timeout := 60; kw_auth_timeout := 60;
                   kw_pkey := None; kw_password := Some (lit "pw") |};
      EvExecute (lit "which marzban-node-manager") 10;
      EvExecute (lit "marzban-node-manager --version") 10;
      EvExecute (lit "which marzban-node-manager") 10;
      EvUploadContent (lit "CERT") (lit "/tmp/ssl_cert_n1.pem") 384;
      EvExecute (lit "marzban-node-manager install -n n1 -c /tmp/ssl_cert_n1.pem -m docker -y -s 62050 -x 62051") 300;
      EvExecute (lit "rm -f /tmp/ssl_cert_n1.pem") 10;
      EvInsertNode {| MarzbanPanelID := 1; NodeName := lit "n1";
                      Address := lit "10.0.0.5"; ServicePort := 62060;
                      APIPort := 62061; NodeStatusID := 20;
                      SSHProfileID := Some 7 |};
      EvPanelCreateNode (lit "n1") (lit "10.0.0.5") 62060 62061;
      EvUpdateNodeStatus 101 10;
      EvAudit 101 (lit "SSH_INSTALL") (lit "62060/62061");
      EvClose ]
  /\ ij_status (the_job scenario_run) = lit "completed"
  /\ ij_result (the_job scenario_run) =
       Some [ (lit "node_id", JobManager.VInt 101);
              (lit "node_name", JobManager.VStr (lit "n1"));
              (lit "address", JobManager.VStr (lit "10.0.0.5"));
              (lit "service_port", JobManager.VInt 62060);
              (lit "api_port", JobManager.VInt 62061);
              (lit "ssh_profile_id", JobManager.VInt 7) ].
Proof.
  vm_compute. repeat split.
Qed.

End RunInstallation.

(** ** The life of a job under the manager *)

Section JobLife.
Import JobManager JobProtocol.
Local Open Scope Z_scope.

Lemma eqb_eq a b : PyStr.eqb a b = true -> a = b.
Proof.
  unfold PyStr.eqb. destruct (list_eq_dec N.eq_dec a b); [ trivial | discriminate ].
Qed.

Lemma neutral_keeps a j : neutral a = true -> 
  status (do_action a j) = status j
  /\ result (do_action a j) = result j /\ error (do_action a j) = error j.
Proof.
  destruct a as [p [st |] | tl msg | |]; cbn; try discriminate; intros _.
  - unfold update_progress. destruct (truthy st); cbn; auto.
  - auto.
  - auto.
Qed.

Lemma step_ok_refl tr j : step_ok tr j j.
Proof. split; [ now left | intros _; repeat split ]. Qed.

Lemma resume_ok t tl m :
  inv m -> step_ok allowed_transition (job m) (job (resume t tl m)) /\ inv (resume t tl m).
Proof.
  unfold inv, resume. destruct m as [j tk]. cbn [task job].
  destruct tk as [| s | s |].
  - intros _. split; [ apply step_ok_refl | exact I ].
  - intros [Hp Hd]. cbn [job task]. split.
    + split; cbn; rewrite Hp; [ now right | discriminate ].
    + split; [ apply Hd | left; split; [ reflexivity | apply Hd ] ].
  - intros [Hc [[Hr Hd] | [Hnil Hs]]].
    + destruct (todo s) as [| a rest] eqn:Htodo; cbn [job task].
      * split; [ | exact I ].
        unfold after_task. destruct (ending s) as [| exn |].
        -- rewrite Hr. cbn. split; cbn; rewrite Hr; [ now right | discriminate ].
        -- split; cbn; rewrite Hr; [ now right | discriminate ].
        -- apply step_ok_refl.
      * destruct (neutral a) eqn:Hn.
        -- destruct (neutral_keeps a j Hn) as (Hst & _ & _).
           split.
           ++ split; [ now left | rewrite Hr; discriminate ].
           ++ cbn [todo ending on_cancel]. split; [ exact Hc | ].
              left. split; [ congruence | ].
              cbn [disciplined_actions] in Hd. destruct rest; [ reflexivity | ].
              now rewrite Hn in Hd.
        -- cbn [disciplined_actions] in Hd. rewrite Hn in Hd.
           destruct rest as [| b rest]; [ | discriminate ].
           cbn [orb] in Hd.
           split.
           ++ split; [ | rewrite Hr; discriminate ].
              right. rewrite Hr.
              destruct a; try discriminate; reflexivity.
           ++ cbn [todo ending on_cancel]. split; [ exact Hc | ].
              right. split; [ reflexivity | ].
              unfold settled. unfold final_ok in Hd.
              destruct a as [| | ? ? ? | ? ? err]; try discriminate;
                destruct (ending s) as [| exn |]; try discriminate; cbn;
                try reflexivity.
              apply eqb_eq in Hd. now subst.
    + rewrite Hnil. cbn [job task]. split; [ | exact I ].
      unfold after_task, settled in *.
      destruct (ending s) as [| exn |].
      * destruct (status j) eqn:E; try discriminate; cbn; apply step_ok_refl.
      * destruct Hs as [Hf He].
        split; [ left; cbn; now rewrite Hf | ].
        intros _. repeat split; cbn; congruence.
      * apply step_ok_refl.
  - intros _. split; [ apply step_ok_refl | exact I ].
Qed.

Lemma cancel_job_ok t tl m :
  inv m ->
  step_ok allowed_transition (job m) (job (snd (cancel_job t tl m)))
  /\ inv (snd (cancel_job t tl m)).
Proof.
  unfold inv, cancel_job. destruct m as [j tk]. cbn [task job].
  intros H.
  destruct (status j) eqn:E; cbn [snd].
  3-5: split; [ apply step_ok_refl | cbn [job task]; rewrite ?E; exact H ].
  all: destruct tk as [| s | s |]; cbn [job task].
  all: try match type of H with
           | on_cancel _ = _ /\ _ => rewrite (proj1 H); cbn [after_task]
           end.
  all: split; [ split; cbn; rewrite ?E; [ now right | discriminate ] | exact I ].
Qed.

Lemma step_ok_inv ev m :
  inv m -> step_ok allowed_transition (job m) (job (step ev m)) /\ inv (step ev m).
Proof.
  destruct ev; cbn [step]; [ apply resume_ok | apply cancel_job_ok ].
Qed.

Lemma history_chain evs : forall m,
  inv m -> chain (step_ok allowed_transition) (history evs m).
Proof.
  induction evs as [| ev evs IH]; intros m Hm; [ exact I | ].
  destruct (step_ok_inv ev m Hm) as [Hs Hi].
  specialize (IH _ Hi).
  cbn [history chain].
  destruct evs; cbn [history] in *; split; assumption.
Qed.

Lemma resume_suspended t tl : forall acts e c j,
  job (run_events (repeat (Resume t tl) (S (length acts)))
         {| job := j;
            task := Suspended {| todo := acts; ending := e; on_cancel := c |} |})
  = after_task t tl e (fold_left (fun j a => do_action a j) acts j).
Proof.
  induction acts as [| a acts IH]; intros e c j.
  - reflexivity.
  - change (repeat (Resume t tl) (S (length (a :: acts))))
      with (Resume t tl :: repeat (Resume t tl) (S (length acts))).
    unfold run_events in *. cbn [fold_left step resume task todo job ending on_cancel].
    apply IH.
Qed.

(** Resumed until it ends and never cancelled, the task of a job runs
    [_wrapped_task] from its first line to its last. *)
Lemma resumed_task_is_wrapped_task t tl t' tl' task_fn m :
  job (run_events (Resume t tl :: repeat (Resume t' tl') (S (length (todo task_fn))))
         (run_job task_fn m))
  = _wrapped_task t tl t' tl' task_fn (job m).
Proof.
  destruct task_fn as [acts e c]. unfold run_events, _wrapped_task.
  cbn [fold_left step run_job resume task job todo ending].
  apply (resume_suspended t' tl' acts e c).
Qed.




(** The wrapper of [run_job] marks the job Failed whenever the task
    raises, also when the task had completed the job before: a job can
    leave Completed.  (The completion path of the wrapper is guarded by
    the status, the failure path is not.) *)
Lemma wrapper_fails_a_completed_job :
  let task_fn := {| todo := [CallComplete 3 4 (Some [(lit "node_id", VInt 101)])];
                    ending := Raises (Exc LibraryError (lit "close failed"));
                    on_cancel := Propagates |} in
  let h := history [Resume 1 2; Resume 3 4; Resume 5 6]
             (run_job task_fn (create_job (lit "job-1") (lit "ssh_install") [] 0)) in
  List.map status h = [PENDING; RUNNING; COMPLETED; FAILED]
  /\ List.map error h = [None; None; None; Some (lit "close failed")].
Proof.
  split; reflexivity.
Qed.

End JobLife.

(** ** The retry loop of the panel client *)

Section RequestRetry.
Import MarzbanClient RetryPolicy.
Local Open Scope Z_scope.

Section Loop.
Variable panel : Panel.
Variable self : t.

Lemma backoff_eq attempt w :
  backoff self attempt w = (Ret tt, after_backoff self attempt w).
Proof.
  unfold backoff, after_backoff.
  destruct (attempt <? _max_retries self - 1); reflexivity.
Qed.

Lemma requests_after_backoff attempt w :
  requests (after_backoff self attempt w) = requests w.
Proof. unfold after_backoff. destruct (_ <? _); reflexivity. Qed.

Lemma token_posts_after_backoff attempt w :
  token_posts (after_backoff self attempt w) = token_posts w.
Proof. unfold after_backoff. destruct (_ <? _); reflexivity. Qed.

(** One turn of the loop, by the reply to its request. *)
Lemma attempts_step on_401 method endpoint attempt rest last w :
  attempts panel self on_401 method endpoint (attempt :: rest) last w
  = let w1 := sent method endpoint w in
    match api panel (requests w) with
    | HOtherHTTPError m => (Raise (Exc LibraryError m), w1)
    | HResponse r =>
        if status_code r =? 401 then on_401 w1
        else if status_code r =? 404 then
          (Raise (Exc MarzbanNotFoundError (lit "Resource not found: " ++ endpoint)), w1)
        else if status_code r >=? 500 then
          (Raise (Exc MarzbanServerError
                    (lit "Server error " ++ str_of_Z (status_code r)
                     ++ lit ": " ++ text r)), w1)
        else
          match status_error r with
          | Some m =>
              attempts panel self on_401 method endpoint rest
                (Some (Exc MarzbanClientError (lit "HTTP error: " ++ m)))
                (after_backoff self attempt w1)
          | None =>
              if has_content r then
                match json r with
                | Some v => (Ret (Some v), w1)
                | None => (Raise (Exc LibraryError (lit "JSONDecodeError")), w1)
                end
              else (Ret None, w1)
          end
    | HTimeout m =>
        attempts panel self on_401 method endpoint rest
          (Some (Exc MarzbanConnectionError (lit "Request timeout: " ++ m)))
          (after_backoff self attempt w1)
    | HNetworkError m =>
        attempts panel self on_401 method endpoint rest
          (Some (Exc MarzbanConnectionError (lit "Network error: " ++ m)))
          (after_backoff self attempt w1)
    end.
Proof.
  cbn [attempts]. unfold bind at 1. unfold send. cbv zeta.
  destruct (api panel (requests w)) as [m | m | m | r].
  - unfold bind at 1. rewrite backoff_eq. reflexivity.
  - unfold bind at 1. rewrite backoff_eq. reflexivity.
  - reflexivity.
  - destruct (status_code r =? 401); [ reflexivity | ].
    destruct (status_code r =? 404); [ reflexivity | ].
    destruct (status_code r >=? 500); [ reflexivity | ].
    destruct (status_error r) as [m |].
    + unfold bind at 1. rewrite backoff_eq. reflexivity.
    + destruct (has_content r); [ destruct (json r) | ]; reflexivity.
Qed.

(** A reply the loop retries on: the error is recorded, the wait is
    made, and the loop goes on with the attempts that are left. *)
Lemma attempts_retry on_401 method endpoint attempt rest last w err :
  retry_error (api panel (requests w)) = Some err ->
  attempts panel self on_401 method endpoint (attempt :: rest) last w
  = attempts panel self on_401 method endpoint rest (Some err)
      (after_backoff self attempt (sent method endpoint w)).
Proof.
  intros H. rewrite attempts_step. cbv zeta.
  destruct (api panel (requests w)) as [m | m | m | r]; cbn [retry_error] in H |- *.
  - injection H as <-. reflexivity.
  - injection H as <-. reflexivity.
  - discriminate.
  - destruct (status_code r =? 401); [ discriminate | ].
    destruct (status_code r =? 404); [ discriminate | ].
    destruct (status_code r >=? 500); [ discriminate | ].
    cbn [orb] in H. destruct (status_error r); [ | discriminate ].
    injection H as <-. reflexivity.
Qed.

(** The loop sends at most one request per attempt, plus what a 401
    leads to. *)
Lemma attempts_requests_bound on_401 (K : nat) method endpoint :
  (forall w, (requests (snd (on_401 w)) <= requests w + K)%nat) ->
  forall todo last w,
    (requests (snd (attempts panel self on_401 method endpoint todo last w))
     <= requests w + length todo + K)%nat.
Proof.
  intros HK todo. induction todo as [| attempt rest IH]; intros last w.
  - cbn. lia.
  - rewrite attempts_step. cbv zeta.
    assert (Hgo : forall err,
      (requests (snd (attempts panel self on_401 method endpoint rest err
                        (after_backoff self attempt (sent method endpoint w))))
       <= requests w + length (attempt :: rest) + K)%nat).
    { intros err. specialize (IH err (after_backoff self attempt (sent method endpoint w))).
      rewrite requests_after_backoff in IH. cbn [sent requests length] in *. lia. }
    destruct (api panel (requests w)) as [m | m | m | r]; cbn [retry_error].
    + apply Hgo.
    + apply Hgo.
    + cbn. lia.
    + destruct (status_code r =? 401).
      { specialize (HK (sent method endpoint w)). cbn [sent requests length] in *. lia. }
      destruct (status_code r =? 404); [ cbn; lia | ].
      destruct (status_code r >=? 500); [ cbn; lia | ].
      destruct (status_error r); [ apply Hgo | ].
      destruct (has_content r); [ destruct (json r) | ]; cbn; lia.
Qed.

Lemma attempts_posts_bound on_401 (K : nat) method endpoint :
  (forall w, (token_posts (snd (on_401 w)) <= token_posts w + K)%nat) ->
  forall todo last w,
    (token_posts (snd (attempts panel self on_401 method endpoint todo last w))
     <= token_posts w + K)%nat.
Proof.
  intros HK todo. induction todo as [| attempt rest IH]; intros last w.
  - cbn. lia.
  - rewrite attempts_step. cbv zeta.
    assert (Hgo : forall err,
      (token_posts (snd (attempts panel self on_401 method endpoint rest err
                        (after_backoff self attempt (sent method endpoint w))))
       <= token_posts w + K)%nat).
    { intros err. specialize (IH err (after_backoff self attempt (sent method endpoint w))).
      rewrite token_posts_after_backoff in IH. cbn [sent token_posts] in *. lia. }
    destruct (api panel (requests w)) as [m | m | m | r]; cbn [retry_error].
    + apply Hgo.
    + apply Hgo.
    + cbn. lia.
    + destruct (status_code r =? 401).
      { specialize (HK (sent method endpoint w)). cbn [sent token_posts] in *. lia. }
      destruct (status_code r =? 404); [ cbn; lia | ].
      destruct (status_code r >=? 500); [ cbn; lia | ].
      destruct (status_error r); [ apply Hgo | ].
      destruct (has_content r); [ destruct (json r) | ]; cbn; lia.
Qed.

Lemma authenticate_counts w :
  requests (snd (authenticate panel self w)) = requests w
  /\ (token_posts (snd (authenticate panel self w)) <= token_posts w + 1)%nat.
Proof.
  unfold authenticate.
  destruct (negb (given (username self)) || negb (given (password self)));
    [ cbn; lia | ].
  destruct (token_api panel (token_posts w)) as [m | m | m | r]; try (cbn; lia).
  destruct (status_code r =? 401); [ cbn; lia | ].
  destruct (status_error r); [ cbn; lia | ].
  destruct (json r); cbn; lia.
Qed.

(** After a successful [authenticate] the cached token is fresh: the
    next [_ensure_authenticated] does nothing. *)
Lemma ensure_after_authenticate w ti w' :
  authenticate panel self w = (Ret ti, w') ->
  _ensure_authenticated panel self w' = (Ret tt, w').
Proof.
  unfold authenticate.
  destruct (negb (given (username self)) || negb (given (password self)));
    [ discriminate | ].
  destruct (token_api panel (token_posts w)) as [m | m | m | r]; try discriminate.
  destruct (status_code r =? 401); [ discriminate | ].
  destruct (status_error r); [ discriminate | ].
  destruct (json r) as [tok |]; [ | discriminate ].
  intros H. injection H as <- <-.
  unfold _ensure_authenticated, bind, get. cbn [_token now].
  unfold is_expired. cbn [expires_at].
  assert (E : (now w >=? now w + timedelta_hours 24 - timedelta_minutes 5) = false).
  { rewrite Z.geb_leb. apply Z.leb_gt. unfold timedelta_hours, timedelta_minutes. lia. }
  rewrite E. reflexivity.
Qed.

Lemma ensure_counts w :
  requests (snd (_ensure_authenticated panel self w)) = requests w
  /\ (token_posts (snd (_ensure_authenticated panel self w)) <= token_posts w + 1)%nat.
Proof.
  unfold _ensure_authenticated, bind, get.
  destruct (authenticate_counts w) as [Hr Hp].
  destruct (_token w) as [tk |].
  - destruct (is_expired (now w) tk).
    + destruct (authenticate panel self w) as [[ti | e] w']; cbn in *; lia.
    + cbn. lia.
  - destruct (authenticate panel self w) as [[ti | e] w']; cbn in *; lia.
Qed.

Lemma length_range n : length (range n) = Z.to_nat n.
Proof. unfold range. now rewrite length_map, length_seq. Qed.

Lemma nth_range n k d :
  (k < Z.to_nat n)%nat -> nth k (range n) d = Z.of_nat k.
Proof.
  intros H. unfold range.
  rewrite (nth_indep _ d (Z.of_nat 0)) by (now rewrite length_map, length_seq).
  rewrite map_nth. f_equal. now rewrite seq_nth.
Qed.

(** [_request] is its loop, entered after [_ensure_authenticated];
    with [retry_auth] a 401 leads to [authenticate()] and then to the
    call without [retry_auth]. *)
Lemma _request_unfold method endpoint :
  _request panel self method endpoint false
  = (_ensure_authenticated panel self ;;
     attempts panel self raise_auth_failed method endpoint
       (range (_max_retries self)) None)%monad
  /\ _request panel self method endpoint true
     = (_ensure_authenticated panel self ;;
        attempts panel self
          (authenticate panel self ;; _request panel self method endpoint false)
          method endpoint (range (_max_retries self)) None)%monad.
Proof. split; reflexivity. Qed.

Lemma request_false_counts method endpoint w :
  (requests (snd (_request panel self method endpoint false w))
   <= requests w + Z.to_nat (_max_retries self))%nat
  /\ (token_posts (snd (_request panel self method endpoint false w))
      <= token_posts w + 1)%nat.
Proof.
  destruct (_request_unfold method endpoint) as [-> _].
  unfold bind.
  destruct (ensure_counts w) as [Hr Hp].
  destruct (_ensure_authenticated panel self w) as [[[] | e] w1]; cbn [snd] in *.
  - split.
    + pose proof (attempts_requests_bound raise_auth_failed 0 method endpoint
                    (fun w => Nat.eq_le_incl _ _ (eq_sym (Nat.add_0_r _)))
                    (range (_max_retries self)) None w1) as H.
      rewrite length_range in H. lia.
    + pose proof (attempts_posts_bound raise_auth_failed 0 method endpoint
                    (fun w => Nat.eq_le_incl _ _ (eq_sym (Nat.add_0_r _)))
                    (range (_max_retries self)) None w1) as H.
      lia.
  - lia.
Qed.

(** What a 401 leads to under [retry_auth]: at most one token request
    and at most [_max_retries] further requests. *)
Lemma reauthenticate_counts method endpoint w :
  let on_401 := (authenticate panel self ;;
                 _request panel self method endpoint false)%monad in
  (requests (snd (on_401 w)) <= requests w + Z.to_nat (_max_retries self))%nat
  /\ (token_posts (snd (on_401 w)) <= token_posts w + 1)%nat.
Proof.
  cbv zeta. unfold bind.
  destruct (authenticate_counts w) as [Hr Hp].
  destruct (authenticate panel self w) as [[ti | e] w1] eqn:Ha; cbn [snd] in *;
    [ | lia ].
  destruct (_request_unfold method endpoint) as [-> _].
  unfold bind.
  rewrite (ensure_after_authenticate w Ha).
  pose proof (attempts_requests_bound raise_auth_failed 0 method endpoint
                (fun w => Nat.eq_le_incl _ _ (eq_sym (Nat.add_0_r _)))
                (range (_max_retries self)) None w1) as H1.
  pose proof (attempts_posts_bound raise_auth_failed 0 method endpoint
                (fun w => Nat.eq_le_incl _ _ (eq_sym (Nat.add_0_r _)))
                (range (_max_retries self)) None w1) as H2.
  rewrite length_range in H1. split; lia.
Qed.

Lemma request_true_counts method endpoint w :
  (requests (snd (_request panel self method endpoint true w))
   <= requests w + 2 * Z.to_nat (_max_retries self))%nat.
Proof.
  destruct (_request_unfold method endpoint) as [_ ->].
  unfold bind at 1.
  destruct (ensure_counts w) as [Hr Hp].
  destruct (_ensure_authenticated panel self w) as [[[] | e] w1]; cbn [snd] in *;
    [ | lia ].
  pose proof (attempts_requests_bound _ (Z.to_nat (_max_retries self)) method endpoint
                (fun w => proj1 (reauthenticate_counts method endpoint w))
                (range (_max_retries self)) None w1) as H.
  rewrite length_range in H. lia.
Qed.

(** When every attempt ends in an error the loop retries on, the loop
    raises the error of the last attempt. *)
Lemma attempts_exhausted on_401 method endpoint :
  forall todo last w,
    (forall i, (i < length todo)%nat ->
               retry_error (api panel (requests w + i)) <> None) ->
    fst (attempts panel self on_401 method endpoint todo last w)
    = Raise (match (match todo with
                    | [] => last
                    | _ :: _ => retry_error (api panel (requests w + length todo - 1))
                    end) with
             | Some e => e
             | None => Exc MarzbanConnectionError (lit "Max retries exceeded")
             end)
    /\ requests (snd (attempts panel self on_401 method endpoint todo last w))
       = (requests w + length todo)%nat.
Proof.
  induction todo as [| attempt rest IH]; intros last w H.
  - cbn. split; [ reflexivity | lia ].
  - destruct (retry_error (api panel (requests w))) as [err |] eqn:E.
    2:{ exfalso. apply (H 0%nat); [ cbn; lia | ]. now rewrite Nat.add_0_r. }
    rewrite (attempts_retry on_401 method endpoint attempt rest last w E).
    set (w2 := after_backoff self attempt (sent method endpoint w)).
    assert (Hw2 : requests w2 = S (requests w))
      by (unfold w2; now rewrite requests_after_backoff).
    destruct (IH (Some err) w2) as [Hf Hn].
    { intros i Hi. rewrite Hw2.
      replace (S (requests w) + i)%nat with (requests w + S i)%nat by lia.
      apply H. cbn. lia. }
    split.
    + rewrite Hf. destruct rest as [| b rest'].
      * cbn [length]. replace (requests w + 1 - 1)%nat with (requests w) by lia.
        now rewrite E.
      * rewrite Hw2. cbn [length].
        replace (S (requests w) + S (length rest') - 1)%nat
          with (requests w + S (S (length rest')) - 1)%nat by lia.
        reflexivity.
    + rewrite Hn, Hw2. cbn [length]. lia.
Qed.

End Loop.

(** A response with a status of 500 or more ends the call at once:
    [MarzbanServerError] is raised inside the loop and none of its
    handlers catches it. *)
Lemma attempts_server_error (panel : Panel) (self : t) on_401 method endpoint
    attempt rest last w r :
  api panel (requests w) = HResponse r -> status_code r >= 500 ->
  attempts panel self on_401 method endpoint (attempt :: rest) last w
  = (Raise (Exc MarzbanServerError
              (lit "Server error " ++ str_of_Z (status_code r) ++ lit ": " ++ text r)),
     sent method endpoint w).
Proof.
  intros Hr Hc. rewrite attempts_step. cbv zeta. rewrite Hr.
  destruct (Z.eqb_spec (status_code r) 401) as [E | _]; [ lia | ].
  destruct (Z.eqb_spec (status_code r) 404) as [E | _]; [ lia | ].
  replace (status_code r >=? 500) with true; [ reflexivity | ].
  symmetry. rewrite Z.geb_leb. apply Z.leb_le. lia.
Qed.

(** With a usable token, at least one attempt allowed and every
    attempt ending in an error the loop retries on, [_request] raises
    the error of the last attempt after [_max_retries] requests. *)
Lemma request_exhausted (panel : Panel) (self : t) method endpoint retry_auth w :
  _ensure_authenticated panel self w = (Ret tt, w) ->
  0 < _max_retries self ->
  (forall i, (i < Z.to_nat (_max_retries self))%nat ->
             retry_error (api panel (requests w + i)) <> None) ->
  exists err,
    retry_error (api panel (requests w + Z.to_nat (_max_retries self) - 1)) = Some err
    /\ fst (_request panel self method endpoint retry_auth w) = Raise err
    /\ requests (snd (_request panel self method endpoint retry_auth w))
       = (requests w + Z.to_nat (_max_retries self))%nat.
Proof.
  intros Hens Hpos Hall.
  assert (Hne : range (_max_retries self) <> []).
  { intros E. apply (f_equal (@length Z)) in E. rewrite length_range in E.
    cbn in E. lia. }
  assert (Hex : forall on_401, exists err,
    retry_error (api panel (requests w + Z.to_nat (_max_retries self) - 1)) = Some err
    /\ fst (attempts panel self on_401 method endpoint
              (range (_max_retries self)) None w) = Raise err
    /\ requests (snd (attempts panel self on_401 method endpoint
                        (range (_max_retries self)) None w))
       = (requests w + Z.to_nat (_max_retries self))%nat).
  { intros on_401.
    destruct (attempts_exhausted panel self on_401 method endpoint
                (range (_max_retries self)) None w) as [Hf Hn].
    { now rewrite length_range. }
    rewrite length_range in Hf, Hn.
    destruct (range (_max_retries self)) as [| a rest]; [ congruence | ].
    destruct (retry_error (api panel (requests w + Z.to_nat (_max_retries self) - 1)))
      as [err |] eqn:E.
    - exists err. repeat split; assumption.
    - exfalso. apply (Hall (Z.to_nat (_max_retries self) - 1)%nat); [ lia | ].
      replace (requests w + (Z.to_nat (_max_retries self) - 1))%nat
        with (requests w + Z.to_nat (_max_retries self) - 1)%nat by lia.
      exact E. }
  destruct (_request_unfold panel self method endpoint) as [Ef Et].
  destruct retry_auth.
  - rewrite Et. unfold bind at 1 3. rewrite Hens. apply Hex.
  - rewrite Ef. unfold bind at 1 2. rewrite Hens. apply Hex.
Qed.

(** C2, as amended: one run of the loop of [_request] sends at most
    [_max_retries] requests, so a call without [retry_auth] sends at
    most [_max_retries] and a call with it at most twice as many; a
    timeout, a network error and an HTTP status error other than 401,
    404 and 5xx are recorded, followed by a wait of [2 ** attempt]
    seconds unless the attempt was the last one, and the loop goes on;
    a 404 raises the not-found error at once; a 401 under [retry_auth]
    leads to one [authenticate()] (at most one token request) and to
    the same call without [retry_auth], started afresh, in which a 401
    raises the authentication error; and when every attempt of the
    loop ends in an error it retries on, the error of the last attempt
    is raised. *)
Theorem C2_request_retry_policy
    (panel : Panel) (self : t) (method endpoint : pystr) :
  let request := _request panel self method endpoint in
  let loop := attempts panel self in
  let reauthenticate := (authenticate panel self ;; request false)%monad in
  (forall w, (made w (snd (request false w)) <= Z.to_nat (_max_retries self))%nat)
  /\ (forall w, (made w (snd (request true w)) <= 2 * Z.to_nat (_max_retries self))%nat)
  /\ request false
     = (_ensure_authenticated panel self ;;
        loop raise_auth_failed method endpoint (range (_max_retries self)) None)%monad
  /\ request true
     = (_ensure_authenticated panel self ;;
        loop reauthenticate method endpoint (range (_max_retries self)) None)%monad
  /\ (forall k d, (k < Z.to_nat (_max_retries self))%nat ->
        nth k (range (_max_retries self)) d = Z.of_nat k)
  /\ (forall on_401 attempt rest last w err,
        retry_error (api panel (requests w)) = Some err ->
        loop on_401 method endpoint (attempt :: rest) last w
        = loop on_401 method endpoint rest (Some err)
            (after_backoff self attempt (sent method endpoint w)))
  /\ (forall attempt w,
        after_backoff self attempt w
        = if attempt <? _max_retries self - 1 then slept (2 ^ attempt) w else w)
  /\ (forall on_401 attempt rest last w r,
        api panel (requests w) = HResponse r -> status_code r = 404 ->
        loop on_401 method endpoint (attempt :: rest) last w
        = (Raise (Exc MarzbanNotFoundError (lit "Resource not found: " ++ endpoint)),
           sent method endpoint w))
  /\ (forall attempt rest last w r,
        api panel (requests w) = HResponse r -> status_code r = 401 ->
        loop reauthenticate method endpoint (attempt :: rest) last w
        = reauthenticate (sent method endpoint w)
        /\ (posted (sent method endpoint w)
              (snd (reauthenticate (sent method endpoint w))) <= 1)%nat
        /\ loop raise_auth_failed method endpoint (attempt :: rest) last w
           = (Raise (Exc MarzbanAuthError (lit "Authentication failed")),
              sent method endpoint w))
  /\ (forall on_401 todo last w,
        todo <> [] ->
        (forall i, (i < length todo)%nat ->
                   retry_error (api panel (requests w + i)) <> None) ->
        exists err,
          retry_error (api panel (requests w + length todo - 1)) = Some err
          /\ fst (loop on_401 method endpoint todo last w) = Raise err
          /\ made w (snd (loop on_401 method endpoint todo last w)) = length todo).
Proof.
  cbv zeta.
  split; [ intros w; unfold made;
           pose proof (proj1 (request_false_counts panel self method endpoint w)); lia | ].
  split; [ intros w; unfold made;
           pose proof (request_true_counts panel self method endpoint w); lia | ].
  split; [ reflexivity | ].
  split; [ reflexivity | ].
  split; [ intros k d; apply nth_range | ].
  split; [ intros on_401 attempt rest last w err; apply attempts_retry | ].
  split; [ reflexivity | ].
  split.
  { intros on_401 attempt rest last w r Hr Hc.
    rewrite attempts_step. cbv zeta. rewrite Hr, Hc. reflexivity. }
  split.
  { intros attempt rest last w r Hr Hc. repeat split.
    - rewrite attempts_step. cbv zeta. rewrite Hr, Hc. reflexivity.
    - unfold posted.
      pose proof (proj2 (reauthenticate_counts panel self method endpoint
                           (sent method endpoint w))) as H.
      cbv zeta in H. lia.
    - rewrite attempts_step. cbv zeta. rewrite Hr, Hc. reflexivity. }
  intros on_401 todo last w Hne Hall.
  destruct (attempts_exhausted panel self on_401 method endpoint todo last w Hall)
    as [Hf Hn].
  destruct todo as [| a rest]; [ congruence | ].
  destruct (retry_error (api panel (requests w + length (a :: rest) - 1)))
    as [err |] eqn:E.
  - exists err. repeat split; [ exact Hf | unfold made; rewrite Hn; lia ].
  - exfalso. apply (Hall (length rest)); [ cbn; lia | ].
    cbn [length] in E. replace (requests w + length rest)%nat
      with (requests w + S (length rest) - 1)%nat by lia. exact E.
Qed.

(** C2 at three failed attempts: the error of the third is raised. *)
Lemma C2_request_retry_policy_witness :
  fst (attempts flaky_panel (admin 3) raise_auth_failed GET nodes_endpoint
         (range 3) None world0)
  = Raise (Exc MarzbanConnectionError (lit "Request timeout: c")).
Proof.
  destruct (C2_request_retry_policy flaky_panel (admin 3) GET nodes_endpoint)
    as (_ & _ & _ & _ & _ & _ & _ & _ & _ & Hex).
  destruct (Hex raise_auth_failed (range 3) None world0) as (err & He & Hf & _).
  - discriminate.
  - intros i Hi.
    destruct i as [| [| [| i]]]; [ discriminate | discriminate | discriminate | ].
    exfalso. change (length (range 3)) with 3%nat in Hi. lia.
  - rewrite Hf. cbn in He. injection He as <-. reflexivity.
Defined.

(** C2, as stated, fails on the number of attempts: with
    [_max_retries = 2], a timeout, then a 401, then two timeouts make
    four requests, because the call restarted after the
    re-authentication has its own two attempts. *)
Lemma C2_more_attempts_than_max_retries :
  let r := _request reauth_panel (admin 2) GET nodes_endpoint true world0 in
  fst r = Raise (Exc MarzbanConnectionError (lit "Request timeout: t"))
  /\ requests (snd r) = 4%nat
  /\ token_posts (snd r) = 1%nat
  /\ ~ (made world0 (snd r) <= Z.to_nat (_max_retries (admin 2)))%nat.
Proof.
  vm_compute. repeat split. intros H.
  repeat (apply le_S_n in H). inversion H.
Qed.

(** A 5xx response is not retried: [MarzbanServerError] is raised
    inside the loop and no handler of the loop catches it. *)
Lemma server_error_is_not_retried :
  let panel := {| api := fun _ => status_reply 503; token_api := fun _ => token_reply |} in
  let r := _request panel (admin 3) GET nodes_endpoint true world0 in
  fst r = Raise (Exc MarzbanServerError (lit "Server error 503: body"))
  /\ requests (snd r) = 1%nat
  /\ log (snd r) = [HRequest GET nodes_endpoint (Some (lit "tok1"))].
Proof.
  vm_compute. repeat split.
Qed.

End RequestRetry.

(** ** Parsing the output of the installation *)

Section ParseInstallOutput.
Import Re SSHClient NodeManagerClient PortLabels.
Local Open Scope Z_scope.

Section WithDecimalTable.
Variable todecimal : N -> option N.

Lemma m_seq_chars label pat k gs : forall t,
  m_seq (chars label ++ pat) k gs t
  = match strip_prefix label t with
    | Some u => m_seq pat k gs u
    | None => None
    end.
Proof.
  induction label as [| a label IH]; intros t; [ reflexivity | ].
  cbn [chars List.map app m_seq fold_right m chr]. fold (chars label).
  fold (m_seq (chars label ++ pat) k).
  unfold one. destruct t as [| b t]; [ reflexivity | ].
  cbn [strip_prefix]. destruct (a =? b)%N; [ apply IH | reflexivity ].
Qed.

(** Greedy repetition followed by something that cannot start with a
    character of the class: nothing is given back. *)
Lemma star_disjoint p (k : cont) gs :
  (forall c s', p c = true -> k gs (c :: s') = None) ->
  forall s, star p k gs s = k gs (drop_while p s).
Proof.
  intros Hk. induction s as [| c s IH]; [ reflexivity | ].
  cbn [star drop_while]. destruct (p c) eqn:E; [ | reflexivity ].
  rewrite IH. destruct (k gs (drop_while p s)); [ reflexivity | ].
  now apply Hk.
Qed.

Lemma star_greedy p (k : cont) gs r :
  forall s, k gs (drop_while p s) = Some r -> star p k gs s = Some r.
Proof.
  induction s as [| c s IH]; intros H; [ exact H | ].
  cbn [star drop_while] in *. destruct (p c); [ | exact H ].
  now rewrite (IH H).
Qed.

Lemma length_drop_while p : forall s : pystr,
  (length (drop_while p s) <= length s)%nat.
Proof.
  induction s as [| c s IH]; cbn; [ lia | ].
  destruct (p c); cbn; lia.
Qed.

Lemma firstn_take_while p : forall s : pystr,
  firstn (length s - length (drop_while p s)) s = take_while p s.
Proof.
  induction s as [| c s IH]; [ reflexivity | ].
  cbn [drop_while take_while]. destruct (p c).
  - pose proof (length_drop_while p s).
    replace (length (c :: s) - length (drop_while p s))%nat
      with (S (length s - length (drop_while p s))) by (cbn [length]; lia).
    cbn [firstn]. now rewrite IH.
  - now rewrite Nat.sub_diag.
Qed.

(** [(\d+)] at the end of a pattern. *)
Lemma digits_group gs s :
  m (Group [Cls (is_digit todecimal) Plus]) accept gs s
  = match s with
    | d :: v =>
        if is_digit todecimal d
        then Some ((d :: take_while (is_digit todecimal) v) :: gs,
                   drop_while (is_digit todecimal) v)
        else None
    | [] => None
    end.
Proof.
  cbn [m]. unfold one. destruct s as [| d v]; [ reflexivity | ].
  destruct (is_digit todecimal d) eqn:E; [ | reflexivity ].
  apply star_greedy. unfold close_group, accept.
  pose proof (length_drop_while (is_digit todecimal) v).
  replace (length (d :: v) - length (drop_while (is_digit todecimal) v))%nat
    with (S (length v - length (drop_while (is_digit todecimal) v)))
    by (cbn [length]; lia).
  cbn [firstn]. now rewrite firstn_take_while.
Qed.

(** No character is both whitespace and a decimal digit. *)
Hypothesis digits_are_not_spaces :
  forall c, is_space c = true -> todecimal c = None.

Lemma match_at_port_re label t :
  option_map group1 (match_at (port_re todecimal label) t)
  = labelled_value_here todecimal label t.
Proof.
  unfold match_at, port_re, labelled_value_here.
  rewrite m_seq_chars.
  destruct (strip_prefix label t) as [[| c u] |]; try reflexivity.
  cbn [m_seq fold_right].
  change (m (Cls is_space Plus) ?k) with (one is_space (star is_space k)).
  unfold one at 1.
  destruct (is_space c); [ | reflexivity ].
  rewrite star_disjoint.
  - rewrite digits_group.
    destruct (drop_while is_space u) as [| d v]; [ reflexivity | ].
    destruct (is_digit todecimal d); reflexivity.
  - intros c' s' Hc'. rewrite digits_group.
    unfold is_digit. now rewrite (digits_are_not_spaces c' Hc').
Qed.

Lemma search_port_re label : forall s,
  option_map group1 (search (port_re todecimal label) s) = first_labelled_value todecimal label s.
Proof.
  induction s as [| c s IH].
  - cbn [search first_labelled_value]. rewrite <- match_at_port_re.
    destruct (match_at (port_re todecimal label) []); reflexivity.
  - cbn [search first_labelled_value]. rewrite <- match_at_port_re.
    destruct (match_at (port_re todecimal label) (c :: s)); [ reflexivity | exact IH ].
Qed.

End WithDecimalTable.

Lemma ascii_digits_are_not_spaces c :
  is_space c = true -> ascii_decimal c = None.
Proof.
  unfold ascii_decimal, is_space, in_range. intros H.
  destruct ((48 <=? c)%N && (c <=? 57)%N) eqn:E; [ | reflexivity ].
  apply andb_prop in E. destruct E as [E1 E2].
  apply N.leb_le in E1, E2.
  repeat (apply orb_prop in H; destruct H as [H | H]);
    try (apply andb_prop in H; destruct H as [H1 H2]; apply N.leb_le in H1, H2; lia);
    try (apply N.eqb_eq in H; lia).
Qed.

(** C4, as amended: the control sequences are stripped from stdout
    followed by stderr; the service port is the value of the first
    [SERVICE_PORT:] label of the stripped text that is followed by
    whitespace and digits, and the requested port when there is none;
    likewise the API port with [XRAY_API_PORT:]; with a non-zero exit
    code the result is a failure that carries these ports and, as its
    error, the stripped text without the whitespace around it, or
    "Installation failed" when nothing is left of it; with exit code 0
    it is a success without error. *)
Theorem C4_parse_install_output_ports_and_error
    (todecimal : N -> option N) (result : CommandResult) (name : pystr)
    (requested_service_port requested_api_port : Z) :
  (forall c, is_space c = true -> todecimal c = None) ->
  let clean := _strip_ansi (stdout result ++ stderr result) in
  let r := _parse_install_output todecimal result name
             requested_service_port requested_api_port in
  service_port r
  = match first_labelled_value todecimal (lit "SERVICE_PORT:") clean with
    | Some digits => int_of_digits todecimal digits
    | None => requested_service_port
    end
  /\ api_port r
     = match first_labelled_value todecimal (lit "XRAY_API_PORT:") clean with
       | Some digits => int_of_digits todecimal digits
       | None => requested_api_port
       end
  /\ node_name r = name
  /\ (exit_code result <> 0 ->
      success r = false
      /\ error r = Some (match strip clean with
                         | [] => lit "Installation failed"
                         | c :: s => c :: s
                         end))
  /\ (exit_code result = 0 -> success r = true /\ error r = None).
Proof.
  intros Hd clean r.
  assert (Hs : service_port r
    = match search (service_port_re todecimal) clean with
      | Some mt => int_of_digits todecimal (group1 mt)
      | None => requested_service_port
      end).
  { unfold r, _parse_install_output. fold clean.
    destruct (negb (exit_code result =? 0)); reflexivity. }
  assert (Ha : api_port r
    = match search (api_port_re todecimal) clean with
      | Some mt => int_of_digits todecimal (group1 mt)
      | None => requested_api_port
      end).
  { unfold r, _parse_install_output. fold clean.
    destruct (negb (exit_code result =? 0)); reflexivity. }
  split.
  { rewrite Hs. rewrite <- (search_port_re todecimal Hd (lit "SERVICE_PORT:") clean).
    change (port_re todecimal (lit "SERVICE_PORT:")) with (service_port_re todecimal).
    destruct (search (service_port_re todecimal) clean); reflexivity. }
  split.
  { rewrite Ha. rewrite <- (search_port_re todecimal Hd (lit "XRAY_API_PORT:") clean).
    change (port_re todecimal (lit "XRAY_API_PORT:")) with (api_port_re todecimal).
    destruct (search (api_port_re todecimal) clean); reflexivity. }
  split.
  { unfold r, _parse_install_output.
    destruct (negb (exit_code result =? 0)); reflexivity. }
  split.
  - intros Hne. unfold r, _parse_install_output. fold clean.
    destruct (Z.eqb_spec (exit_code result) 0) as [E | E]; [ contradiction | ].
    cbn [negb success error]. split; [ reflexivity | ].
    destruct (strip clean); reflexivity.
  - intros He. unfold r, _parse_install_output. fold clean.
    rewrite He. cbn [Z.eqb negb success error]. split; reflexivity.
Qed.

(** C4 at the example output, with other ports requested and a
    non-zero exit code. *)
Lemma C4_parse_install_output_witness :
  let r := _parse_install_output ascii_decimal
             {| stdout := example_output; stderr := lit "warning"; exit_code := 1 |}
             (lit "n1") 62050 62051 in
  service_port r = 62060 /\ api_port r = 62061 /\ success r = false.
Proof.
  intros r.
  destruct (C4_parse_install_output_ports_and_error ascii_decimal
              {| stdout := example_output; stderr := lit "warning"; exit_code := 1 |}
              (lit "n1") 62050 62051 ascii_digits_are_not_spaces)
    as (Hs & Ha & _ & Hf & _).
  fold r in Hs, Ha, Hf.
  split; [ rewrite Hs; vm_compute; reflexivity | ].
  split; [ rewrite Ha; vm_compute; reflexivity | ].
  apply Hf. discriminate.
Defined.

(** C4, as stated, fails on the error message: with nothing on stdout
    and stderr the stripped output is empty and the error is
    "Installation failed"; and the whitespace around the stripped
    output is not kept. *)
Lemma C4_error_is_not_the_cleaned_output :
  let silent := {| stdout := []; stderr := []; exit_code := 1 |} in
  let padded := {| stdout := lit "boom" ++ [10%N]; stderr := []; exit_code := 1 |} in
  error (_parse_install_output ascii_decimal silent (lit "n1") 62050 62051)
  = Some (lit "Installation failed")
  /\ error (_parse_install_output ascii_decimal silent (lit "n1") 62050 62051)
     <> Some (_strip_ansi (stdout silent ++ stderr silent))
  /\ error (_parse_install_output ascii_decimal padded (lit "n1") 62050 62051)
     = Some (lit "boom")
  /\ error (_parse_install_output ascii_decimal padded (lit "n1") 62050 62051)
     <> Some (_strip_ansi (stdout padded ++ stderr padded)).
Proof.
  vm_compute. repeat split; discriminate.
Qed.

End ParseInstallOutput.

(** ** What a job keeps, whatever its task does *)

Section JobKeeps.
Import JobManager JobProtocol JobInvariants.
Local Open Scope Z_scope.

Lemma update_progress_bounds p st j : within_bounds (update_progress p st j).
Proof.
  unfold within_bounds, update_progress.
  destruct st as [st |]; [ destruct (truthy st) | ]; cbn; lia.
Qed.

Lemma do_action_bounds a j : within_bounds j -> within_bounds (do_action a j).
Proof.
  intros H. destruct a; cbn [do_action].
  - apply update_progress_bounds.
  - exact H.
  - unfold within_bounds. cbn. lia.
  - exact H.
Qed.

Lemma after_task_bounds t tl e j : within_bounds j -> within_bounds (after_task t tl e j).
Proof.
  intros H. unfold after_task. destruct e; [ | exact H | exact H ].
  destruct (status_eqb (status j) RUNNING); [ | exact H ].
  unfold within_bounds. cbn. lia.
Qed.

Lemma step_bounds ev m : within_bounds (job m) -> within_bounds (job (step ev m)).
Proof.
  intros H. destruct ev as [t tl | t tl]; cbn [step].
  - unfold resume. destruct (task m) as [| s | s |]; cbn [job]; try exact H.
    destruct (todo s); cbn [job].
    + now apply after_task_bounds.
    + now apply do_action_bounds.
  - unfold cancel_job.
    destruct (status (job m)); cbn [snd]; try exact H;
      destruct (task m); cbn [job]; try exact H;
      apply (after_task_bounds t tl (on_cancel s) H).
Qed.

(** Under any task and any order of task steps and cancellations, the
    progress of a job made by [create_job] stays within 0 and 100. *)
Theorem job_progress_stays_within_bounds
    (id type : pystr) (meta : pydict) (now : datetime)
    (task_fn : Script) (evs : list MgrEvent) :
  Forall within_bounds (history evs (run_job task_fn (create_job id type meta now))).
Proof.
  assert (H : forall evs m, within_bounds (job m) -> Forall within_bounds (history evs m)).
  { clear. induction evs as [| ev evs IH]; intros m Hm; cbn [history].
    - constructor; [ exact Hm | constructor ].
    - constructor; [ exact Hm | ]. apply IH. now apply step_bounds. }
  apply H. unfold within_bounds. cbn. lia.
Qed.

Lemma extends_refl j : extends j j.
Proof. exists []. now rewrite app_nil_r. Qed.

Lemma extends_trans a b c : extends a b -> extends b c -> extends a c.
Proof.
  intros [x Hx] [y Hy]. exists (x ++ y). now rewrite Hy, Hx, app_assoc.
Qed.

Lemma do_action_extends a j : extends j (do_action a j).
Proof.
  destruct a as [p st | tl msg | t tl r | t tl e]; cbn [do_action].
  - unfold update_progress. destruct st as [st |]; [ destruct (truthy st) | ];
      exists []; cbn; now rewrite app_nil_r.
  - eexists. reflexivity.
  - eexists. reflexivity.
  - eexists. reflexivity.
Qed.

Lemma after_task_extends t tl e j : extends j (after_task t tl e j).
Proof.
  unfold after_task. destruct e.
  - destruct (status_eqb (status j) RUNNING); [ eexists; reflexivity | apply extends_refl ].
  - eexists. reflexivity.
  - apply extends_refl.
Qed.

Lemma step_extends ev m : extends (job m) (job (step ev m)).
Proof.
  destruct ev as [t tl | t tl]; cbn [step].
  - unfold resume. destruct (task m) as [| s | s |]; cbn [job];
      try apply extends_refl.
    + eexists. reflexivity.
    + destruct (todo s); cbn [job];
        [ apply after_task_extends | apply do_action_extends ].
  - unfold cancel_job.
    destruct (status (job m)); cbn [snd]; try apply extends_refl;
      destruct (task m); cbn [job];
      try (eexists; reflexivity);
      (eapply extends_trans; [ apply (after_task_extends t tl) | eexists; reflexivity ]).
Qed.

(** The log of a job only grows: after every task step and every
    [cancel_job], the earlier lines are still there, in order, at the
    start of the log. *)
Theorem job_logs_are_append_only
    (id type : pystr) (meta : pydict) (now : datetime)
    (task_fn : Script) (evs : list MgrEvent) :
  chain extends (history evs (run_job task_fn (create_job id type meta now))).
Proof.
  generalize (run_job task_fn (create_job id type meta now)).
  induction evs as [| ev evs IH]; intros m; [ exact I | ].
  cbn [history chain]. specialize (IH (step ev m)).
  destruct evs; cbn [history] in *; (split; [ apply step_extends | exact IH ]).
Qed.

Lemma do_action_stamped a j :
  started_at j <> None -> stamped j ->
  stamped (do_action a j) /\ started_at (do_action a j) <> None.
Proof.
  intros Hs H. destruct a as [p st | tl msg | t tl r | t tl e]; cbn [do_action].
  - unfold update_progress. destruct st as [st |]; [ destruct (truthy st) | ];
      split; assumption.
  - split; assumption.
  - split; [ unfold stamped; cbn; split; [ exact Hs | discriminate ] | exact Hs ].
  - split; [ unfold stamped; cbn; repeat split; [ exact Hs | discriminate | discriminate ]
           | exact Hs ].
Qed.

Lemma after_task_stamped t tl e j :
  started_at j <> None -> stamped j -> stamped (after_task t tl e j).
Proof.
  intros Hs H. unfold after_task. destruct e; [ | | exact H ].
  - destruct (status_eqb (status j) RUNNING); [ | exact H ].
    unfold stamped; cbn. split; [ exact Hs | discriminate ].
  - unfold stamped; cbn. repeat split; [ exact Hs | discriminate | discriminate ].
Qed.

Lemma cancel_stamped t tl j : stamped (cancel t tl j).
Proof. unfold stamped. cbn. discriminate. Qed.

Lemma step_keeps_stamps ev m : keeps_stamps m -> keeps_stamps (step ev m).
Proof.
  intros (Hst & Hsus & Hns). destruct m as [j tk]. cbn [job task] in *.
  destruct ev as [t tl | t tl]; cbn [step].
  - unfold resume. cbn [task job]. destruct tk as [| s | s |].
    + repeat split; assumption.
    + repeat split; cbn [job task is_suspended].
      * unfold stamped. cbn. discriminate.
      * intros _. cbn. discriminate.
    + specialize (Hsus eq_refl).
      destruct (todo s) as [| a rest]; cbn [job task is_suspended].
      * repeat split; [ now apply after_task_stamped | discriminate ].
      * destruct (do_action_stamped a j Hsus Hst) as [H1 H2].
        repeat split; [ exact H1 | intros _; exact H2 ].
    + repeat split; assumption.
  - unfold cancel_job. cbn [task job].
    destruct (status j) eqn:E; cbn [snd].
    1-2: destruct tk as [| s | s |]; unfold keeps_stamps;
         cbn [job task is_suspended];
         (repeat split; first [ apply cancel_stamped | discriminate ]).
    all: unfold keeps_stamps; cbn [job task]; repeat split;
         first [ assumption | rewrite E; exact Hns ].
Qed.

(** Whatever the task does and whenever the job is cancelled, a job
    that is Running, Completed or Failed has its start time, a job
    that is Completed, Failed or Cancelled has its completion time, and
    a Failed job has its error message. *)
Theorem job_status_comes_with_its_fields
    (id type : pystr) (meta : pydict) (now : datetime)
    (task_fn : Script) (evs : list MgrEvent) :
  Forall stamped (history evs (run_job task_fn (create_job id type meta now))).
Proof.
  assert (H : forall evs m, keeps_stamps m -> Forall stamped (history evs m)).
  { clear. induction evs as [| ev evs IH]; intros m Hm; cbn [history].
    - constructor; [ apply Hm | constructor ].
    - constructor; [ apply Hm | ]. apply IH. now apply step_keeps_stamps. }
  apply H. repeat split; cbn; try exact I; discriminate.
Qed.

(** [cancel_job] succeeds exactly on a Pending or Running job and
    leaves it Cancelled; a second [cancel_job], whenever it comes,
    returns false and changes nothing. *)
Theorem cancel_job_succeeds_once (t tl t' tl' : datetime) (m : Managed) :
  let first := cancel_job t tl m in
  (fst first = true <-> status (job m) = PENDING \/ status (job m) = RUNNING)
  /\ (fst first = true -> status (job (snd first)) = CANCELLED)
  /\ (fst first = false -> snd first = m)
  /\ cancel_job t' tl' (snd first) = (false, snd first).
Proof.
  cbv zeta. unfold cancel_job.
  destruct (status (job m)) eqn:E; cbn -[after_task]; rewrite ?E;
    repeat split; auto; try discriminate; intros [H | H]; discriminate H.
Qed.

Lemma actions_status acts : forall j,
  status j <> PENDING -> status j <> CANCELLED ->
  status (fold_left (fun j a => do_action a j) acts j) <> PENDING
  /\ status (fold_left (fun j a => do_action a j) acts j) <> CANCELLED.
Proof.
  induction acts as [| a acts IH]; intros j H1 H2; [ split; assumption | ].
  cbn [fold_left]. apply IH.
  - destruct a as [p st | | |]; cbn; try discriminate; try exact H1.
    unfold update_progress. destruct st as [st |]; [ destruct (truthy st) | ]; exact H1.
  - destruct a as [p st | | |]; cbn; try discriminate; try exact H2.
    unfold update_progress. destruct st as [st |]; [ destruct (truthy st) | ]; exact H2.
Qed.

(** When the task of a job runs to its end, the job is Completed or
    Failed, never left Pending or Running; and when the task raises,
    the job is Failed with the text of the exception as its error,
    whatever the task did to the job before. *)
Theorem wrapped_task_settles_the_job
    (t tl t' tl' : datetime) (task_fn : Script) (j : Job) :
  let j' := _wrapped_task t tl t' tl' task_fn j in
  (ending task_fn = Returns -> status j' = COMPLETED \/ status j' = FAILED)
  /\ (forall e, ending task_fn = Raises e ->
        status j' = FAILED /\ error j' = Some (exn_msg e)
        /\ completed_at j' = Some t').
Proof.
  cbv zeta. unfold _wrapped_task. split.
  - intros ->. unfold after_task.
    destruct (actions_status (todo task_fn) (start t tl j)) as [H1 H2];
      [ discriminate | discriminate | ].
    set (j1 := fold_left _ (todo task_fn) (start t tl j)) in *.
    destruct (status j1) eqn:E; cbn [status_eqb]; try congruence;
      [ left; reflexivity | left; exact E | right; exact E ].
  - intros e ->. cbn. repeat split.
Qed.

End JobKeeps.

(** ** SSH sessions: what is sent, what is raised, what is closed *)

Section Sessions.
Import SSHClient SSHSession ConnectSpec SessionSpec.

Lemma _connect_sync_eq (pk : Paramiko) (self : t) :
  _connect_sync pk self =
  (emit EvNewParamikoClient ;;
   emit EvSetMissingHostKeyPolicy ;;
   kwargs <- chosen_kwargs pk self ;;
   attempt pk kwargs)%monad.
Proof. reflexivity. Qed.

Lemma attempt_eq (pk : Paramiko) (kw : ConnectKwargs) (tr : trace) :
  attempt pk kw tr =
  (match connect_outcome pk kw with
   | None => Ret tt
   | Some e => Raise (connect_error e)
   end, tr ++ [EvConnect kw]).
Proof.
  unfold attempt, bind, emit, modify, connect_error, ret, raise.
  destruct (connect_outcome pk kw) as [e |]; [ | reflexivity ].
  destruct (is_class ParamikoAuthenticationException e); [ reflexivity | ].
  destruct (is_class ParamikoSSHException e); reflexivity.
Qed.

Lemma chosen_kwargs_shape (pk : Paramiko) (self : t) (tr : trace) :
  exists pre, Forall quiet pre /\
    ((exists e, chosen_kwargs pk self tr = (Raise e, tr ++ pre)
                /\ (given (private_key self) = false ->
                    e = Exc SSHConnectionError (lit "No authentication method provided")))
     \/ (exists kw, credentials_of self kw
                    /\ chosen_kwargs pk self tr = (Ret kw, tr ++ pre))).
Proof.
  unfold chosen_kwargs, credentials_of.
  destruct (given (private_key self)) eqn:Hk.
  - set (key := match private_key self with Some k => k | None => [] end).
    cbv [bind emit modify ret raise try_except except_ssh parse_key].
    destruct (from_private_key pk RSAKey key) as [k1 | e1].
    { exists [EvParseKey RSAKey]. split; [ repeat constructor | ].
      right. eexists. split; [ | reflexivity ]. split; [ reflexivity | discriminate ]. }
    destruct (is_class ParamikoSSHException e1
              || is_class ParamikoAuthenticationException e1).
    2:{ exists [EvParseKey RSAKey]. split; [ repeat constructor | ].
        left. exists e1. split; [ reflexivity | discriminate ]. }
    destruct (from_private_key pk Ed25519Key key) as [k2 | e2].
    { exists [EvParseKey RSAKey; EvParseKey Ed25519Key]. split; [ repeat constructor | ].
      right. eexists. rewrite <- !app_assoc.
      split; [ | reflexivity ]. split; [ reflexivity | discriminate ]. }
    destruct (is_class ParamikoSSHException e2
              || is_class ParamikoAuthenticationException e2).
    2:{ exists [EvParseKey RSAKey; EvParseKey Ed25519Key]. split; [ repeat constructor | ].
        left. exists e2. rewrite <- !app_assoc. split; [ reflexivity | discriminate ]. }
    exists [EvParseKey RSAKey; EvParseKey Ed25519Key; EvParseKey ECDSAKey].
    split; [ repeat constructor | ]. rewrite <- !app_assoc.
    destruct (from_private_key pk ECDSAKey key) as [k3 | e3].
    + right. eexists. split; [ | reflexivity ]. split; [ reflexivity | discriminate ].
    + left. exists e3. split; [ reflexivity | discriminate ].
  - exists []. split; [ constructor | ]. rewrite app_nil_r.
    destruct (given (password self)).
    + right. eexists. split; [ | reflexivity ]. split; reflexivity.
    + left. eexists. split; reflexivity.
Qed.

Lemma connect_shape (pk : Paramiko) (self : t) (tr : trace) :
  exists pre, Forall quiet pre /\
    ((exists e, connect pk self tr = (Raise e, tr ++ pre)
                /\ (given (private_key self) = false ->
                    e = Exc SSHConnectionError (lit "No authentication method provided")))
     \/ (exists kw, credentials_of self kw
           /\ connect pk self tr =
                (match connect_outcome pk kw with
                 | None => Ret tt
                 | Some e => Raise (connect_error e)
                 end, tr ++ pre ++ [EvConnect kw]))).
Proof.
  unfold connect. rewrite _connect_sync_eq.
  destruct (chosen_kwargs_shape pk self
              ((tr ++ [EvNewParamikoClient]) ++ [EvSetMissingHostKeyPolicy]))
    as (pre & Hq & H).
  exists ([EvNewParamikoClient; EvSetMissingHostKeyPolicy] ++ pre).
  split; [ repeat constructor; exact Hq | ].
  unfold bind, emit, modify.
  destruct H as [(e & E & He) | (kw & Hc & E)]; rewrite E; cbv beta iota.
  - left. exists e. split; [ | exact He ].
    rewrite <- !app_assoc. reflexivity.
  - right. exists kw. split; [ exact Hc | ].
    rewrite attempt_eq. rewrite <- !app_assoc. reflexivity.
Qed.

(** A client that has a private key never sends its password: every
    connection attempt it makes carries the parsed key and no
    password, also when the client was given both. *)
Theorem connect_with_key_never_sends_password
    (pk : Paramiko) (self : t) (tr : trace) (kw : ConnectKwargs) :
  given (private_key self) = true ->
  In (EvConnect kw) (snd (connect pk self tr)) ->
  In (EvConnect kw) tr \/ (kw_password kw = None /\ kw_pkey kw <> None).
Proof.
  intros Hk Hin.
  destruct (connect_shape pk self tr) as (pre & Hq & [(e & E & _) | (kw' & Hc & E)]);
    rewrite E in Hin; cbn [snd] in Hin.
  - apply in_app_or in Hin. destruct Hin as [Hin | Hin]; [ now left | ].
    rewrite Forall_forall in Hq. destruct (Hq _ Hin) as [Hx _]. discriminate Hx.
  - apply in_app_or in Hin. destruct Hin as [Hin | Hin]; [ now left | ].
    apply in_app_or in Hin. destruct Hin as [Hin | Hin].
    + rewrite Forall_forall in Hq. destruct (Hq _ Hin) as [Hx _]. discriminate Hx.
    + destruct Hin as [Hin | []]. injection Hin as <-.
      unfold credentials_of in Hc. rewrite Hk in Hc. now right.
Qed.

(** A client for root@10.0.0.5 with both a key and a password. *)
Lemma connect_with_key_witness :
  In (EvConnect key_kwargs) []
  \/ (kw_password key_kwargs = None /\ kw_pkey key_kwargs <> None).
Proof.
  apply (connect_with_key_never_sends_password
           open_paramiko root_with_key_and_password [] key_kwargs eq_refl).
  vm_compute. do 3 right. left. reflexivity.
Defined.

(** A client with a password and no key raises nothing but
    [SSHConnectionError] from [connect]: paramiko's own exceptions
    are all wrapped. *)
Theorem connect_with_password_raises_only_connection_errors
    (pk : Paramiko) (self : t) (tr : trace) (e : Exn) :
  given (private_key self) = false ->
  fst (connect pk self tr) = Raise e ->
  exn_class e = SSHConnectionError.
Proof.
  intros Hk Hr.
  destruct (connect_shape pk self tr) as (pre & _ & [(e' & E & He) | (kw & _ & E)]);
    rewrite E in Hr; cbn [fst] in Hr.
  - injection Hr as <-. now rewrite (He Hk).
  - destruct (connect_outcome pk kw) as [e0 |]; [ | discriminate Hr ].
    injection Hr as <-. reflexivity.
Qed.

(** A password client refused by the server. *)
Lemma connect_with_password_witness :
  exn_class (Exc SSHConnectionError
               (lit "Authentication failed: Authentication failed."))
  = SSHConnectionError.
Proof.
  apply (connect_with_password_raises_only_connection_errors
           refusing_paramiko root_with_password []); reflexivity.
Defined.

End Sessions.

(** ** Probing a host and uninstalling from it *)

Section Probing.
Import SSHClient SSHSession ConnectSpec SessionSpec.

Lemma quiet_no_close (pre : trace) : Forall quiet pre -> filter is_close pre = [].
Proof.
  induction 1 as [| e pre (_ & Hc & _) _ IH]; [ reflexivity | ].
  cbn [filter]. now rewrite Hc.
Qed.

Lemma quiet_no_connect (pre : trace) : Forall quiet pre -> existsb is_connect pre = false.
Proof.
  induction 1 as [| e pre (Hc & _) _ IH]; [ reflexivity | ].
  cbn [existsb]. now rewrite Hc.
Qed.

Lemma close_eq (closing : option Exn) (tr : trace) :
  close closing tr =
  (match closing with None => Ret tt | Some e => Raise e end, tr ++ [EvClose]).
Proof. unfold close, bind, emit, modify. now destruct closing. Qed.

(** [test_connection] never raises: it always answers with a pair.
    When the pair carries no error, the probe command ran, [success]
    tells whether its output contained the marker, and the session
    was closed last; a pair with [success] carries no error. *)
Theorem test_connection_always_answers
    (pk : Paramiko) (rm : Remote) (closing : option Exn) (self : t) (tr : trace) :
  exists success error tr',
    test_connection pk rm closing self tr = (Ret (success, error), tr')
    /\ (success = true -> error = None)
    /\ (error = None ->
        ends_with_close tr'
        /\ exists tr1 r,
             execute_outcome rm tr1 (lit "echo 'connection_test'") 10 = Ret r
             /\ success = contains (lit "connection_test") (stdout r)).
Proof.
  unfold test_connection, try_except.
  assert (Hh : forall (e : Exn) (tr' : trace), exists error,
    (if is_ssh_client_error e then ret (false, Some (exn_msg e))
     else ret (false, Some (lit "Unexpected error: " ++ exn_msg e))) tr'
    = (Ret (false, Some error), tr')).
  { intros e tr'. destruct (is_ssh_client_error e); eexists; reflexivity. }
  unfold bind at 1.
  destruct (connect_shape pk self tr) as (pre & _ & [(e & E & _) | (kw & _ & E)]);
    rewrite E.
  - destruct (Hh e (tr ++ pre)) as [msg ->].
    exists false, (Some msg). eexists. repeat split; discriminate.
  - destruct (connect_outcome pk kw) as [e |].
    + destruct (Hh (connect_error e) (tr ++ pre ++ [EvConnect kw])) as [msg ->].
      exists false, (Some msg). eexists. repeat split; discriminate.
    + unfold bind at 1. unfold execute at 1.
      destruct (execute_outcome rm (tr ++ pre ++ [EvConnect kw])
                  (lit "echo 'connection_test'") 10) as [r | e] eqn:Ex.
      * unfold bind. rewrite close_eq. destruct closing as [e |].
        -- match goal with |- context [(if ?b then _ else _) ?t] =>
             destruct (Hh e t) as [msg ->] end.
           exists false, (Some msg). eexists. repeat split; discriminate.
        -- eexists _, None, _. split; [ reflexivity | ].
           split; [ reflexivity | ]. intros _.
           split; [ eexists; reflexivity | ].
           exists (tr ++ pre ++ [EvConnect kw]), r. split; [ exact Ex | reflexivity ].
      * match goal with |- context [(if ?b then _ else _) ?t] =>
          destruct (Hh e t) as [msg ->] end.
        exists false, (Some msg). eexists. repeat split; discriminate.
Qed.

(** When the connection is made and the probe command then raises,
    [test_connection] answers false with the error and does not close
    the session: the trace ends with the command, and holds no more
    closings than before. *)
Theorem test_connection_leaves_session_open_when_command_raises
    (pk : Paramiko) (rm : Remote) (closing : option Exn) (self : t) (tr : trace)
    (e : Exn) :
  fst (connect pk self tr) = Ret tt ->
  execute_outcome rm (snd (connect pk self tr)) (lit "echo 'connection_test'") 10
    = Raise e ->
  test_connection pk rm closing self tr =
    (Ret (false, Some (if is_ssh_client_error e then exn_msg e
                       else lit "Unexpected error: " ++ exn_msg e)),
     snd (connect pk self tr) ++ [EvExecute (lit "echo 'connection_test'") 10])
  /\ filter is_close (snd (test_connection pk rm closing self tr))
     = filter is_close tr
  /\ existsb is_connect (snd (test_connection pk rm closing self tr)) = true.
Proof.
  intros Hc Hx.
  assert (E : test_connection pk rm closing self tr =
    (Ret (false, Some (if is_ssh_client_error e then exn_msg e
                       else lit "Unexpected error: " ++ exn_msg e)),
     snd (connect pk self tr) ++ [EvExecute (lit "echo 'connection_test'") 10])).
  { unfold test_connection, try_except. unfold bind at 1.
    destruct (connect pk self tr) as [[[] | e0] tr1]; cbn [fst snd] in *;
      [ | discriminate Hc ].
    unfold bind at 1. unfold execute at 1. rewrite Hx.
    destruct (is_ssh_client_error e); reflexivity. }
  split; [ exact E | ]. rewrite E. cbn [snd].
  destruct (connect_shape pk self tr) as (pre & Hq & [(e' & E' & _) | (kw & _ & E')]);
    rewrite E' in *; cbn [fst snd] in *; [ discriminate Hc | ].
  rewrite !filter_app, !existsb_app, (quiet_no_close Hq). cbn.
  rewrite !app_nil_r. split; [ reflexivity | ].
  now rewrite !orb_true_r.
Qed.

(** The probe of a host that accepts the connection and then fails
    every command. *)
Lemma test_connection_leaves_session_open_witness :
  test_connection open_paramiko dead_remote None root_with_password [] =
    (Ret (false, Some (lit "Command execution failed: channel closed")),
     snd (connect open_paramiko root_with_password [])
     ++ [EvExecute (lit "echo 'connection_test'") 10])
  /\ filter is_close
       (snd (test_connection open_paramiko dead_remote None root_with_password []))
     = []
  /\ existsb is_connect
       (snd (test_connection open_paramiko dead_remote None root_with_password []))
     = true.
Proof.
  exact (test_connection_leaves_session_open_when_command_raises
           open_paramiko dead_remote None root_with_password []
           (e := Exc SSHCommandError (lit "Command execution failed: channel closed"))
           eq_refl eq_refl).
Defined.

(** [_uninstall_from_server] without stored credentials raises
    [ValueError] and touches nothing.  With credentials it always
    closes the session it opened, exactly once and last, whether the
    connection, the command or neither failed; and it answers true
    only if closing did not raise. *)
Theorem uninstall_from_server_closes_its_session
    (env : ServerUninstall.Env) (ssh_profile_id : Z) (node_name : pystr) (tr : trace) :
  let run := ServerUninstall._uninstall_from_server env ssh_profile_id node_name tr in
  match ServerUninstall.get_decrypted_credentials env ssh_profile_id with
  | None =>
      run = (Raise (Exc ValueError (lit "SSH profile not found or has no credentials")),
             tr)
  | Some _ =>
      ends_with_close (snd run)
      /\ length (filter is_close (snd run)) = S (length (filter is_close tr))
      /\ (fst run = Ret true -> ServerUninstall.closing env = None)
  end.
Proof.
  cbv zeta. unfold ServerUninstall._uninstall_from_server.
  destruct (ServerUninstall.get_decrypted_credentials env ssh_profile_id) as [creds |];
    [ | reflexivity ].
  set (ssh_client := {| host := _ |}).
  unfold try_finally. unfold bind at 1 3 5.
  destruct (connect_shape (ServerUninstall.paramiko env) ssh_client tr)
    as (pre & Hq & [(e & E & _) | (kw & _ & E)]); rewrite E.
  - rewrite close_eq.
    destruct (ServerUninstall.closing env); cbn [fst snd];
      (split; [ eexists; reflexivity | ]);
      rewrite !filter_app, (quiet_no_close Hq); cbn; rewrite !length_app; cbn;
      (split; [ lia | discriminate ]).
  - destruct (connect_outcome (ServerUninstall.paramiko env) kw) as [e |].
    + rewrite close_eq.
      destruct (ServerUninstall.closing env); cbn [fst snd];
        (split; [ eexists; reflexivity | ]);
        rewrite !filter_app, (quiet_no_close Hq); cbn; rewrite !length_app; cbn;
        (split; [ lia | discriminate ]).
    + unfold NodeManagerClient.uninstall_node, bind, execute.
      destruct (execute_outcome _ _ _ _) as [r | e]; unfold ret; cbv beta iota;
        rewrite close_eq;
        destruct (ServerUninstall.closing env); cbn [fst snd];
        (split; [ eexists; reflexivity | ]);
        rewrite !filter_app, (quiet_no_close Hq); cbn; rewrite !length_app; cbn;
        (split; [ lia | try discriminate; reflexivity ]).
Qed.

End Probing.

(** ** The installation run: its job and its session *)

Section InstallationRun.
Import SSHClient SSHSession ConnectSpec SessionSpec SSHInstallService Effects.
Local Open Scope Z_scope.

Lemma bind_Ret_inv {S A B} (c : M S A) (f : A -> M S B) (s s' : S) (b : B) :
  bind c f s = (Ret b, s') ->
  exists a s1, c s = (Ret a, s1) /\ f a s1 = (Ret b, s').
Proof.
  unfold bind. destruct (c s) as [[a | e] s1]; [ | discriminate ].
  intros H. now exists a, s1.
Qed.

Lemma try_finally_Ret_inv {S A} (c : M S A) (f : M S unit) (s s'' : S) (a : A) :
  try_finally c f s = (Ret a, s'') ->
  exists s', c s = (Ret a, s') /\ fst (f s') = Ret tt /\ snd (f s') = s''.
Proof.
  unfold try_finally.
  destruct (c s) as [[a' | e] s']; destruct (f s') as [[[] | e'] s1] eqn:Ef;
    try discriminate.
  intros H. injection H as -> ->. exists s'. now rewrite Ef.
Qed.

(** *** Effects on the trace *)

Lemma adds_ret {A} P (a : A) : adds P (ret a).
Proof. intros tr. exists []. cbn. now rewrite app_nil_r. Qed.

Lemma adds_raise {A} P e : adds P (@raise trace A e).
Proof. intros tr. exists []. cbn. now rewrite app_nil_r. Qed.

Lemma adds_bind {A B} P (c : M trace A) (f : A -> M trace B) :
  adds P c -> (forall a, adds P (f a)) -> adds P (bind c f).
Proof.
  intros Hc Hf tr. unfold bind. destruct (Hc tr) as (x & E & Hx).
  destruct (c tr) as [[a | e] tr1]; cbn [snd] in *; subst tr1.
  - destruct (Hf a (tr ++ x)) as (y & E' & Hy). exists (x ++ y).
    rewrite E', app_assoc. split; [ reflexivity | now apply Forall_app ].
  - now exists x.
Qed.

Lemma adds_emit P e : P e -> adds P (emit e).
Proof. intros H tr. exists [e]. split; [ reflexivity | now constructor ]. Qed.

Lemma adds_execute P rm cmd t :
  P (EvExecute cmd t) -> adds P (execute rm cmd t).
Proof. intros H tr. exists [EvExecute cmd t]. split; [ reflexivity | now constructor ]. Qed.

Lemma adds_upload_content P rm content path mode :
  P (EvUploadContent content path mode) -> adds P (upload_content rm content path mode).
Proof.
  intros H tr. exists [EvUploadContent content path mode].
  split; [ reflexivity | now constructor ].
Qed.

Lemma silent_adds_w {A} P (c : M World A) : silent c -> adds_w P c.
Proof. intros H w. exists []. rewrite app_nil_r. split; [ apply H | constructor ]. Qed.

Lemma adds_w_on_events {A} P (c : M trace A) : adds P c -> adds_w P (on_events c).
Proof.
  intros H w. unfold on_events. destruct (H (events w)) as (x & E & Hx).
  destruct (c (events w)) as [r tr]. now exists x.
Qed.

Lemma adds_w_bind {A B} P (c : M World A) (f : A -> M World B) :
  adds_w P c -> (forall a, adds_w P (f a)) -> adds_w P (bind c f).
Proof.
  intros Hc Hf w. unfold bind. destruct (Hc w) as (x & E & Hx).
  destruct (c w) as [[a | e] w1]; cbn [snd] in *.
  - destruct (Hf a w1) as (y & E' & Hy). exists (x ++ y).
    rewrite E', E, app_assoc. split; [ reflexivity | now apply Forall_app ].
  - now exists x.
Qed.

Lemma adds_w_try_except {A} P (c : M World A) (h : Exn -> M World A) :
  adds_w P c -> (forall e, adds_w P (h e)) -> adds_w P (try_except c h).
Proof.
  intros Hc Hh w. unfold try_except. destruct (Hc w) as (x & E & Hx).
  destruct (c w) as [[a | e] w1]; cbn [snd] in *.
  - now exists x.
  - destruct (Hh e w1) as (y & E' & Hy). exists (x ++ y).
    rewrite E', E, app_assoc. split; [ reflexivity | now apply Forall_app ].
Qed.

Lemma silent_ret {A} (a : A) : silent (ret a).
Proof. intros w. reflexivity. Qed.

Lemma silent_raise {A} e : silent (@raise World A e).
Proof. intros w. reflexivity. Qed.

Lemma silent_get : silent (@get World).
Proof. intros w. reflexivity. Qed.

Lemma silent_on_job f : silent (on_job f).
Proof. intros w. reflexivity. Qed.

Lemma silent_of_outcome {A} (o : outcome A) : silent (of_outcome o).
Proof. intros w. now destruct o. Qed.

Lemma silent_of_failure o : silent (@of_failure World o).
Proof. intros w. now destruct o. Qed.

Lemma silent_bind {A B} (c : M World A) (f : A -> M World B) :
  silent c -> (forall a, silent (f a)) -> silent (bind c f).
Proof.
  intros Hc Hf w. unfold bind. specialize (Hc w).
  destruct (c w) as [[a | e] w1]; cbn [snd] in *; [ | exact Hc ].
  now rewrite Hf.
Qed.

Ltac silence :=
  repeat first
    [ apply silent_ret | apply silent_raise | apply silent_get
    | apply silent_on_job | apply silent_of_outcome | apply silent_of_failure
    | apply silent_bind; [ | intros ? ]
    | match goal with
      | |- silent (if ?b then _ else _) => destruct b
      | |- silent (match ?x with _ => _ end) => destruct x
      end ].

Ltac effects :=
  repeat first
    [ apply adds_ret | apply adds_raise
    | apply adds_execute; split; reflexivity
    | apply adds_upload_content; split; reflexivity
    | apply adds_emit; split; reflexivity
    | apply adds_bind; [ | intros ? ]
    | apply adds_w_on_events
    | apply silent_adds_w; solve [ silence ]
    | apply adds_w_bind; [ | intros ? ]
    | apply adds_w_try_except; [ | intros ? ]
    | match goal with
      | |- adds _ (if ?b then _ else _) => destruct b
      | |- adds _ (match ?x with _ => _ end) => destruct x
      | |- adds_w _ (if ?b then _ else _) => destruct b
      | |- adds_w _ (match ?x with _ => _ end) => destruct x
      end ].

(** [install_node] uploads nothing but the certificate, to
    [/tmp/ssl_cert_<name>.pem] and with mode 0o600 (read and write
    for the owner only); everything else it does on the host is
    running commands. *)
Theorem install_node_uploads_only_the_certificate
    (todecimal : N -> option N) (rm : Remote) (name certificate : pystr)
    (service_port api_port : Z) (method : pystr)
    (inbounds : option (list pystr)) (auto_ports : bool) (tr : trace) :
  exists added,
    snd (NodeManagerClient.install_node todecimal rm name certificate
           service_port api_port method inbounds auto_ports tr)
    = tr ++ added
    /\ Forall (command_or_upload certificate
                 (lit "/tmp/ssl_cert_" ++ name ++ lit ".pem") 384) added.
Proof.
  assert (H : adds (command_or_upload certificate
                      (lit "/tmp/ssl_cert_" ++ name ++ lit ".pem") 384)
                (NodeManagerClient.install_node todecimal rm name certificate
                   service_port api_port method inbounds auto_ports)).
  { unfold NodeManagerClient.install_node, NodeManagerClient.install_cli,
      NodeManagerClient.is_cli_installed.
    repeat first
      [ apply adds_ret
      | apply adds_execute; exact I
      | apply adds_upload_content; repeat split
      | apply adds_bind; [ | intros ? ]
      | match goal with
        | |- adds _ (if ?b then _ else _) => destruct b
        end ]. }
  exact (H tr).
Qed.

Section Run.
Variable todecimal : N -> option N.
Variable env : Env.

Lemma _get_ssh_credentials_silent request : silent (_get_ssh_credentials env request).
Proof. unfold _get_ssh_credentials. silence. Qed.

Lemma _get_or_create_ssh_profile_adds (P : Event -> Prop) request :
  (forall name, P (EvFindProfileByName name)) ->
  (forall profile, P (EvCreateProfile profile)) ->
  adds_w P (_get_or_create_ssh_profile env request).
Proof.
  intros Hf Hc. unfold _get_or_create_ssh_profile, add_log.
  destruct (nonzero (ssh_profile_id request)).
  - apply silent_adds_w. silence.
  - apply adds_w_bind; [ apply adds_w_on_events, adds_emit, Hf | intros _ ].
    apply adds_w_bind; [ apply silent_adds_w; silence | intros _ ].
    apply adds_w_bind; [ apply adds_w_on_events, adds_emit, Hc | intros _ ].
    apply silent_adds_w. silence.
Qed.

Lemma get_certificate_adds (P : Event -> Prop) panel_id :
  P (EvGetCertificate panel_id) ->
  adds_w P (on_events (emit (EvGetCertificate panel_id)) ;;
            of_outcome (_get_certificate env panel_id))%monad.
Proof.
  intros H. apply adds_w_bind; [ apply adds_w_on_events, adds_emit, H | intros _ ].
  apply silent_adds_w. silence.
Qed.

Lemma install_node_inside name certificate sp ap method inbounds auto :
  adds inside (NodeManagerClient.install_node todecimal (remote env)
                 name certificate sp ap method inbounds auto).
Proof.
  unfold NodeManagerClient.install_node, NodeManagerClient.install_cli,
    NodeManagerClient.is_cli_installed.
  effects.
Qed.

Lemma _register_node_inside panel_id name address sp ap profile ip :
  adds_w inside (_register_node env panel_id name address sp ap profile ip).
Proof. unfold _register_node. effects. Qed.

Lemma after_install_inside request ip creds profile result t :
  adds_w inside (after_install env request ip creds profile result t).
Proof.
  unfold after_install, add_log, progress_is, current_step_is.
  effects; try apply _register_node_inside.
Qed.

Lemma with_ssh_inside request ip creds profile certificate t :
  adds_w inside (with_ssh todecimal env request ip creds profile certificate t).
Proof.
  unfold with_ssh, add_log, progress_is, current_step_is,
    NodeManagerClient.get_cli_version, NodeManagerClient.install_cli,
    NodeManagerClient.is_cli_installed.
  effects; try first [ apply install_node_inside | apply after_install_inside ].
Qed.

Lemma quiet_not_connected pk (pre : trace) :
  Forall quiet pre -> filter (connected pk) pre = [].
Proof.
  induction 1 as [| e pre (Hc & _) _ IH]; [ reflexivity | ].
  cbn [filter]. destruct e; try discriminate Hc; exact IH.
Qed.

Lemma inside_no_close (y : trace) : Forall inside y -> filter is_close y = [].
Proof.
  induction 1 as [| e y (_ & Hc) _ IH]; [ reflexivity | ].
  cbn [filter]. now rewrite Hc.
Qed.

Lemma inside_not_connected pk (y : trace) :
  Forall inside y -> filter (connected pk) y = [].
Proof.
  induction 1 as [| e y (Hc & _) _ IH]; [ reflexivity | ].
  cbn [filter]. destruct e; try discriminate Hc; exact IH.
Qed.

Lemma existsb_filter_nil {A} (p : A -> bool) (l : list A) :
  filter p l = [] -> existsb p l = false.
Proof.
  induction l as [| a l IH]; [ reflexivity | ].
  cbn. destruct (p a); [ discriminate | exact IH ].
Qed.

Lemma try_finally_state {S A} (c : M S A) (f : M S unit) (s : S) :
  snd (try_finally c f s) = snd (f (snd (c s))).
Proof.
  unfold try_finally. destruct (c s) as [[a | e] s']; cbn [snd];
    destruct (f s') as [[[] | e'] s'']; reflexivity.
Qed.

Lemma balanced_after_inside pk (x y : trace) :
  Forall inside x -> balanced pk y -> balanced pk (x ++ y).
Proof.
  intros Hx [Hn He]. unfold balanced.
  rewrite !filter_app, existsb_app, (inside_no_close Hx),
    (inside_not_connected pk Hx),
    (existsb_filter_nil _ _ (inside_not_connected pk Hx)).
  cbn [app orb]. split; [ exact Hn | ].
  intros H. destruct (He H) as [before ->]. exists (x ++ before).
  now rewrite app_assoc.
Qed.

Lemma session_safe_bind {A B} pk (c : M World A) (f : A -> M World B) :
  adds_w inside c -> (forall a, session_safe pk (f a)) ->
  session_safe pk (bind c f).
Proof.
  intros Hc Hf w. unfold bind. destruct (Hc w) as (x & Ex & Hx).
  destruct (c w) as [[a | e] w1]; cbn [snd] in *.
  - destruct (Hf a w1) as (y & Ey & Hy). exists (x ++ y).
    rewrite Ey, Ex, app_assoc. split; [ reflexivity | ].
    now apply balanced_after_inside.
  - exists x. split; [ exact Ex | ].
    rewrite <- (app_nil_r x). apply balanced_after_inside; [ exact Hx | ].
    split; [ reflexivity | discriminate ].
Qed.

Lemma session_safe_try_except {A} pk (c : M World A) (h : Exn -> M World A) :
  session_safe pk c -> (forall e, silent (h e)) -> session_safe pk (try_except c h).
Proof.
  intros Hc Hh w. unfold try_except. specialize (Hc w).
  destruct (c w) as [[a | e] w1]; cbn [snd] in *; [ exact Hc | ].
  now rewrite Hh.
Qed.

(** Within [async with SSHClient(...)]: the session is closed if and
    only if it was opened. *)
Lemma async_with_session_safe {A} pk (self : t) (closing : option Exn)
    (body : M World A) :
  adds_w inside body ->
  session_safe pk
    (on_events (connect pk self) ;;
     try_finally body (on_events (emit EvClose ;; of_failure closing)))%monad.
Proof.
  intros Hb w. unfold bind at 1. unfold on_events at 1.
  destruct (connect_shape pk self (events w))
    as (pre & Hq & [(e & E & _) | (kw & _ & E)]); rewrite E.
  - exists pre. split; [ reflexivity | ]. unfold balanced.
    rewrite (quiet_no_close Hq), (existsb_filter_nil _ _ (quiet_not_connected pk Hq)),
      (quiet_not_connected pk Hq).
    split; [ reflexivity | discriminate ].
  - destruct (connect_outcome pk kw) as [e |] eqn:Ec.
    + exists (pre ++ [EvConnect kw]). split; [ reflexivity | ]. unfold balanced.
      rewrite !filter_app, existsb_app, (quiet_no_close Hq),
        (existsb_filter_nil _ _ (quiet_not_connected pk Hq)),
        (quiet_not_connected pk Hq).
      cbn. rewrite Ec. cbn. split; [ reflexivity | discriminate ].
    + rewrite try_finally_state.
      set (w1 := {| the_job := the_job w; events := events w ++ pre ++ [EvConnect kw] |}).
      destruct (Hb w1) as (y & Ey & Hy).
      exists (pre ++ [EvConnect kw] ++ y ++ [EvClose]).
      split.
      * unfold on_events, bind, emit, modify. rewrite Ey. cbn [events w1].
        destruct closing; cbn [snd events]; rewrite <- !app_assoc; reflexivity.
      * unfold balanced.
        rewrite !filter_app, (quiet_no_close Hq), (quiet_not_connected pk Hq),
          (inside_no_close Hy), (inside_not_connected pk Hy).
        cbn. rewrite Ec. cbn. split; [ reflexivity | ].
        intros _. exists (pre ++ [EvConnect kw] ++ y).
        now rewrite <- !app_assoc.
Qed.

(** Whatever the hosts, the panel and the repositories answer,
    [_run_installation] closes the SSH session exactly when it opened
    one: the events it adds hold as many closings as successful
    connections, and after a successful connection the closing is the
    last event of the run. *)
Theorem run_installation_closes_its_session
    (request : SSHInstallRequest) (client_ip : option pystr)
    (started_now completed_now : JobManager.datetime) (w : World) :
  exists added,
    events (snd (_run_installation todecimal env request client_ip
                   started_now completed_now w))
    = events w ++ added
    /\ length (filter is_close added)
       = length (filter (connected (paramiko env)) added)
    /\ (existsb (connected (paramiko env)) added = true -> ends_with_close added).
Proof.
  assert (H : session_safe (paramiko env)
                (_run_installation todecimal env request client_ip
                   started_now completed_now)).
  { unfold _run_installation, add_log, progress_is, current_step_is.
    do 2 (apply session_safe_bind;
          [ apply silent_adds_w, silent_on_job | intros _ ]).
    apply session_safe_try_except; [ | intros e; silence ].
    do 3 (apply session_safe_bind; [ apply silent_adds_w; silence | intros _ ]).
    apply session_safe_bind;
      [ apply silent_adds_w, _get_ssh_credentials_silent | intros creds ].
    apply session_safe_bind;
      [ apply _get_or_create_ssh_profile_adds; intros; split; reflexivity
      | intros profile ].
    do 3 (apply session_safe_bind; [ apply silent_adds_w; silence | intros _ ]).
    apply session_safe_bind; [ apply silent_adds_w, silent_get | intros w0 ].
    apply session_safe_bind;
      [ apply get_certificate_adds; split; reflexivity | intros certificate ].
    do 5 (apply session_safe_bind; [ apply silent_adds_w; silence | intros _ ]).
    apply async_with_session_safe. apply with_ssh_inside. }
  exact (H w).
Qed.

Lemma handler_settles (e : Exn) (t : JobManager.datetime) (w : World) :
  exists w',
    (on_job (set_ij_status (lit "failed")) ;;
     on_job (fun j => set_ij_times (ij_started_at j) (Some t) j) ;;
     on_job (set_ij_error (Some (exn_msg e))) ;;
     add_log (lit "Error: " ++ exn_msg e))%monad w = (Ret tt, w')
    /\ ij_status (the_job w') = lit "failed"
    /\ ij_completed_at (the_job w') = Some t
    /\ ij_error (the_job w') = Some (exn_msg e).
Proof. eexists. split; [ reflexivity | ]. repeat split. Qed.

Lemma after_install_settles request ip creds profile result t w w' :
  after_install env request ip creds profile result t w = (Ret tt, w') ->
  ij_status (the_job w') = lit "completed"
  /\ ij_completed_at (the_job w') = Some t
  /\ ij_progress (the_job w') = 100
  /\ ij_result (the_job w') <> None.
Proof.
  unfold after_install. intros H.
  do 6 (apply bind_Ret_inv in H; destruct H as (? & ? & _ & H)).
  cbv [bind add_log progress_is on_job modify] in H.
  injection H as <-. cbn. repeat split. discriminate.
Qed.

Lemma with_ssh_settles request ip creds profile certificate t w w' :
  with_ssh todecimal env request ip creds profile certificate t w = (Ret tt, w') ->
  ij_status (the_job w') = lit "completed"
  /\ ij_completed_at (the_job w') = Some t
  /\ ij_progress (the_job w') = 100
  /\ ij_result (the_job w') <> None.
Proof.
  unfold with_ssh. intros H.
  do 10 (apply bind_Ret_inv in H; destruct H as (? & ? & _ & H)).
  exact (after_install_settles _ _ _ _ _ _ _ H).
Qed.


(** Once the node is in the local database and the audit entry can
    be written, [_register_node] returns the new node's id whatever
    the panel does: a missing token, a failed [create_node] and a
    failed status update are all swallowed, and the job is left as it
    was.  The node's status is set to connected only after the panel
    accepted the node. *)
Theorem register_node_does_not_depend_on_the_panel
    (panel_id : Z) (node_name address : pystr) (service_port api_port : Z)
    (ssh_profile_id : option Z) (client_ip : option pystr) (w : World) (id : Z) :
  insert_node env (registered_row panel_id node_name address service_port api_port
                     ssh_profile_id) = Ret id ->
  log_audit_outcome env = None ->
  exists w',
    _register_node env panel_id node_name address service_port api_port
      ssh_profile_id client_ip w = (Ret id, w')
    /\ the_job w' = the_job w
    /\ (In (EvUpdateNodeStatus id CONNECTED) (events w') ->
        In (EvUpdateNodeStatus id CONNECTED) (events w)
        \/ (exists tok, panel_access_token env = Ret (Some tok)
                        /\ truthy tok = true
                        /\ create_node_outcome env = None)).
Proof.
  intros Hi Ha. unfold _register_node. fold (registered_row panel_id node_name address
    service_port api_port ssh_profile_id). 
  cbv [bind on_events emit modify try_except of_outcome of_failure ret raise].
  cbn [events the_job]. rewrite Hi, Ha.
  assert (Hin : forall (l : trace) (x : Event) more,
            Forall (fun e => e <> x) more -> In x (l ++ more) -> In x l).
  { intros l x more Hm H. apply in_app_or in H. destruct H as [H | H]; [ exact H | ].
    rewrite Forall_forall in Hm. now destruct (Hm _ H). }
  destruct (panel_access_token env) as [[tok |] | e]; cbn [given].
  2,3: eexists; split; [ reflexivity | ]; split; [ reflexivity | ];
       cbn [events]; rewrite <- !app_assoc; intros H; left;
       (apply Hin in H; [ exact H | cbn [app]; repeat constructor; discriminate ]).
  destruct (truthy tok) eqn:Ht.
  2: eexists; split; [ reflexivity | ]; split; [ reflexivity | ];
     cbn [events]; rewrite <- !app_assoc; intros H; left;
     (apply Hin in H; [ exact H | cbn [app]; repeat constructor; discriminate ]).
  cbn [events the_job].
  destruct (create_node_outcome env) as [e |].
  - eexists; split; [ reflexivity | ]; split; [ reflexivity | ].
    cbn [events]; rewrite <- !app_assoc; intros H; left.
    (apply Hin in H; [ exact H | cbn [app]; repeat constructor; discriminate ]).
  - destruct (update_status_outcome env);
      (eexists; split; [ reflexivity | ]; split; [ reflexivity | ]);
      intros _; right; exists tok; repeat split; exact Ht.
Qed.

Lemma fails_raise {A} P e : fails_adding P (@raise World A e).
Proof.
  split; [ apply silent_adds_w, silent_raise | intros w; now exists e ].
Qed.

Lemma fails_bind_l {A B} P (c : M World A) (f : A -> M World B) :
  fails_adding P c -> fails_adding P (bind c f).
Proof.
  intros [Ha Hr]. split.
  - intros w. unfold bind. destruct (Ha w) as (x & Ex & Hx).
    destruct (Hr w) as [e He].
    destruct (c w) as [[a | e'] w1]; cbn [fst snd] in *; [ discriminate | ].
    now exists x.
  - intros w. unfold bind. destruct (Hr w) as [e He].
    destruct (c w) as [[a | e'] w1]; cbn [fst] in *; [ discriminate | ].
    now exists e'.
Qed.

Lemma fails_bind_r {A B} P (c : M World A) (f : A -> M World B) :
  adds_w P c -> (forall a, fails_adding P (f a)) -> fails_adding P (bind c f).
Proof.
  intros Hc Hf. split.
  - apply adds_w_bind; [ exact Hc | intros a; apply Hf ].
  - intros w. unfold bind.
    destruct (c w) as [[a | e] w1]; [ apply Hf | now exists e ].
Qed.

(** What follows a computation that returns [a] may be judged at [a]. *)
Lemma fails_bind_returning {A B C} P (m : M World C) (a : A)
    (f : A -> M World B) :
  adds_w P m -> fails_adding P (f a) ->
  fails_adding P (bind (bind m (fun _ => ret a)) f).
Proof.
  intros Hm [Ha Hr]. split.
  - intros w. unfold bind, ret. destruct (Hm w) as (x & Ex & Hx).
    destruct (m w) as [[c | e] w1]; cbn [snd] in *; [ | now exists x ].
    destruct (Ha w1) as (y & Ey & Hy). exists (x ++ y).
    rewrite Ey, Ex, app_assoc. split; [ reflexivity | now apply Forall_app ].
  - intros w. unfold bind, ret.
    destruct (m w) as [[c | e] w1]; [ apply Hr | now exists e ].
Qed.

(** Without the panel's certificate nothing is done on the server
    and no node is registered: when [_get_certificate] raises or
    returns no certificate, the only events [_run_installation] adds
    are the look-up and the creation of the SSH profile, which is
    not undone, and the fetching of the certificate; there is no
    connection, no command, no upload, no node row, no panel node and
    no audit record, and the job is left failed. *)
Theorem run_installation_needs_the_certificate
    (request : SSHInstallRequest) (client_ip : option pystr)
    (started_now completed_now : JobManager.datetime) (w : World) :
  (forall panel_id,
     match _get_certificate env panel_id with
     | Ret certificate => given certificate = false
     | Raise _ => True
     end) ->
  let w' := snd (_run_installation todecimal env request client_ip
                   started_now completed_now w) in
  (exists added, events w' = events w ++ added /\ Forall preparation added)
  /\ ij_status (the_job w') = lit "failed".
Proof.
  intros Hcert. cbv zeta.
  assert (H : exists e w2 added,
            events w2 = events w ++ added /\ Forall preparation added
            /\ _run_installation todecimal env request client_ip
                 started_now completed_now w
               = on_exception completed_now e w2).
  { unfold _run_installation.
    unfold bind at 1 2. unfold on_job at 1 2. unfold modify at 1 2. cbv beta iota.
    unfold try_except.
    match goal with |- context [match ?b ?w1 with _ => _ end] =>
      assert (Hb : fails_adding preparation b);
      [ | destruct Hb as [Ha Hr]; destruct (Ha w1) as (x & Ex & Hx);
          destruct (Hr w1) as [e He];
          destruct (b w1) as [[[] | e'] w2]; cbn [fst snd] in *;
          [ discriminate | ] ] end.
    { unfold add_log, progress_is, current_step_is.
      do 3 (apply fails_bind_r; [ apply silent_adds_w; silence | intros _ ]).
      apply fails_bind_r;
        [ apply silent_adds_w, _get_ssh_credentials_silent | intros creds ].
      apply fails_bind_r;
        [ apply _get_or_create_ssh_profile_adds; intros; exact I | intros profile ].
      do 3 (apply fails_bind_r; [ apply silent_adds_w; silence | intros _ ]).
      apply fails_bind_r; [ apply silent_adds_w, silent_get | intros w0 ].
      specialize (Hcert (ij_panel_id (the_job w0))).
      destruct (_get_certificate env (ij_panel_id (the_job w0))) as [c | e].
      - apply (fails_bind_returning
                 (m := on_events (emit (EvGetCertificate (ij_panel_id (the_job w0)))))
                 c).
        + apply adds_w_on_events, adds_emit. exact I.
        + rewrite Hcert. cbn [negb]. apply fails_bind_l. apply fails_raise.
      - apply fails_bind_l. apply fails_bind_r.
        + apply adds_w_on_events, adds_emit. exact I.
        + intros _. apply fails_raise. }
    exists e', w2, x. split; [ exact Ex | ]. split; [ exact Hx | reflexivity ]. }
  destruct H as (e & w2 & added & Hs & Hp & ->).
  split; [ exists added; split; [ exact Hs | exact Hp ] | reflexivity ].
Qed.

End Run.

(** An installation for a panel without certificate. *)
Lemma run_installation_needs_the_certificate_witness :
  let w' := snd (_run_installation ascii_decimal no_certificate_env
                   InstallRunSpec.scenario_request None 1000 2000
                   InstallRunSpec.scenario_world) in
  (exists added,
     events w' = events InstallRunSpec.scenario_world ++ added
     /\ Forall preparation added)
  /\ ij_status (the_job w') = lit "failed".
Proof.
  apply (@run_installation_needs_the_certificate ascii_decimal no_certificate_env
           InstallRunSpec.scenario_request None 1000 2000
           InstallRunSpec.scenario_world).
  intros panel_id. reflexivity.
Defined.

(** Registration with the panel unreachable. *)
Lemma register_node_without_panel_witness :
  exists w',
    _register_node panel_down_env 1 (lit "n1") (lit "10.0.0.5") 62050 62051
      (Some 7) None InstallRunSpec.scenario_world = (Ret 101, w')
    /\ the_job w' = the_job InstallRunSpec.scenario_world
    /\ (In (EvUpdateNodeStatus 101 CONNECTED) (events w') ->
        In (EvUpdateNodeStatus 101 CONNECTED) (events InstallRunSpec.scenario_world)
        \/ (exists tok, panel_access_token panel_down_env = Ret (Some tok)
                        /\ truthy tok = true
                        /\ create_node_outcome panel_down_env = None)).
Proof.
  exact (register_node_does_not_depend_on_the_panel panel_down_env
           1 (lit "n1") (lit "10.0.0.5") 62050 62051 (Some 7) None
           InstallRunSpec.scenario_world eq_refl eq_refl).
Defined.

End InstallationRun.

(** ** Requests: what they carry, how long they wait, what they report *)

Section Requests.
Import MarzbanClient MarzbanAdmin RetryPolicy RequestSpec.
Local Open Scope Z_scope.

Section OneClient.
Variable panel : Panel.
Variable self : t.

Lemma ensure_with_valid_token w :
  has_valid_token w -> _ensure_authenticated panel self w = (Ret tt, w).
Proof.
  intros (tk & Ht & He). unfold _ensure_authenticated, bind, get.
  now rewrite Ht, He.
Qed.

Lemma authenticate_effect w :
  (exists added, log (snd (authenticate panel self w)) = log w ++ added
                 /\ Forall authorized added)
  /\ match fst (authenticate panel self w) with
     | Ret ti =>
         _token (snd (authenticate panel self w)) = Some ti
         /\ expires_at ti = Some (now w + timedelta_hours 24)
     | Raise _ => _token (snd (authenticate panel self w)) = _token w
     end.
Proof.
  unfold authenticate.
  destruct (negb (given (username self)) || negb (given (password self))).
  { split; [ exists []; cbn; now rewrite app_nil_r | reflexivity ]. }
  assert (H : exists added, log w ++ [HTokenPost] = log w ++ added
                            /\ Forall authorized added).
  { exists [HTokenPost]. split; [ reflexivity | repeat constructor ]. }
  destruct (token_api panel (token_posts w)) as [m | m | m | r];
    try (split; [ exact H | reflexivity ]).
  destruct (status_code r =? 401); [ split; [ exact H | reflexivity ] | ].
  destruct (status_error r); [ split; [ exact H | reflexivity ] | ].
  destruct (json r); split; first [ exact H | reflexivity | split; reflexivity ].
Qed.

(** A successful [authenticate] leaves the client with the token it
    returns, which counts as expired from 23 hours 55 minutes after
    the call on and not before; a failed [authenticate] leaves the
    token the client had. *)
Theorem authenticate_replaces_the_token_only_on_success (w : World) :
  match fst (authenticate panel self w) with
  | Ret ti =>
      _token (snd (authenticate panel self w)) = Some ti
      /\ forall t, is_expired t ti = true
                   <-> now w + timedelta_hours 23 + timedelta_minutes 55 <= t
  | Raise _ => _token (snd (authenticate panel self w)) = _token w
  end.
Proof.
  destruct (authenticate_effect w) as [_ H].
  destruct (fst (authenticate panel self w)) as [ti | e]; [ | exact H ].
  destruct H as [Ht He]. split; [ exact Ht | ].
  intros t. unfold is_expired. rewrite He.
  unfold timedelta_hours, timedelta_minutes. rewrite Z.geb_le. lia.
Qed.

Lemma ensure_effect w :
  (exists added, log (snd (_ensure_authenticated panel self w)) = log w ++ added
                 /\ Forall authorized added)
  /\ (fst (_ensure_authenticated panel self w) = Ret tt ->
      _token (snd (_ensure_authenticated panel self w)) <> None).
Proof.
  unfold _ensure_authenticated, bind, get.
  assert (Ha : forall w0,
    (exists added,
       log (snd (match authenticate panel self w0 with
                 | (Ret _, s') => ret tt s'
                 | (Raise e, s') => (Raise e, s')
                 end)) = log w0 ++ added /\ Forall authorized added)
    /\ (fst (match authenticate panel self w0 with
             | (Ret _, s') => ret tt s'
             | (Raise e, s') => (Raise e, s')
             end) = Ret tt ->
        _token (snd (match authenticate panel self w0 with
                     | (Ret _, s') => ret tt s'
                     | (Raise e, s') => (Raise e, s')
                     end)) <> None)).
  { intros w0. destruct (authenticate_effect w0) as [Hl Ht].
    destruct (authenticate panel self w0) as [[ti | e] w1]; cbn [fst snd] in *.
    - split; [ exact Hl | ]. intros _. cbn [ret snd]. destruct Ht as [-> _].
      discriminate.
    - split; [ exact Hl | discriminate ]. }
  destruct (_token w) as [tk |] eqn:Et; [ destruct (is_expired (now w) tk) | ];
    try apply Ha.
  split; [ exists []; cbn; now rewrite app_nil_r | ].
  intros _. cbn. rewrite Et. discriminate.
Qed.

Lemma attempts_authorized on_401 method endpoint :
  logs_only authorized on_401 ->
  forall todo last w, _token w <> None ->
    exists added,
      log (snd (attempts panel self on_401 method endpoint todo last w))
      = log w ++ added
      /\ Forall authorized added.
Proof.
  intros H401. induction todo as [| a rest IH]; intros last w Ht.
  { exists []. cbn. rewrite app_nil_r. split; [ reflexivity | constructor ]. }
  rewrite attempts_step. cbv zeta.
  assert (Hreq : authorized
                   (HRequest method endpoint (option_map access_token (_token w)))).
  { cbn. destruct (_token w); [ discriminate | congruence ]. }
  assert (Hone : forall r : outcome (option pystr), exists added,
            log (snd (r, sent method endpoint w)) = log w ++ added
            /\ Forall authorized added).
  { intros r. eexists. split; [ reflexivity | ]. repeat constructor. exact Hreq. }
  assert (Hrec : forall err, exists added,
            log (snd (attempts panel self on_401 method endpoint rest err
                        (after_backoff self a (sent method endpoint w))))
            = log w ++ added /\ Forall authorized added).
  { intros err.
    destruct (IH err (after_backoff self a (sent method endpoint w)))
      as (y & Ey & Hy).
    { unfold after_backoff. destruct (a <? _); exact Ht. }
    rewrite Ey. unfold after_backoff.
    destruct (a <? _max_retries self - 1); cbn [log slept sent];
      rewrite <- !app_assoc; eexists; (split; [ reflexivity | ]);
      repeat constructor; assumption. }
  destruct (api panel (requests w)) as [m | m | m | r];
    try apply Hrec; try apply Hone.
  destruct (status_code r =? 401).
  { destruct (H401 (sent method endpoint w)) as (y & Ey & Hy).
    rewrite Ey. cbn [log sent]. rewrite <- app_assoc.
    eexists. split; [ reflexivity | ]. constructor; assumption. }
  destruct (status_code r =? 404); [ apply Hone | ].
  destruct (status_code r >=? 500); [ apply Hone | ].
  destruct (status_error r); [ apply Hrec | ].
  destruct (has_content r); [ destruct (json r) | ]; apply Hone.
Qed.

Lemma logs_only_bind {A B} P (c : M World A) (f : A -> M World B) :
  logs_only P c -> (forall a, logs_only P (f a)) -> logs_only P (bind c f).
Proof.
  intros Hc Hf w. unfold bind. destruct (Hc w) as (x & E & Hx).
  destruct (c w) as [[a | e] w1]; cbn [snd] in *.
  - destruct (Hf a w1) as (y & E' & Hy). exists (x ++ y).
    rewrite E', E, app_assoc. split; [ reflexivity | now apply Forall_app ].
  - now exists x.
Qed.

Lemma ensure_then_attempts_authorized on_401 method endpoint todo last :
  logs_only authorized on_401 ->
  logs_only authorized
    (_ensure_authenticated panel self ;;
     attempts panel self on_401 method endpoint todo last)%monad.
Proof.
  intros H401 w. unfold bind.
  destruct (ensure_effect w) as [(x & Ex & Hx) Ht].
  destruct (_ensure_authenticated panel self w) as [[[] | e] w1]; cbn [fst snd] in *.
  - destruct (attempts_authorized method endpoint H401 todo last w1 (Ht eq_refl))
      as (y & Ey & Hy).
    exists (x ++ y). rewrite Ey, Ex, app_assoc.
    split; [ reflexivity | now apply Forall_app ].
  - now exists x.
Qed.

(** [_request] never sends a request without a bearer token: every
    request it makes, on the first pass and after a
    re-authentication, carries the token the client holds at that
    moment. *)
Theorem request_always_carries_a_token
    (method endpoint : pystr) (retry_auth : bool) (w : World) :
  exists added,
    log (snd (_request panel self method endpoint retry_auth w)) = log w ++ added
    /\ Forall authorized added.
Proof.
  assert (Hf : logs_only authorized (_request panel self method endpoint false)).
  { apply ensure_then_attempts_authorized.
    intros w0. exists []. cbn. rewrite app_nil_r. split; [ reflexivity | constructor ]. }
  destruct retry_auth; [ | apply Hf ].
  apply ensure_then_attempts_authorized.
  apply logs_only_bind; [ | intros _; exact Hf ].
  intros w0. apply authenticate_effect.
Qed.

Lemma attempts_wait on_401 method endpoint :
  forall (k a : nat) last w,
    _max_retries self = Z.of_nat (a + k) ->
    (forall i, (i < k)%nat -> retry_error (api panel (requests w + i)) <> None) ->
    now (snd (attempts panel self on_401 method endpoint
                (List.map Z.of_nat (seq a k)) last w))
    = now w + timedelta_seconds
                (2 ^ (_max_retries self - 1)
                 - 2 ^ Z.min (Z.of_nat a) (_max_retries self - 1)).
Proof.
  induction k as [| k IH]; intros a last w Hn Hall.
  - cbn [seq List.map attempts raise snd].
    rewrite Z.min_r by lia. unfold timedelta_seconds. lia.
  - cbn [seq List.map].
    destruct (retry_error (api panel (requests w))) as [err |] eqn:Er.
    2:{ exfalso. apply (Hall 0%nat); [ lia | ]. now rewrite Nat.add_0_r. }
    rewrite (attempts_retry panel self on_401 method endpoint (Z.of_nat a)
               (List.map Z.of_nat (seq (S a) k)) last w Er).
    rewrite IH.
    + unfold after_backoff.
      destruct (Z.of_nat a <? _max_retries self - 1) eqn:Ea.
      * apply Z.ltb_lt in Ea. cbn [now slept sent].
        rewrite !Z.min_l by lia.
        replace (Z.of_nat (S a)) with (Z.succ (Z.of_nat a)) by lia.
        rewrite Z.pow_succ_r by lia.
        unfold timedelta_seconds. lia.
      * apply Z.ltb_ge in Ea. cbn [now sent].
        rewrite !Z.min_r by lia. reflexivity.
    + rewrite Hn. lia.
    + intros i Hi. rewrite requests_after_backoff. cbn [requests sent].
      replace (S (requests w) + i)%nat with (requests w + S i)%nat by lia.
      apply Hall. lia.
Qed.

(** With a valid token and every one of the [_max_retries] attempts
    failing in a way that is retried, [_request] has waited
    [2 ** (_max_retries - 1) - 1] seconds in all when it gives up:
    1, 2, 4, ... seconds after each attempt but the last. *)
Theorem request_waits_exponentially_before_giving_up
    (method endpoint : pystr) (retry_auth : bool) (w : World) :
  has_valid_token w ->
  0 < _max_retries self ->
  (forall i, (i < Z.to_nat (_max_retries self))%nat ->
             retry_error (api panel (requests w + i)) <> None) ->
  now (snd (_request panel self method endpoint retry_auth w))
  = now w + timedelta_seconds (2 ^ (_max_retries self - 1) - 1).
Proof.
  intros Hv Hn Hall.
  assert (E : forall on_401,
    now (snd ((_ensure_authenticated panel self ;;
               attempts panel self on_401 method endpoint
                 (range (_max_retries self)) None)%monad w))
    = now w + timedelta_seconds (2 ^ (_max_retries self - 1) - 1)).
  { intros on_401. unfold bind. rewrite (ensure_with_valid_token Hv).
    unfold range. rewrite attempts_wait; [ | lia | exact Hall ].
    rewrite Z.min_l by lia. reflexivity. }
  destruct retry_auth; apply E.
Qed.

(** With [_max_retries] at zero or below, [_request] sends nothing:
    a client with a valid token raises
    [MarzbanConnectionError("Max retries exceeded")] at once and
    leaves everything as it was. *)
Theorem request_without_retries_sends_nothing
    (method endpoint : pystr) (retry_auth : bool) (w : World) :
  has_valid_token w ->
  _max_retries self <= 0 ->
  _request panel self method endpoint retry_auth w
  = (Raise (Exc MarzbanConnectionError (lit "Max retries exceeded")), w).
Proof.
  intros Hv Hn.
  assert (Hr : range (_max_retries self) = []).
  { unfold range. replace (Z.to_nat (_max_retries self)) with 0%nat by lia.
    reflexivity. }
  destruct retry_auth; unfold _request, bind;
    rewrite (ensure_with_valid_token Hv), Hr; reflexivity.
Qed.

Lemma range_pos n : 0 < n -> exists rest, range n = 0 :: rest.
Proof.
  intros H. unfold range.
  destruct (Z.to_nat n) as [| k] eqn:E; [ lia | ].
  cbn. now eexists.
Qed.


End OneClient.

(** Three timeouts in a row with three attempts allowed: 1 + 2
    seconds of waiting. *)
Lemma request_waits_exponentially_witness :
  now (snd (_request flaky_panel (admin 3) GET nodes_endpoint true world0))
  = now world0 + timedelta_seconds (2 ^ (_max_retries (admin 3) - 1) - 1).
Proof.
  apply (request_waits_exponentially_before_giving_up flaky_panel (admin 3)
           GET nodes_endpoint true (w := world0)).
  - eexists. split; reflexivity.
  - reflexivity.
  - intros [| [| [| i]]] Hi; cbn; discriminate.
Defined.

(** A client configured with no attempt at all. *)
Lemma request_without_retries_witness :
  _request flaky_panel (admin 0) GET nodes_endpoint true world0
  = (Raise (Exc MarzbanConnectionError (lit "Max retries exceeded")), world0).
Proof.
  apply (request_without_retries_sends_nothing flaky_panel (admin 0)
           GET nodes_endpoint true (w := world0)).
  - eexists. split; reflexivity.
  - discriminate.
Defined.


End Requests.

(** ** Texts: stripping, escape sequences, node names *)

Section Texts.
Import Re SSHClient NodeManagerClient NodeManagerQueries TextSpec.

Lemma drop_while_idem p : forall s : pystr,
  drop_while p (drop_while p s) = drop_while p s.
Proof.
  induction s as [| c s IH]; [ reflexivity | ].
  cbn [drop_while]. destruct (p c) eqn:E; [ exact IH | ].
  cbn [drop_while]. now rewrite E.
Qed.

Lemma drop_while_suffix p : forall s : pystr,
  s = take_while p s ++ drop_while p s.
Proof.
  induction s as [| c s IH]; [ reflexivity | ].
  cbn. destruct (p c); [ cbn; f_equal; exact IH | reflexivity ].
Qed.

Lemma drop_while_head p (s : pystr) c t :
  drop_while p s = c :: t -> p c = false.
Proof.
  induction s as [| d s IH]; [ discriminate | ].
  cbn. destruct (p d) eqn:E; [ exact IH | ].
  intros H. injection H as <- _. exact E.
Qed.

Lemma drop_while_all p (xs r : pystr) :
  forallb p xs = true -> drop_while p (xs ++ r) = drop_while p r.
Proof.
  induction xs as [| x xs IH]; [ reflexivity | ].
  cbn. destruct (p x); [ exact IH | discriminate ].
Qed.

Lemma rstrip_prefix (t : pystr) : exists tail, t = rstrip t ++ tail.
Proof.
  unfold rstrip, lstrip. exists (rev (take_while is_space (rev t))).
  rewrite <- rev_app_distr, <- drop_while_suffix. now rewrite rev_involutive.
Qed.

Lemma rstrip_idem (t : pystr) : rstrip (rstrip t) = rstrip t.
Proof.
  unfold rstrip, lstrip. now rewrite rev_involutive, drop_while_idem.
Qed.

Lemma strip_idem (s : pystr) : strip (strip s) = strip s.
Proof.
  unfold strip at 1.
  assert (H : lstrip (strip s) = strip s).
  { unfold strip. destruct (rstrip_prefix (lstrip s)) as [tail E].
    destruct (rstrip (lstrip s)) as [| c y] eqn:Ey; [ reflexivity | ].
    unfold lstrip at 1. cbn [drop_while].
    rewrite (drop_while_head is_space s (t := y ++ tail)); [ reflexivity | ].
    exact E. }
  rewrite H. unfold strip. apply rstrip_idem.
Qed.

Lemma In_drop_while p c : forall s : pystr, In c (drop_while p s) -> In c s.
Proof.
  induction s as [| d s IH]; [ easy | ].
  cbn [drop_while]. destruct (p d); [ intros H; right; now apply IH | easy ].
Qed.

Lemma In_strip c (s : pystr) : In c (strip s) -> In c s.
Proof.
  unfold strip, rstrip, lstrip. intros H.
  apply in_rev, In_drop_while, in_rev in H. now apply In_drop_while in H.
Qed.

Lemma split_on_lines sep : forall s,
  split_on sep s <> [] /\ Forall (fun line => ~ In sep line) (split_on sep s).
Proof.
  induction s as [| c s [Hn IH]]; cbn [split_on].
  - split; [ discriminate | ]. constructor; [ easy | constructor ].
  - destruct (N.eqb_spec c sep) as [E | E].
    + split; [ discriminate | ]. constructor; [ easy | exact IH ].
    + destruct (split_on sep s) as [| line lines]; [ now destruct Hn | ].
      split; [ discriminate | ].
      inversion IH as [| ? ? Hl Hr]; subst.
      constructor; [ | exact Hr ].
      intros [H | H]; [ now apply E | now apply Hl ].
Qed.

(** The names [list_nodes] returns are never empty, hold no line
    break and have nothing left to strip; when the command exits
    with a non-zero code there are none. *)
Theorem list_nodes_returns_clean_names (rm : Remote) (tr : trace) :
  match execute_outcome rm tr (lit "marzban-node-manager list") 30 with
  | Ret result =>
      exists names,
        fst (list_nodes rm tr) = Ret names
        /\ Forall clean_name names
        /\ (exit_code result <> 0%Z -> names = [])
  | Raise e => fst (list_nodes rm tr) = Raise e
  end.
Proof.
  unfold list_nodes, bind, execute.
  destruct (execute_outcome rm tr (lit "marzban-node-manager list") 30)
    as [result | e]; [ | reflexivity ].
  destruct (Z.eqb_spec (exit_code result) 0) as [E | E]; cbn [negb].
  - eexists. split; [ reflexivity | ]. split; [ | intros H; now destruct H ].
    destruct (split_on_lines 10 (strip (stdout result))) as [_ H].
    induction H as [| line lines Hl _ IH]; [ constructor | ].
    cbn [filter]. destruct (truthy (strip line)) eqn:Et; [ | exact IH ].
    cbn [List.map]. constructor; [ | exact IH ].
    repeat split.
    + intros H0. rewrite H0 in Et. discriminate.
    + intros H0. apply Hl. now apply In_strip.
    + apply strip_idem.
  - exists []. repeat split. constructor.
Qed.

Lemma subsequence_tail : forall (b : pystr) x a,
  subsequence (x :: a) b = true -> subsequence a b = true.
Proof.
  induction b as [| y b IH]; intros x a H; [ discriminate | ].
  cbn [subsequence] in H.
  destruct a as [| z a]; [ reflexivity | ]. cbn [subsequence].
  destruct (x =? y)%N.
  - destruct (z =? y)%N; [ now apply IH in H | exact H ].
  - apply IH in H. destruct (z =? y)%N; [ now apply IH in H | exact H ].
Qed.

Lemma subsequence_skip (a : pystr) c b :
  subsequence a b = true -> subsequence a (c :: b) = true.
Proof.
  intros H. destruct a as [| x a]; [ reflexivity | ].
  cbn [subsequence]. destruct (x =? c)%N; [ now apply subsequence_tail in H | exact H ].
Qed.

Lemma sub_from_subsequence pat : forall s skip,
  subsequence (sub_from pat skip s) s = true.
Proof.
  induction s as [| c s IH]; intros skip; [ reflexivity | ].
  cbn [sub_from].
  assert (Hkeep : subsequence (c :: sub_from pat 0 s) (c :: s) = true).
  { cbn [subsequence]. rewrite N.eqb_refl. apply IH. }
  destruct skip as [| n]; [ | apply subsequence_skip, IH ].
  destruct (match_at pat (c :: s)) as [[gs rest] |]; [ | exact Hkeep ].
  destruct (length (c :: s) - length rest)%nat; [ exact Hkeep | apply subsequence_skip, IH ].
Qed.

Lemma subsequence_length : forall (b a : pystr),
  subsequence a b = true -> (length a <= length b)%nat.
Proof.
  induction b as [| y b IH]; intros [| x a] H; cbn in *; try lia; try discriminate.
  destruct (x =? y)%N.
  - apply IH in H. lia.
  - apply IH in H. cbn in H. lia.
Qed.

(** [_strip_ansi] only removes characters: its result is the text
    with some characters left out, in the same order, and is never
    longer than the text. *)
Theorem strip_ansi_only_removes (text : pystr) :
  subsequence (_strip_ansi text) text = true
  /\ (length (_strip_ansi text) <= length text)%nat.
Proof.
  assert (H : subsequence (_strip_ansi text) text = true)
    by apply sub_from_subsequence.
  split; [ exact H | now apply subsequence_length ].
Qed.

Lemma csi_classes_disjoint c :
  (csi_param c = true -> csi_inter c = false /\ csi_final c = false)
  /\ (csi_inter c = true -> csi_param c = false /\ csi_final c = false)
  /\ (csi_final c = true -> csi_param c = false /\ csi_inter c = false).
Proof.
  unfold csi_param, csi_inter, csi_final, in_range.
  split; [ | split ]; intros H0; apply andb_true_iff in H0; destruct H0 as [H1 H2];
    apply N.leb_le in H1, H2; split; apply andb_false_iff;
    first [ left; apply N.leb_gt; lia | right; apply N.leb_gt; lia ].
Qed.

Lemma match_at_csi (params inters : pystr) (final : N) (rest : pystr) :
  forallb csi_param params = true ->
  forallb csi_inter inters = true ->
  csi_final final = true ->
  match_at ansi_escape (ESC :: 91%N :: params ++ inters ++ final :: rest)
  = Some ([], rest).
Proof.
  intros Hp Hi Hf.
  destruct (csi_classes_disjoint final) as (_ & _ & Hfin).
  destruct (Hfin Hf) as [Hfp Hfi].
  change (match_at ansi_escape (ESC :: 91%N :: params ++ inters ++ final :: rest))
    with (star csi_param (star csi_inter (one csi_final accept)) []
            (params ++ inters ++ final :: rest)).
  rewrite star_disjoint.
  2:{ intros c s' Hc. destruct (csi_classes_disjoint c) as (Hd & _ & _).
      destruct (Hd Hc) as [Hci Hcf]. cbn [star]. rewrite Hci. unfold one.
      now rewrite Hcf. }
  rewrite (drop_while_all csi_param params _ Hp).
  assert (E : drop_while csi_param (inters ++ final :: rest)
              = inters ++ final :: rest).
  { destruct inters as [| i inters]; cbn [app drop_while].
    - now rewrite Hfp.
    - cbn in Hi. apply andb_true_iff in Hi. destruct Hi as [Hi _].
      destruct (csi_classes_disjoint i) as (_ & Hd & _).
      destruct (Hd Hi) as [-> _]. reflexivity. }
  rewrite E. rewrite star_disjoint.
  2:{ intros c s' Hc. destruct (csi_classes_disjoint c) as (_ & Hd & _).
      destruct (Hd Hc) as [_ Hcf]. unfold one. now rewrite Hcf. }
  rewrite (drop_while_all csi_inter inters _ Hi).
  cbn [drop_while]. rewrite Hfi. unfold one. rewrite Hf. reflexivity.
Qed.

Lemma sub_from_skip pat (r : pystr) : forall xs : pystr,
  sub_from pat (length xs) (xs ++ r) = sub_from pat 0 r.
Proof.
  induction xs as [| x xs IH]; [ reflexivity | ].
  cbn [length app sub_from]. exact IH.
Qed.

(** A well-formed control sequence [ESC [ params intermediates final]
    (a colour code, a cursor movement) is removed whole: the text
    before it, if it holds no escape character, is kept as it is, and
    stripping goes on right after the final character. *)
Theorem strip_ansi_removes_control_sequences
    (before params inters : pystr) (final : N) (rest : pystr) :
  ~ In ESC before ->
  forallb csi_param params = true ->
  forallb csi_inter inters = true ->
  csi_final final = true ->
  _strip_ansi (before ++ csi params inters final ++ rest)
  = before ++ _strip_ansi rest.
Proof.
  intros Hb Hp Hi Hf. unfold _strip_ansi, sub_empty.
  induction before as [| c before IH].
  - cbn [app]. unfold csi.
    change ((ESC :: 91%N :: params ++ inters ++ [final]) ++ rest)
      with (ESC :: (91%N :: params ++ inters ++ [final]) ++ rest).
    cbn [sub_from].
    replace (ESC :: (91%N :: params ++ inters ++ [final]) ++ rest)
      with (ESC :: 91%N :: params ++ inters ++ final :: rest)
      by (cbn [app]; now rewrite <- !app_assoc).
    rewrite (match_at_csi params inters final rest Hp Hi Hf).
    replace (length (ESC :: 91%N :: params ++ inters ++ final :: rest) - length rest)%nat
      with (S (length (91%N :: params ++ inters ++ [final]))).
    2:{ cbn [length]. rewrite !length_app. cbn [length]. lia. }
    apply sub_from_skip.
  - cbn [app sub_from].
    rewrite match_at_ansi_escape_head by (intros ->; apply Hb; now left).
    f_equal. apply IH. intros H. apply Hb. now right.
Qed.

(** The word "ok" after a colour code. *)
Lemma strip_ansi_removes_control_sequences_witness :
  _strip_ansi (lit "status: " ++ csi (lit "1;32") [] 109%N ++ lit "ok")
  = lit "status: " ++ _strip_ansi (lit "ok").
Proof.
  apply (@strip_ansi_removes_control_sequences (lit "status: ") (lit "1;32") []
           109%N (lit "ok")).
  - vm_compute. intuition discriminate.
  - reflexivity.
  - reflexivity.
  - reflexivity.
Defined.

(** When the installation command fails, the error of the result is
    never empty and never blank, and it has no leading or trailing
    white space: it is the stripped output, or "Installation failed"
    when that is empty. *)
Theorem install_error_is_never_blank
    (todecimal : N -> option N) (result : CommandResult) (name : pystr)
    (service_port api_port : Z) :
  exit_code result <> 0%Z ->
  exists e,
    error (_parse_install_output todecimal result name service_port api_port)
    = Some e
    /\ e <> [] /\ strip e = e.
Proof.
  intros Hx. unfold _parse_install_output. cbv zeta.
  destruct (Z.eqb_spec (exit_code result) 0) as [E | _]; [ contradiction | ].
  cbn [negb error].
  destruct (truthy (strip (_strip_ansi (stdout result ++ stderr result)))) eqn:Et.
  - eexists. split; [ reflexivity | ]. split; [ | apply strip_idem ].
    intros H. rewrite H in Et. discriminate.
  - eexists. split; [ reflexivity | ]. split; [ discriminate | reflexivity ].
Qed.

(** A failed installation that printed only blank lines. *)
Lemma install_error_is_never_blank_witness :
  exists e,
    error (_parse_install_output ascii_decimal
             {| stdout := lit "  "; stderr := [10%N]; exit_code := 1 |}
             (lit "n1") 62050 62051)
    = Some e
    /\ e <> [] /\ strip e = e.
Proof.
  apply (install_error_is_never_blank ascii_decimal
           {| stdout := lit "  "; stderr := [10%N]; exit_code := 1 |}
           (lit "n1") 62050 62051).
  discriminate.
Defined.

End Texts.

(** ** The registry of jobs *)

Section Registry.
Import JobManager JobRegistry RegistrySpec.
Local Open Scope Z_scope.

Lemma eqb_refl (a : pystr) : eqb a a = true.
Proof. unfold eqb. destruct (list_eq_dec N.eq_dec a a); congruence. Qed.

Lemma eqb_neq (a b : pystr) : a <> b -> eqb a b = false.
Proof. unfold eqb. destruct (list_eq_dec N.eq_dec a b); congruence. Qed.

Lemma eqb_false (a b : pystr) : eqb a b = false -> a <> b.
Proof. intros H ->. rewrite eqb_refl in H. discriminate. Qed.

Lemma get_store_same id j : forall jobs, get_job id (store id j jobs) = Some j.
Proof.
  induction jobs as [| [k v] jobs IH]; cbn.
  - now rewrite eqb_refl.
  - destruct (eqb k id) eqn:E; cbn; rewrite E; [ reflexivity | exact IH ].
Qed.

Lemma get_store_other id id' j : id' <> id ->
  forall jobs, get_job id' (store id j jobs) = get_job id' jobs.
Proof.
  intros Hn. induction jobs as [| [k v] jobs IH]; cbn.
  - rewrite eqb_neq; [ reflexivity | congruence ].
  - destruct (eqb k id) eqn:E; cbn.
    + apply eqb_eq in E. subst k. rewrite eqb_neq; [ reflexivity | congruence ].
    + now rewrite IH.
Qed.

Lemma keys_store id j k : forall jobs,
  In k (keys (store id j jobs)) <-> k = id \/ In k (keys jobs).
Proof.
  induction jobs as [| [k' v] jobs IH]; cbn.
  - intuition.
  - destruct (eqb k' id) eqn:E; cbn.
    + apply eqb_eq in E. subst k'. intuition.
    + rewrite IH. intuition.
Qed.

Lemma NoDup_store id j : forall jobs,
  NoDup (keys jobs) -> NoDup (keys (store id j jobs)).
Proof.
  induction jobs as [| [k v] jobs IH]; cbn; intros H.
  - constructor; [ easy | constructor ].
  - inversion H as [| ? ? Hk Hr]; subst.
    destruct (eqb k id) eqn:E; cbn.
    + now constructor.
    + constructor; [ | now apply IH ].
      intros Hin. apply (keys_store id j k jobs) in Hin.
      destruct Hin as [-> | Hin]; [ now rewrite eqb_refl in E | now apply Hk ].
Qed.

Lemma length_store_fresh id j : forall jobs,
  get_job id jobs = None -> length (store id j jobs) = S (length jobs).
Proof.
  induction jobs as [| [k v] jobs IH]; cbn; [ reflexivity | ].
  destruct (eqb k id); [ discriminate | ].
  intros H. cbn. now rewrite IH.
Qed.

Lemma get_remove_other id id' : id' <> id ->
  forall jobs, get_job id' (remove id jobs) = get_job id' jobs.
Proof.
  intros Hn. induction jobs as [| [k v] jobs IH]; cbn; [ reflexivity | ].
  destruct (eqb k id) eqn:E; cbn.
  - apply eqb_eq in E. subst k. rewrite eqb_neq; [ reflexivity | congruence ].
  - now rewrite IH.
Qed.

Lemma keys_remove id k : forall jobs,
  In k (keys (remove id jobs)) -> In k (keys jobs).
Proof.
  induction jobs as [| [k' v] jobs IH]; cbn; [ easy | ].
  destruct (eqb k' id); cbn; intuition.
Qed.

Lemma NoDup_remove id : forall jobs,
  NoDup (keys jobs) -> NoDup (keys (remove id jobs)).
Proof.
  induction jobs as [| [k v] jobs IH]; cbn; intros H; [ constructor | ].
  inversion H as [| ? ? Hk Hr]; subst.
  destruct (eqb k id); cbn; [ exact Hr | ].
  constructor; [ | now apply IH ].
  intros Hin. apply Hk. now apply keys_remove in Hin.
Qed.

Lemma remove_all ids : forall jobs,
  NoDup (keys jobs) ->
  NoDup (keys (fold_left (fun js id => remove id js) ids jobs))
  /\ (forall id, ~ In id ids ->
        get_job id (fold_left (fun js id => remove id js) ids jobs)
        = get_job id jobs).
Proof.
  induction ids as [| i ids IH]; intros jobs H; cbn [fold_left].
  - split; [ exact H | reflexivity ].
  - destruct (IH (remove i jobs) (NoDup_remove i jobs H)) as [H1 H2].
    split; [ exact H1 | ].
    intros id Hn. rewrite H2 by (intros Hin; apply Hn; now right).
    apply get_remove_other. intros ->. apply Hn. now left.
Qed.

Lemma get_In id j : forall jobs, get_job id jobs = Some j -> In (id, j) jobs.
Proof.
  induction jobs as [| [k v] jobs IH]; cbn; [ discriminate | ].
  destruct (eqb k id) eqn:E.
  - intros H. injection H as ->. apply eqb_eq in E. subst k. now left.
  - intros H. right. now apply IH.
Qed.

Lemma In_get id j : forall jobs,
  NoDup (keys jobs) -> In (id, j) jobs -> get_job id jobs = Some j.
Proof.
  induction jobs as [| [k v] jobs IH]; cbn; intros Hd Hin; [ easy | ].
  inversion Hd as [| ? ? Hk Hr]; subst.
  destruct Hin as [Hin | Hin].
  - injection Hin as -> ->. now rewrite eqb_refl.
  - destruct (eqb k id) eqn:E; [ | now apply IH ].
    apply eqb_eq in E. subst k. exfalso. apply Hk.
    change id with (fst (id, j)). now apply in_map.
Qed.

Lemma filter_nothing {A} (f : A -> bool) (l : list A) :
  (forall x, In x l -> f x = false) -> filter f l = [].
Proof.
  induction l as [| a l IH]; intros H; [ reflexivity | ].
  cbn. rewrite (H a (or_introl eq_refl)). apply IH.
  intros x Hx. apply H. now right.
Qed.

Section Manager.
Variable _max_jobs : Z.
Variable older_than_ttl : datetime -> datetime -> bool.

Lemma cleanup_keeps (now : datetime) (jobs : registry) :
  NoDup (keys jobs) ->
  NoDup (keys (_cleanup_old_jobs older_than_ttl now jobs))
  /\ (forall id j, get_job id jobs = Some j ->
        expired older_than_ttl now j = false ->
        get_job id (_cleanup_old_jobs older_than_ttl now jobs) = Some j)
  /\ ((forall id j, get_job id jobs = Some j ->
         expired older_than_ttl now j = false) ->
      _cleanup_old_jobs older_than_ttl now jobs = jobs).
Proof.
  intros Hd. unfold _cleanup_old_jobs. cbv zeta.
  destruct (remove_all
              (List.map fst (filter (fun entry => expired older_than_ttl now (snd entry))
                               jobs)) jobs Hd) as [H1 H2].
  split; [ exact H1 | ]. split.
  - intros id j Hg He. rewrite H2; [ exact Hg | ].
    intros Hin. apply in_map_iff in Hin. destruct Hin as ([k v] & Hk & Hin).
    cbn in Hk. subst k. apply filter_In in Hin. destruct Hin as [Hin Hx].
    cbn in Hx. rewrite (In_get id v jobs Hd Hin) in Hg. injection Hg as ->.
    congruence.
  - intros Hall.
    rewrite filter_nothing; [ reflexivity | ].
    intros [k v] Hin. cbn. apply (Hall k v). now apply In_get.
Qed.

(** [create_job] with a registry that holds each id once: the new job
    can be looked up by its id, also when the registry was at
    capacity; no job is evicted unless it is finished and older than
    the time to live; and when no job can be evicted, a job with a
    fresh id makes the registry one longer, whatever [_max_jobs]
    is. *)
Theorem create_job_registers_and_evicts_only_expired
    (job_type : pystr) (metadata : option pydict) (job_id : option pystr)
    (uuid4 : pystr) (cleanup_now created_now : datetime) (jobs : registry) :
  NoDup (keys jobs) ->
  let made := create_job _max_jobs older_than_ttl job_type metadata job_id uuid4
                cleanup_now created_now jobs in
  let id := JobManager.job_id (fst made) in
  get_job id (snd made) = Some (fst made)
  /\ NoDup (keys (snd made))
  /\ (forall id' j, id' <> id -> get_job id' jobs = Some j ->
        expired older_than_ttl cleanup_now j = false ->
        get_job id' (snd made) = Some j)
  /\ (get_job id jobs = None ->
      (forall id' j, get_job id' jobs = Some j ->
         expired older_than_ttl cleanup_now j = false) ->
      length (snd made) = S (length jobs)).
Proof.
  intros Hd. cbv zeta. unfold create_job. cbv zeta. cbn [fst snd].
  set (job := new_job _ job_type _ created_now).
  destruct (cleanup_keeps cleanup_now jobs Hd) as (H1 & H2 & H3).
  split; [ apply get_store_same | ].
  split; [ apply NoDup_store; destruct (_ >=? _); assumption | ].
  split.
  - intros id' j Hn Hg He. rewrite get_store_other by exact Hn.
    destruct (_ >=? _); [ now apply H2 | exact Hg ].
  - intros Hf Hall. rewrite (H3 Hall).
    destruct (_ >=? _); now apply length_store_fresh.
Qed.

End Manager.

(** A full registry of two jobs, one of them finished long ago. *)
Lemma create_job_registers_witness :
  let made := create_job 2 a_day_old (lit "ssh_install") None (Some (lit "new"))
                (lit "uuid") 100000000000 100000000001 two_jobs in
  let id := JobManager.job_id (fst made) in
  get_job id (snd made) = Some (fst made)
  /\ NoDup (keys (snd made))
  /\ (forall id' j, id' <> id -> get_job id' two_jobs = Some j ->
        expired a_day_old 100000000000 j = false ->
        get_job id' (snd made) = Some j)
  /\ (get_job id two_jobs = None ->
      (forall id' j, get_job id' two_jobs = Some j ->
         expired a_day_old 100000000000 j = false) ->
      length (snd made) = S (length two_jobs)).
Proof.
  apply (@create_job_registers_and_evicts_only_expired 2 a_day_old
           (lit "ssh_install") None (Some (lit "new")) (lit "uuid")
           100000000000 100000000001 two_jobs).
  vm_compute. repeat constructor; intros H; repeat destruct H as [H | H];
    try discriminate H; exact H.
Defined.

Lemma In_insert_desc x j : forall l, In x (insert_desc j l) <-> x = j \/ In x l.
Proof.
  induction l as [| h t IH]; cbn.
  - intuition.
  - destruct (created_at h >? created_at j); cbn; [ rewrite IH | ]; intuition.
Qed.

Lemma descending_insert j : forall l, descending l -> descending (insert_desc j l).
Proof.
  induction l as [| h t IH]; cbn [insert_desc descending]; intros H.
  - split; [ constructor | exact I ].
  - destruct H as [Hh Ht].
    destruct (created_at h >? created_at j) eqn:E; cbn [descending].
    + apply Z.gtb_lt in E. split; [ | now apply IH ].
      apply Forall_forall. intros x Hx. apply In_insert_desc in Hx.
      destruct Hx as [-> | Hx]; [ lia | ].
      rewrite Forall_forall in Hh. now apply Hh.
    + assert (created_at h <= created_at j).
      { destruct (Z.gtb_spec (created_at h) (created_at j)); [ discriminate | lia ]. }
      split; [ | split; assumption ].
      constructor; [ assumption | ].
      apply Forall_forall. intros x Hx.
      rewrite Forall_forall in Hh. specialize (Hh x Hx). lia.
Qed.

Lemma sort_desc_sorted l :
  descending (sort_desc l) /\ (forall x, In x (sort_desc l) <-> In x l).
Proof.
  induction l as [| j l [IH1 IH2]]; cbn [sort_desc fold_right].
  - split; [ exact I | reflexivity ].
  - split; [ now apply descending_insert | ].
    intros x. rewrite In_insert_desc. fold (sort_desc l). rewrite IH2.
    cbn. intuition.
Qed.

Lemma In_firstn_list {A} (x : A) : forall n l, In x (firstn n l) -> In x l.
Proof.
  induction n as [| n IH]; intros [| a l]; cbn; try easy.
  intros [H | H]; [ now left | right; now apply IH ].
Qed.

Lemma descending_firstn : forall n l, descending l -> descending (firstn n l).
Proof.
  induction n as [| n IH]; intros [| a l]; cbn [firstn descending]; try easy.
  intros [Ha Hl]. split; [ | now apply IH ].
  apply Forall_forall. intros x Hx. apply In_firstn_list in Hx.
  rewrite Forall_forall in Ha. now apply Ha.
Qed.

(** What [list_jobs] returns is ordered from the latest creation to
    the earliest; every job in it is in the registry, has the type
    asked for when a non-empty type is given and the status asked
    for when one is given; and with a limit that is not negative it
    holds at most [limit] jobs. *)
Theorem list_jobs_is_sorted_filtered_and_limited
    (job_type : option pystr) (st : option JobStatus) (limit : Z)
    (jobs : registry) :
  let listed := list_jobs job_type st limit jobs in
  descending listed
  /\ (forall j, In j listed ->
        In j (List.map snd jobs)
        /\ (forall t, job_type = Some t -> t <> [] -> JobManager.job_type j = t)
        /\ (forall s, st = Some s -> status j = s))
  /\ (0 <= limit -> (length listed <= Z.to_nat limit)%nat).
Proof.
  cbv zeta. unfold list_jobs. cbv zeta.
  set (by_type := if given job_type then _ else _).
  set (by_status := match st with Some s => _ | None => _ end).
  destruct (sort_desc_sorted by_status) as [Hs Hin].
  assert (Htype : forall j, In j by_type ->
            In j (List.map snd jobs)
            /\ (forall t, job_type = Some t -> t <> [] -> JobManager.job_type j = t)).
  { intros j Hj. unfold by_type in Hj.
    destruct job_type as [[| c t0] |]; cbn [given truthy] in Hj.
    - split; [ exact Hj | ]. intros t H. injection H as <-. congruence.
    - apply filter_In in Hj. destruct Hj as [Hj He].
      split; [ exact Hj | ]. intros t H _. injection H as <-. now apply eqb_eq.
    - split; [ exact Hj | discriminate ]. }
  assert (Hstatus : forall j, In j by_status ->
            In j by_type /\ (forall s, st = Some s -> status j = s)).
  { intros j Hj. unfold by_status in Hj. destruct st as [s |].
    - apply filter_In in Hj. destruct Hj as [Hj He].
      split; [ exact Hj | ]. intros s' H. injection H as <-.
      destruct (status j), s; try discriminate He; reflexivity.
    - split; [ exact Hj | discriminate ]. }
  unfold up_to. split; [ | split ].
  - destruct (limit >=? 0); now apply descending_firstn.
  - intros j Hj.
    assert (Hj' : In j (sort_desc by_status))
      by (destruct (limit >=? 0); now apply In_firstn_list in Hj).
    apply Hin in Hj'. destruct (Hstatus j Hj') as [Ht Hst].
    destruct (Htype j Ht) as [Hreg Hty]. repeat split; assumption.
  - intros Hl. replace (limit >=? 0) with true
      by (symmetry; apply Z.geb_le; lia).
    rewrite length_firstn. lia.
Qed.

End Registry.
